(** * ducklings: the WASM HTTP bridge and the Arrow IPC ingestion helper

    A shallow embedding of [src/http/http_wasm.cpp] and
    [src/arrow/arrow_ipc_insert.cpp].

    - [Str]: the [std::string] operations the bridge uses.
    - [Wire]: the length-prefixed buffer protocol (host-side encoder of
      [em_sync_request], bridge-side decoder of [DoRequest]).
    - [HeaderCodec]: the inbound header-block parser of [DoHeadRequest].
    - [Mem]: the WASM heap as a table of [malloc]ed blocks, with a trace
      of boundary events, and the monad the bridge code runs in.
    - [Bridge]: [HTTPWasmClient] and the host primitives.
    - [Shape]: what one dispatch leaves behind, in closed form.
    - [Arrow]: [duckdb_wasm_insert_arrow_ipc].

    The definitions come first; the facts about them follow, module by
    module, and then the properties of the specification (C1 to C10). *)

From Stdlib Require Import ZArith Ascii String List Lia Bool.
From stdpp Require Import base option list strings.

(** ** [std::string] *)

Module Str.

(** The terminating NUL of a C string. *)
Definition NUL : ascii := "000"%char.

(** [s[i]]; [s[s.size()]] is the terminating NUL. *)
Definition char_at (s : string) (i : nat) : ascii :=
  default NUL (String.get i s).

Fixpoint drop (n : nat) (s : string) : string :=
  match n, s with
  | O, _ => s
  | S n', String _ s' => drop n' s'
  | S _, EmptyString => EmptyString
  end.

Fixpoint rfind_down (s pat : string) (pos : nat) : option nat :=
  if String.prefix pat (drop pos s) then Some pos
  else match pos with
       | O => None
       | S p => rfind_down s pat p
       end.

(** [s.rfind(pat, pos)]: the last occurrence of [pat] that starts at
    or before [pos]; [None] is [npos]. *)
Definition rfind (s pat : string) (pos : nat) : option nat :=
  if (String.length s <? String.length pat)%nat then None
  else rfind_down s pat (Nat.min pos (String.length s - String.length pat)).

(** [s.find(c)]: the first position of the character [c]. *)
Fixpoint find (c : ascii) (s : string) : option nat :=
  match s with
  | EmptyString => None
  | String d s' => if Ascii.eqb d c then Some O else S <$> find c s'
  end.

(** [s.substr(pos, n)] for [pos <= s.size()]. *)
Definition substr (s : string) (pos n : nat) : string :=
  String.substring pos n s.

(** [s.substr(pos)]. *)
Definition substr_from (s : string) (pos : nat) : string := drop pos s.

(** Reading a C string: the bytes before the first NUL.  On the
    JavaScript side [UTF8ToString] stops at the same place and decodes
    the bytes as UTF-8; for ASCII bytes the JavaScript string has the
    same characters, byte for byte, and that is the text for which the
    statements about what the host reads are made. *)
Fixpoint c_str (s : string) : string :=
  match s with
  | EmptyString => EmptyString
  | String c s' => if Ascii.eqb c NUL then EmptyString else String c (c_str s')
  end.

End Str.

(** ** URL normalisation: [HTTPWasmClient::NormalizeUrl] *)

Definition NormalizeUrl (host_port url : string) : string :=
  let path := url in
  let path :=
    if Ascii.eqb (Str.char_at path 0) "/" then host_port +:+ url else path in
  let path :=
    if bool_decide (Str.rfind path "https://" 0 ≠ Some O)
       && bool_decide (Str.rfind path "http://" 0 ≠ Some O)
    then "https://" +:+ path else path in
  path.

(** ** The length-prefixed buffer protocol *)

Module Wire.
Local Open Scope Z_scope.

(** Conversions of C and JavaScript integers. *)
Definition to_int32 (x : Z) : Z := (x + 2^31) mod 2^32 - 2^31.
Definition to_uint32 (x : Z) : Z := x mod 2^32.

(** JavaScript [a & b] and [a >> k]: both operands go through ToInt32. *)
Definition js_and (a b : Z) : Z := Z.land (to_int32 a) (to_int32 b).
Definition js_shr (a k : Z) : Z := Z.shiftr (to_int32 a) (k mod 32).

(** A store into [HEAPU8] keeps the low eight bits. *)
Definition byte_of_Z (v : Z) : ascii := ascii_of_N (Z.to_N (v mod 256)).
Definition Z_of_byte (c : ascii) : Z := Z.of_N (N_of_ascii c).

(** The four prefix bytes the host writes for a payload of [len] bytes
    ([em_sync_request], [em_sync_head_request]). *)
Definition length_prefix (len : Z) : string :=
  String (byte_of_Z (js_and len 255))
    (String (byte_of_Z (js_and (js_shr len 8) 255))
       (String (byte_of_Z (js_and (js_shr len 16) 255))
          (String (byte_of_Z (js_and (js_shr len 24) 255)) EmptyString))).

(** Host side: the content of the buffer of [len + 4] bytes. *)
Definition encode_wire (payload : string) : string :=
  length_prefix (Z.of_nat (String.length payload)) +:+ payload.

(** [uint8_t] promoted to [int], shifted, and or-ed into a [uint32_t]. *)
Definition shl_int (b k : Z) : Z := to_int32 (Z.shiftl b k).
Definition or_u32 (len v : Z) : Z := Z.lor len (to_uint32 v).

(** Bridge side: the length read from the first four bytes. *)
Definition read_length (result : string) : option Z :=
  b0 ← String.get 0 result;
  b1 ← String.get 1 result;
  b2 ← String.get 2 result;
  b3 ← String.get 3 result;
  let len := 0 in
  let len := or_u32 len (Z_of_byte b0) in
  let len := or_u32 len (shl_int (Z_of_byte b1) 8) in
  let len := or_u32 len (shl_int (Z_of_byte b2) 16) in
  let len := or_u32 len (shl_int (Z_of_byte b3) 24) in
  Some len.

(** [string(result + 4, len)]: exactly [len] bytes are read; reading
    past the end of the buffer is undefined, which is [None] here. *)
Definition read_payload (result : string) (len : Z) : option string :=
  if Z.of_nat (String.length result) <? 4 + len then None
  else Some (Str.substr result 4 (Z.to_nat len)).

Definition decode_wire (result : string) : option string :=
  len ← read_length result; read_payload result len.

(** A buffer the decoder can read without leaving it. *)
Definition wire_ok (result : string) : bool :=
  bool_decide (is_Some (decode_wire result)).

(** The two buffers of the Get example: the length 5 written least
    significant byte first, as the host writes it, and most significant
    byte first. *)
Definition hello_little_endian : string :=
  String "005" (String "000" (String "000" (String "000" "hello"))).
Definition hello_big_endian : string :=
  String "000" (String "000" (String "000" (String "005" "hello"))).

(** The four bytes of a buffer, as numbers. *)
Definition prefix_bytes (result : string) : list Z :=
  map Z_of_byte (take 4 (list_ascii_of_string result)).

(** The value the bridge reads back from the four bytes of the host. *)
Definition prefix_value (len : Z) : Z :=
  or_u32 (or_u32 (or_u32 (or_u32 0
    (Z_of_byte (byte_of_Z (js_and len 255))))
    (shl_int (Z_of_byte (byte_of_Z (js_and (js_shr len 8) 255))) 8))
    (shl_int (Z_of_byte (byte_of_Z (js_and (js_shr len 16) 255))) 16))
    (shl_int (Z_of_byte (byte_of_Z (js_and (js_shr len 24) 255))) 24).

End Wire.

(** ** Inbound header blocks *)

Module HeaderCodec.

(** Modelled from the spec: [HTTPHeaders] is declared by the engine,
    not under src/.  The spec's Header Set is an ordered collection of
    (name, value) string pairs; [Insert] adds a pair at the end. *)
Definition HTTPHeaders : Type := list (string * string).
Definition Insert (name value : string) (h : HTTPHeaders) : HTTPHeaders :=
  h ++ [(name, value)].

Definition CRLF : string := String "013" (String "010" EmptyString).

Fixpoint split_go (sep : string) (skip : nat) (s : string) : list string :=
  match s with
  | EmptyString => [EmptyString]
  | String c s' =>
      match skip with
      | S k => split_go sep k s'
      | O =>
          if String.prefix sep s
          then EmptyString :: split_go sep (String.length sep - 1) s'
          else match split_go sep 0 s' with
               | p :: ps => String c p :: ps
               | [] => [String c EmptyString]
               end
      end
  end.

(** Modelled from the spec: [StringUtil::Split] is the engine's string
    utility, not under src/.  The spec says the block is split on the
    separator; the pieces are the runs between its occurrences, the
    empty ones included (an empty piece has no colon, so the parser
    below skips it either way). *)
Definition Split (input sep : string) : list string := split_go sep 0 input.

(** [while (!value.empty() && value[0] == ' ') value = value.substr(1)] *)
Fixpoint trim_leading_spaces (value : string) : string :=
  match value with
  | String c rest => if Ascii.eqb c " " then trim_leading_spaces rest else value
  | EmptyString => value
  end.

(** The body of the loop over the lines in [DoHeadRequest]. *)
Definition parse_line (line : string) (headers : HTTPHeaders) : HTTPHeaders :=
  match Str.find ":" line with
  | Some colon_pos =>
      let name := Str.substr line 0 colon_pos in
      let value := Str.substr_from line (colon_pos + 1) in
      let value := trim_leading_spaces value in
      Insert name value headers
  | None => headers
  end.

Definition parse_header_block (headers_str : string) : HTTPHeaders :=
  foldl (fun headers line => parse_line line headers) [] (Split headers_str CRLF).

(** A header set as the text of a response header block. *)
Definition render_line (h : string * string) : string :=
  h.1 +:+ ": " +:+ h.2 +:+ CRLF.
Definition encode_as_text (H : HTTPHeaders) : string :=
  foldr (fun h rest => render_line h +:+ rest) EmptyString H.

Definition is_CR_or_LF (c : ascii) : bool :=
  Ascii.eqb c "013" || Ascii.eqb c "010".

Fixpoint string_forall (P : ascii -> bool) (s : string) : bool :=
  match s with
  | EmptyString => true
  | String c s' => P c && string_forall P s'
  end.

(** A well-formed line: no colon in the name, no line break anywhere. *)
Definition well_formed (h : string * string) : bool :=
  string_forall (fun c => negb (Ascii.eqb c ":") && negb (is_CR_or_LF c)) h.1
  && string_forall (fun c => negb (is_CR_or_LF c)) h.2.

Definition no_colon (s : string) : bool :=
  string_forall (fun c => negb (Ascii.eqb c ":")) s.
Definition no_CR (s : string) : bool :=
  string_forall (fun c => negb (Ascii.eqb c "013")) s.

End HeaderCodec.

(** ** The WASM heap and the boundary trace *)

Module Mem.

(** A pointer is null or the address of a block handed out by
    [malloc].  Addresses are slot numbers: the heap is the table of all
    allocations made so far, and a freed slot stays empty. *)
Inductive ptr : Type := nullptr | Ptr (b : nat).

(** A block holds bytes ([HEAPU8]) or pointers ([HEAP32]). *)
Inductive block : Type := Bytes (s : string) | Ptrs (ps : list ptr).

(** The host primitives of the boundary call surface. *)
Inductive primitive : Type := SyncHead | SyncRequest | AsyncHead | AsyncRequest.

(** What can be observed at the boundary of the bridge. *)
Inductive event : Type :=
| EvMalloc (b : nat)                     (* malloc returned block b *)
| EvFree (b : nat)                       (* free(b) *)
| EvProbe (answer : Z)                   (* em_has_xhr() returned *)
| EvSetHeader (name value : string)      (* header installed on the host request *)
| EvHost (p : primitive) (reply : option string)
                                         (* primitive p returned null or this buffer *)
| EvContent (data : string).             (* content_handler(data, len) *)

Record World : Type := mkWorld {
  heap : list (option block);
  trace : list event
}.

(** Bridge code: a state transformer that may hit undefined behaviour
    ([None]); the world reached so far is kept. *)
Definition M (A : Type) : Type := World -> option A * World.

Definition ret {A} (a : A) : M A := fun w => (Some a, w).
Definition bind {A B} (m : M A) (f : A -> M B) : M B :=
  fun w => match m w with
           | (Some a, w') => f a w'
           | (None, w') => (None, w')
           end.
Definition undefined {A} : M A := fun w => (None, w).
Definition get_world : M World := fun w => (Some w, w).
Definition emit (e : event) : M unit :=
  fun w => (Some tt, mkWorld (heap w) (trace w ++ [e])).

#[global] Instance M_ret : MRet M := @ret.
#[global] Instance M_bind : MBind M := fun A B f m => bind m f.

(** [malloc] hands out the next slot; it is taken never to fail.  The
    block is given the content that the code writes into it right after
    the allocation. *)
Definition malloc (content : block) : M ptr :=
  fun w => let b := length (heap w) in
           (Some (Ptr b), mkWorld (heap w ++ [Some content]) (trace w ++ [EvMalloc b])).

Definition lookup_block (w : World) (b : nat) : option block :=
  mjoin (heap w !! b).

(** [free(p)]: nothing for null; undefined on a block that is not live. *)
Definition free (p : ptr) : M unit :=
  match p with
  | nullptr => ret tt
  | Ptr b => fun w =>
      match lookup_block w b with
      | Some _ => (Some tt, mkWorld (<[b := None]> (heap w)) (trace w ++ [EvFree b]))
      | None => (None, w)
      end
  end.

(** [z[i]] read and written through a [char **]. *)
Definition load_ptr (z : ptr) (i : nat) : M ptr :=
  match z with
  | nullptr => undefined
  | Ptr b => fun w =>
      match lookup_block w b with
      | Some (Ptrs ps) =>
          match ps !! i with Some q => (Some q, w) | None => (None, w) end
      | _ => (None, w)
      end
  end.

Definition store_ptr (z : ptr) (i : nat) (q : ptr) : M unit :=
  match z with
  | nullptr => undefined
  | Ptr b => fun w =>
      match lookup_block w b with
      | Some (Ptrs ps) =>
          if decide (i < length ps)
          then (Some tt, mkWorld (<[b := Some (Ptrs (<[i := q]> ps))]> (heap w)) (trace w))
          else (None, w)
      | _ => (None, w)
      end
  end.

(** The bytes of the block at [p]. *)
Definition load_bytes (p : ptr) : M string :=
  match p with
  | nullptr => undefined
  | Ptr b => fun w =>
      match lookup_block w b with
      | Some (Bytes s) => (Some s, w)
      | _ => (None, w)
      end
  end.

(** The JavaScript side reads the heap without faulting. *)
Definition HEAP32 (w : World) (arr : ptr) (i : nat) : ptr :=
  match arr with
  | Ptr b => match lookup_block w b with
             | Some (Ptrs ps) => default nullptr (ps !! i)
             | _ => nullptr
             end
  | nullptr => nullptr
  end.

Definition HEAPU8 (w : World) (p : ptr) : string :=
  match p with
  | Ptr b => match lookup_block w b with
             | Some (Bytes s) => s
             | _ => EmptyString
             end
  | nullptr => EmptyString
  end.

(** [UTF8ToString(p)]: the string at [p], up to the first NUL.  The
    bytes stand for the JavaScript string they decode to, which for
    ASCII bytes has the same characters (see [Str.c_str]). *)
Definition UTF8ToString (w : World) (p : ptr) : string := Str.c_str (HEAPU8 w p).

(** The events a run added to the trace. *)
Definition new_events (w w' : World) : list event :=
  drop (length (trace w)) (trace w').

Definition mallocs (evs : list event) : list nat :=
  omap (fun e => match e with EvMalloc b => Some b | _ => None end) evs.
Definition frees (evs : list event) : list nat :=
  omap (fun e => match e with EvFree b => Some b | _ => None end) evs.
Definition probes (evs : list event) : list Z :=
  omap (fun e => match e with EvProbe a => Some a | _ => None end) evs.
Definition host_calls (evs : list event) : list (primitive * option string) :=
  omap (fun e => match e with EvHost p r => Some (p, r) | _ => None end) evs.
Definition installed_headers (evs : list event) : list (string * string) :=
  omap (fun e => match e with EvSetHeader n v => Some (n, v) | _ => None end) evs.
Definition contents (evs : list event) : list string :=
  omap (fun e => match e with EvContent d => Some d | _ => None end) evs.

End Mem.

(** ** The bridge: host primitives and [HTTPWasmClient] *)

Module Bridge.
Import Mem HeaderCodec.
Local Open Scope Z_scope.

(** What the host is asked to send. *)
Record HostRequest : Type := mkHostRequest {
  hr_method : string;
  hr_url : string;
  hr_headers : list (string * string);
  hr_body : option string
}.

(** How [xhr.send] ends: it throws, or the request completes with a
    status, a response body and the text of the response headers. *)
Inductive XhrOutcome : Type :=
| XhrThrows
| XhrDone (status : Z) (response : string) (allResponseHeaders : string).

(** The host environment.  Every answer may depend on what happened
    before (the trace). *)
Record Env : Type := mkEnv {
  has_xhr : list event -> Z;                  (* em_has_xhr() *)
  xhr_defined : list event -> bool;           (* typeof XMLHttpRequest !== "undefined" *)
  header_accepted : string -> string -> bool; (* setRequestHeader does not throw *)
  xhr_send : list event -> HostRequest -> XhrOutcome;
  fetch : list event -> HostRequest -> option string
                                              (* asynchronous primitives: null or the buffer *)
}.

(** Modelled from the spec: [HTTPStatusCode] and [HTTPResponse] are
    declared by the engine, not under src/.  A response has a status
    code, a reason string, body bytes and a header collection; a few of
    the engine's status codes stand for the rest. *)
Inductive HTTPStatusCode : Type :=
| INVALID | OK_200 | NoContent_204 | NotModified_304 | BadRequest_400
| Forbidden_403 | NotFound_404 | InternalServerError_500.

Record HTTPResponse : Type := mkResponse {
  status : HTTPStatusCode;
  reason : string;
  body : string;
  headers : HTTPHeaders
}.

(** [make_uniq<HTTPResponse>(code)] *)
Definition make_response (code : HTTPStatusCode) : HTTPResponse :=
  mkResponse code EmptyString EmptyString [].

(** Assignments to the fields of [*res]. *)
Definition set_reason (res : HTTPResponse) (r : string) : HTTPResponse :=
  mkResponse (status res) r (body res) (headers res).
Definition set_body (res : HTTPResponse) (b : string) : HTTPResponse :=
  mkResponse (status res) (reason res) b (headers res).
Definition update_headers (res : HTTPResponse) (f : HTTPHeaders -> HTTPHeaders)
    : HTTPResponse :=
  mkResponse (status res) (reason res) (body res) (f (headers res)).

(** Modelled from the spec: the request descriptors ([GetRequestInfo],
    [PostRequestInfo], ...) are declared by the engine, not under src/.
    One record carries the fields the verbs read: the url, the header
    set, the optional body (a pointer and a length, here the bytes or
    [None] for a null pointer), the caller's output buffer and whether
    a content handler was supplied. *)
Record RequestInfo : Type := mkInfo {
  url : string;
  info_headers : HTTPHeaders;
  buffer_in : option string;
  buffer_out : string;
  content_handler : bool
}.

Definition buffer_in_len (info : RequestInfo) : Z :=
  match buffer_in info with
  | Some b => Z.of_nat (String.length b)
  | None => 0
  end.

Record HTTPWasmClient : Type := mkClient {
  host_port : string;
  use_sync_xhr : bool
}.

Definition NUL_string : string := String Str.NUL EmptyString.

Section WithEnv.
Context (env : Env).

(** *** Host side *)

Definition rename_reserved (headerName : string) : string :=
  let headerName :=
    if String.eqb headerName "Host" then "X-Host-Override" else headerName in
  let headerName :=
    if String.eqb headerName "User-Agent" then "X-User-Agent" else headerName in
  headerName.

(** The loop that installs the marshalled headers on the request
    object; [i] runs over the even indices below [headerCount * 2].
    A header whose installation throws is skipped. *)
Fixpoint install_headers (headerArray : ptr) (i : nat) (remaining : nat)
    (installed : list (string * string)) : M (list (string * string)) :=
  match remaining with
  | O => mret installed
  | S remaining' =>
      w ← get_world;
      let ptr1 := HEAP32 w headerArray i in
      let ptr2 := HEAP32 w headerArray (i + 1) in
      let headerName := UTF8ToString w ptr1 in
      let headerValue := UTF8ToString w ptr2 in
      let headerName := rename_reserved headerName in
      installed ←
        (if header_accepted env headerName headerValue
         then emit (EvSetHeader headerName headerValue);;
              mret (installed ++ [(headerName, headerValue)])
         else mret installed);
      install_headers headerArray (i + 2) remaining' installed
  end.

(** Returning from a primitive: null, or a fresh buffer that now
    belongs to the bridge. *)
Definition host_return (p : primitive) (reply : option string) : M ptr :=
  match reply with
  | None => emit (EvHost p None);; mret nullptr
  | Some buffer =>
      resultPtr ← malloc (Bytes buffer);
      emit (EvHost p (Some buffer));;
      mret resultPtr
  end.

(** The body the host sends: [bodyLen] bytes from [bodyPtr]. *)
Definition body_data (w : World) (bodyPtr : ptr) (bodyLen : Z) : option string :=
  match bodyPtr with
  | Ptr _ =>
      if 0 <? bodyLen
      then Some (Str.substr (HEAPU8 w bodyPtr) 0 (Z.to_nat bodyLen))
      else None
  | nullptr => None
  end.

Definition request_failed (status : Z) : bool :=
  (status =? 0) || (400 <=? status).

(** The synchronous primitives, for the calls that return.  What can
    throw inside a [try] block of the source ([setRequestHeader],
    [send]) is decided by the environment.  [new XMLHttpRequest()],
    [xhr.open] and the assignment of [responseType] stand outside every
    [try]: an exception there leaves the primitive without a reply, and
    such a call is outside this model.  The statements about a dispatch
    are therefore made for the reply that the primitive returned, the
    event [EvHost]. *)
Definition em_sync_head_request (url : string) (header_count : nat)
    (header_array : ptr) : M ptr :=
  let url := Str.c_str url in
  w ← get_world;
  if negb (xhr_defined env (trace w)) then host_return SyncHead None
  else
    installed ← install_headers header_array 0 header_count [];
    w ← get_world;
    match xhr_send env (trace w) (mkHostRequest "HEAD" url installed None) with
    | XhrThrows => host_return SyncHead None
    | XhrDone status _ responseHeaders =>
        if request_failed status then host_return SyncHead None
        else host_return SyncHead (Some (Wire.encode_wire responseHeaders))
    end.

Definition em_sync_request (url method : string) (header_count : nat)
    (header_array : ptr) (body : ptr) (body_len : Z) : M ptr :=
  let url := Str.c_str url in
  let method := Str.c_str method in
  w ← get_world;
  if negb (xhr_defined env (trace w)) then host_return SyncRequest None
  else
    installed ← install_headers header_array 0 header_count [];
    w ← get_world;
    match xhr_send env (trace w)
            (mkHostRequest method url installed (body_data w body body_len)) with
    | XhrThrows => host_return SyncRequest None
    | XhrDone status responseBody _ =>
        if request_failed status then host_return SyncRequest None
        else host_return SyncRequest (Some (Wire.encode_wire responseBody))
    end.

(** Modelled from the spec: [em_async_head_request] is defined in
    http_async.js, not under src/.  The spec gives it the signature
    of the synchronous primitive, the same host-call-time renaming of
    the reserved header names, and a result that is null or a wire
    buffer owned by the bridge. *)
Definition em_async_head_request (url : string) (header_count : nat)
    (header_array : ptr) : M ptr :=
  let url := Str.c_str url in
  installed ← install_headers header_array 0 header_count [];
  w ← get_world;
  host_return AsyncHead
    (fetch env (trace w) (mkHostRequest "HEAD" url installed None)).

(** Modelled from the spec: [em_async_request] is defined in
    http_async.js, not under src/; see [em_async_head_request]. *)
Definition em_async_request (url method : string) (header_count : nat)
    (header_array : ptr) (body : ptr) (body_len : Z) : M ptr :=
  let url := Str.c_str url in
  let method := Str.c_str method in
  installed ← install_headers header_array 0 header_count [];
  w ← get_world;
  host_return AsyncRequest
    (fetch env (trace w)
       (mkHostRequest method url installed (body_data w body body_len))).

(** *** Bridge side *)

(** The constructor: one probe, cached in [use_sync_xhr] (the two
    [printf] calls are left out). *)
Definition construct (proto_host_port : string) : M HTTPWasmClient :=
  w ← get_world;
  let answer := has_xhr env (trace w) in
  emit (EvProbe answer);;
  mret (mkClient proto_host_port (answer =? 1)).

(** The second loop of [PrepareHeaders]: each name and each value is
    copied into a buffer of its size plus one, zeroed first, so that a
    NUL follows it. *)
Fixpoint fill_headers (z : ptr) (i : nat) (headers : HTTPHeaders) : M unit :=
  match headers with
  | [] => mret tt
  | h :: rest =>
      p ← malloc (Bytes (h.1 +:+ NUL_string));
      store_ptr z i p;;
      let i := S i in
      q ← malloc (Bytes (h.2 +:+ NUL_string));
      store_ptr z i q;;
      let i := S i in
      fill_headers z i rest
  end.

(** [count] is counted by the first loop; [z] has room for
    [count * 2] pointers. *)
Definition PrepareHeaders (headers : HTTPHeaders) : M (ptr * nat) :=
  let count := foldl (fun count _ => S count) O headers in
  z ← malloc (Ptrs (replicate (count * 2) nullptr));
  fill_headers z 0 headers;;
  mret (z, count).

(** [for (int i = 0; i < count * 2; i++) free(z[i])] *)
Fixpoint free_from (z : ptr) (i : nat) (remaining : nat) : M unit :=
  match remaining with
  | O => mret tt
  | S remaining' => p ← load_ptr z i; free p;; free_from z (S i) remaining'
  end.

Definition FreeHeaders (z : ptr) (count : nat) : M unit :=
  free_from z 0 (count * 2);; free z.

(** The length prefix and the payload of the buffer at [result]. *)
Definition read_result (result : ptr) : M string :=
  buffer ← load_bytes result;
  match Wire.decode_wire buffer with
  | Some payload => mret payload
  | None => undefined
  end.

(** [body_data] is the body pointer ([None] when null) and [body_len]
    its length; the body is copied when [body_data && body_len > 0].
    [content_handler] tells whether the [std::function] is non-empty;
    calling it is an event of the trace, and the call is taken to
    return. *)
Definition DoRequest (this : HTTPWasmClient) (method : string) (url : string)
    (headers : HTTPHeaders) (body_data : option string) (body_len : Z)
    (content_handler : bool) : M HTTPResponse :=
  let path := NormalizeUrl (host_port this) url in
  '(header_array, header_count) ← PrepareHeaders headers;
  payload ←
    match body_data with
    | Some bytes =>
        if 0 <? body_len
        then malloc (Bytes (Str.substr bytes 0 (Z.to_nat body_len)))
        else mret nullptr
    | None => mret nullptr
    end;
  result ←
    (if use_sync_xhr this
     then em_sync_request path method header_count header_array payload
            (Wire.to_int32 body_len)
     else em_async_request path method header_count header_array payload
            (Wire.to_int32 body_len));
  FreeHeaders header_array header_count;;
  (match payload with nullptr => mret tt | Ptr _ => free payload end);;
  match result with
  | nullptr =>
      let res := make_response NotFound_404 in
      let res := set_reason res "Request failed - check console for errors" in
      mret res
  | Ptr _ =>
      let res := make_response OK_200 in
      payload ← read_result result;
      let res := set_body res payload in
      (if content_handler then emit (EvContent payload) else mret tt);;
      free result;;
      mret res
  end.

Definition DoHeadRequest (this : HTTPWasmClient) (url : string)
    (headers : HTTPHeaders) : M HTTPResponse :=
  let path := NormalizeUrl (host_port this) url in
  '(header_array, header_count) ← PrepareHeaders headers;
  result ←
    (if use_sync_xhr this
     then em_sync_head_request path header_count header_array
     else em_async_head_request path header_count header_array);
  FreeHeaders header_array header_count;;
  match result with
  | nullptr =>
      let res := make_response NotFound_404 in
      let res := set_reason res "HEAD request failed" in
      mret res
  | Ptr _ =>
      let res := make_response OK_200 in
      headers_str ← read_result result;
      let header_lines := Split headers_str CRLF in
      let res :=
        foldl (fun res line => update_headers res (parse_line line))
          res header_lines in
      free result;;
      mret res
  end.

Definition is_OK (s : HTTPStatusCode) : bool :=
  match s with OK_200 => true | _ => false end.

Definition Get (this : HTTPWasmClient) (info : RequestInfo)
    : M (HTTPResponse * RequestInfo) :=
  result ← DoRequest this "GET" (url info) (info_headers info) None 0
             (content_handler info);
  mret (result, info).

Definition Head (this : HTTPWasmClient) (info : RequestInfo)
    : M (HTTPResponse * RequestInfo) :=
  result ← DoHeadRequest this (url info) (info_headers info);
  mret (result, info).

Definition Post (this : HTTPWasmClient) (info : RequestInfo)
    : M (HTTPResponse * RequestInfo) :=
  result ← DoRequest this "POST" (url info) (info_headers info)
             (buffer_in info) (buffer_in_len info) false;
  let info :=
    if is_OK (status result)
    then mkInfo (url info) (info_headers info) (buffer_in info)
           (buffer_out info +:+ body result) (content_handler info)
    else info in
  mret (result, info).

Definition Put (this : HTTPWasmClient) (info : RequestInfo)
    : M (HTTPResponse * RequestInfo) :=
  result ← DoRequest this "PUT" (url info) (info_headers info)
             (buffer_in info) (buffer_in_len info) false;
  mret (result, info).

Definition Delete (this : HTTPWasmClient) (info : RequestInfo)
    : M (HTTPResponse * RequestInfo) :=
  result ← DoRequest this "DELETE" (url info) (info_headers info) None 0 false;
  mret (result, info).

(** The five verbs of the engine's client interface. *)
Inductive Verb : Type := GET | HEAD | POST | PUT | DELETE.

Definition dispatch (this : HTTPWasmClient) (v : Verb) (info : RequestInfo)
    : M (HTTPResponse * RequestInfo) :=
  match v with
  | GET => Get this info
  | HEAD => Head this info
  | POST => Post this info
  | PUT => Put this info
  | DELETE => Delete this info
  end.

(** A client's life after construction: a sequence of dispatches. *)
Fixpoint session (this : HTTPWasmClient) (calls : list (Verb * RequestInfo))
    : M (list HTTPResponse) :=
  match calls with
  | [] => mret []
  | (v, info) :: rest =>
      r ← dispatch this v info;
      rs ← session this rest;
      mret (r.1 :: rs)
  end.

Definition lifetime (proto_host_port : string) (calls : list (Verb * RequestInfo))
    : M (HTTPWasmClient * list HTTPResponse) :=
  this ← construct proto_host_port;
  rs ← session this calls;
  mret (this, rs).


(** The primitive a dispatch of [v] goes to under either mode. *)
Definition primitive_for (sync : bool) (v : Verb) : primitive :=
  match v, sync with
  | HEAD, true => SyncHead
  | HEAD, false => AsyncHead
  | _, true => SyncRequest
  | _, false => AsyncRequest
  end.

End WithEnv.

Definition empty_world : World := mkWorld [] [].

(** Hosts for examples.  A worker without XMLHttpRequest whose fetch
    fails; one whose asynchronous primitive returns a given buffer; a
    browser whose requests complete with status 200. *)
Definition offline_worker : Env :=
  mkEnv (fun _ => 0) (fun _ => false) (fun _ _ => true)
    (fun _ _ => XhrThrows) (fun _ _ => None).
Definition worker_returning (buffer : string) : Env :=
  mkEnv (fun _ => 0) (fun _ => false) (fun _ _ => true)
    (fun _ _ => XhrThrows) (fun _ _ => Some buffer).
Definition browser_serving (response headers_text : string) : Env :=
  mkEnv (fun _ => 1) (fun _ => true) (fun _ _ => true)
    (fun _ _ => XhrDone 200 response headers_text) (fun _ _ => None).

(** A host whose probe answers 1 only the first time it is asked. *)
Definition fickle_browser : Env :=
  mkEnv (fun t => if decide (t = []) then 1 else 0)%Z (fun _ => true)
    (fun _ _ => true) (fun _ _ => XhrDone 200 "hello" "ETag: x")
    (fun _ _ => None).

Definition example_info : RequestInfo :=
  mkInfo "/data.parquet" [("Host", "example.com"); ("User-Agent", "x")]
    (Some "payload") "out" true.

End Bridge.

(** ** One dispatch in closed form

    What a dispatch leaves on the heap and in the trace, written as
    functions of the request and of the reply of the host; the facts
    below show that the bridge code computes them. *)

Module Shape.
Import Mem Bridge HeaderCodec.

(** The slots of the marshalled names and values, in order. *)
Definition cstrings (headers : HTTPHeaders) : list (option block) :=
  flat_map (fun h => [Some (Bytes (h.1 +:+ NUL_string));
                      Some (Bytes (h.2 +:+ NUL_string))]) headers.

Definition marshalled (headers : HTTPHeaders) : list (string * string) :=
  map (fun h => (rename_reserved (Str.c_str h.1), Str.c_str h.2)) headers.

(** What the header loop of a primitive reads from the heap. *)
Fixpoint read_headers (w : World) (arr : ptr) (i n : nat)
    : list (string * string) :=
  match n with
  | O => []
  | S n' =>
      (rename_reserved (UTF8ToString w (HEAP32 w arr i)),
       UTF8ToString w (HEAP32 w arr (i + 1)))
        :: read_headers w arr (i + 2) n'
  end.

Definition header_events (l : list (string * string)) : list event :=
  map (fun nv => EvSetHeader nv.1 nv.2) l.

Definition reply_cells (reply : option string) : list (option block) :=
  match reply with Some buffer => [Some (Bytes buffer)] | None => [] end.

Definition reply_ptr (b : nat) (reply : option string) : ptr :=
  match reply with Some _ => Ptr b | None => nullptr end.

Definition reply_events (b : nat) (p : primitive) (reply : option string)
    : list event :=
  match reply with Some _ => [EvMalloc b] | None => [] end ++ [EvHost p reply].

(** The world a primitive leaves: the headers it installed, then its
    reply. *)
Definition after_host (w : World) (installed : list (string * string))
    (p : primitive) (reply : option string) : World :=
  mkWorld (heap w ++ reply_cells reply)
    ((trace w ++ header_events installed)
       ++ reply_events (length (heap w)) p reply).

Definition payload_cells (body_data : option string) (body_len : Z)
    : list (option block) :=
  match body_data with
  | Some bytes =>
      if (0 <? body_len)%Z
      then [Some (Bytes (Str.substr bytes 0 (Z.to_nat body_len)))]
      else []
  | None => []
  end.

Definition payload_ptr (b : nat) (pc : list (option block)) : ptr :=
  match pc with [] => nullptr | _ => Ptr b end.

(** What the bridge does with the reply once the arguments are freed. *)
Definition decode_events (handler : bool) (r : nat) (reply : option string)
    : list event :=
  match reply with
  | None => []
  | Some buffer =>
      match Wire.decode_wire buffer with
      | None => []
      | Some payload =>
          (if handler then [EvContent payload] else []) ++ [EvFree r]
      end
  end.

Definition decode_cells (reply : option string) : list (option block) :=
  match reply with
  | None => []
  | Some buffer =>
      match Wire.decode_wire buffer with
      | None => [Some (Bytes buffer)]
      | Some _ => [None]
      end
  end.

(** The events of a dispatch that starts with [n] slots on the heap,
    marshals [count] headers and copies the body into [pc]. *)
Definition dispatch_events (n count : nat) (pc : list (option block))
    (installed : list (string * string)) (p : primitive)
    (reply : option string) (handler : bool) : list event :=
  (EvMalloc n :: map EvMalloc (seq (n + 1) (2 * count)))
    ++ map EvMalloc (seq (n + 1 + 2 * count) (length pc))
    ++ header_events installed
    ++ reply_events (n + 1 + 2 * count + length pc) p reply
    ++ (map EvFree (seq (n + 1) (2 * count)) ++ [EvFree n])
    ++ map EvFree (seq (n + 1 + 2 * count) (length pc))
    ++ decode_events handler (n + 1 + 2 * count + length pc) reply.

Definition dispatch_heap (h0 : list (option block)) (count : nat)
    (pc : list (option block)) (reply : option string) : list (option block) :=
  h0 ++ None :: replicate (2 * count) None
     ++ replicate (length pc) None ++ decode_cells reply.

Definition request_response (reply : option string) : option HTTPResponse :=
  match reply with
  | None =>
      Some (set_reason (make_response NotFound_404)
              "Request failed - check console for errors")
  | Some buffer =>
      match Wire.decode_wire buffer with
      | None => None
      | Some payload => Some (set_body (make_response OK_200) payload)
      end
  end.

Definition head_response (reply : option string) : option HTTPResponse :=
  match reply with
  | None => Some (set_reason (make_response NotFound_404) "HEAD request failed")
  | Some buffer =>
      match Wire.decode_wire buffer with
      | None => None
      | Some headers_str =>
          Some (foldl (fun res line => update_headers res (parse_line line))
                  (make_response OK_200) (Split headers_str CRLF))
      end
  end.

(** The parts of a dispatch that depend on the verb. *)
Definition verb_cells (v : Verb) (info : RequestInfo) : list (option block) :=
  match v with
  | POST | PUT => payload_cells (buffer_in info) (buffer_in_len info)
  | _ => []
  end.

Definition verb_handler (v : Verb) (info : RequestInfo) : bool :=
  match v with GET => content_handler info | _ => false end.

Definition verb_response (v : Verb) (reply : option string) : option HTTPResponse :=
  match v with HEAD => head_response reply | _ => request_response reply end.

Definition verb_info (v : Verb) (info : RequestInfo) (r : HTTPResponse)
    : RequestInfo :=
  match v with
  | POST =>
      if is_OK (status r)
      then mkInfo (url info) (info_headers info) (buffer_in info)
             (buffer_out info +:+ body r) (content_handler info)
      else info
  | _ => info
  end.

Definition events_before (n count : nat) (pc : list (option block))
    (installed : list (string * string)) (reply : option string) : list event :=
  (EvMalloc n :: map EvMalloc (seq (n + 1) (2 * count)))
    ++ map EvMalloc (seq (n + 1 + 2 * count) (length pc))
    ++ header_events installed
    ++ match reply with
       | Some _ => [EvMalloc (n + 1 + 2 * count + length pc)]
       | None => []
       end.

Definition events_after (n count : nat) (pc : list (option block))
    (reply : option string) (handler : bool) : list event :=
  (map EvFree (seq (n + 1) (2 * count)) ++ [EvFree n])
    ++ map EvFree (seq (n + 1 + 2 * count) (length pc))
    ++ decode_events handler (n + 1 + 2 * count + length pc) reply.

Definition reply_slot (b : nat) (reply : option string) : list nat :=
  match reply with Some _ => [b] | None => [] end.

Section WithEnv.
Context (env : Env).

Definition accepted (l : list (string * string)) : list (string * string) :=
  List.filter (fun nv => header_accepted env nv.1 nv.2) l.

(** Each primitive installs the marshalled headers it accepts, or
    gives up before creating a request, and returns a reply. *)
Definition host_shape (run : option ptr * World) (w : World)
    (arr : ptr) (count : nat) (p : primitive) : Prop :=
  exists installed reply,
    run = (Some (reply_ptr (length (heap w)) reply), after_host w installed p reply)
    /\ (installed = accepted (read_headers w arr 0 count)
        \/ installed = [] /\ reply = None /\ (p = SyncHead \/ p = SyncRequest))
    /\ (p = SyncHead \/ p = SyncRequest ->
        reply = None \/ exists payload, reply = Some (Wire.encode_wire payload)).

Definition installs_ok (sync : bool) (headers : HTTPHeaders)
    (installed : list (string * string)) (reply : option string) : Prop :=
  (installed = accepted (marshalled headers)
   \/ installed = [] /\ reply = None /\ sync = true)
  /\ (sync = true ->
      reply = None \/ exists payload, reply = Some (Wire.encode_wire payload)).

End WithEnv.

End Shape.

(** ** The Arrow IPC ingestion helper *)

Module Arrow.
Local Open Scope Z_scope.

Inductive duckdb_state : Type := DuckDBSuccess | DuckDBError.

(** The calls the helper makes into nanoarrow and DuckDB. *)
Inductive call : Type :=
| ArrowBufferInit
| ArrowIpcInputStreamInitBuffer (data : string)
| ArrowBufferReset
| ArrowIpcArrayStreamReaderInit
| input_release
| duckdb_arrow_scan (view_name : string)
| stream_release
| duckdb_query (sql : string)
| duckdb_destroy_result.

Section WithLibraries.
(** The state of the database and of the Arrow library, and how the
    library calls act on it.  A return code is [0] for
    [NANOARROW_OK]. *)
Context {Db : Type}.

Record Libraries : Type := mkLibraries {
  input_stream_init : string -> Db -> Z * Db;
  buffer_reset : Db -> Db;
  reader_init : Db -> Z * Db;
  input_has_release : Db -> bool;
  release_input : Db -> Db;
  arrow_scan : string -> Db -> duckdb_state * Db;
  stream_has_release : Db -> bool;
  release_stream : Db -> Db;
  query : string -> Db -> duckdb_state * Db;
  destroy_result : Db -> Db
}.

Context (lib : Libraries).

(** The observable state: the database and the calls made so far. *)
Definition State : Type := Db * list call.

Definition is_success (s : duckdb_state) : bool :=
  match s with DuckDBSuccess => true | DuckDBError => false end.

Definition view_name : string := "__ducklings_arrow_tmp".

Definition quote : string := String "034" EmptyString.

(** [connection], [table_name] and [ipc_buffer] are pointers; [None]
    is the null pointer. *)
Definition duckdb_wasm_insert_arrow_ipc {Conn : Type}
    (connection : option Conn) (table_name : option string)
    (ipc_buffer : option string) (buffer_length : Z)
    (st : State) : duckdb_state * State :=
  match connection, table_name, ipc_buffer with
  | Some _, Some table_name, Some ipc_buffer =>
      if buffer_length =? 0 then (DuckDBError, st)
      else
        let '(db, log) := st in
        let log := log ++ [ArrowBufferInit] in
        let data := Str.substr ipc_buffer 0 (Z.to_nat buffer_length) in
        let '(rc, db) := input_stream_init lib data db in
        let log := log ++ [ArrowIpcInputStreamInitBuffer data] in
        if negb (rc =? 0)
        then (DuckDBError, (buffer_reset lib db, log ++ [ArrowBufferReset]))
        else
          let '(rc, db) := reader_init lib db in
          let log := log ++ [ArrowIpcArrayStreamReaderInit] in
          if negb (rc =? 0)
          then
            if input_has_release lib db
            then (DuckDBError, (release_input lib db, log ++ [input_release]))
            else (DuckDBError, (db, log))
          else
            let '(state, db) := arrow_scan lib view_name db in
            let log := log ++ [duckdb_arrow_scan view_name] in
            if negb (is_success state)
            then
              if stream_has_release lib db
              then (DuckDBError, (release_stream lib db, log ++ [stream_release]))
              else (DuckDBError, (db, log))
            else
              let create_sql :=
                "CREATE TABLE IF NOT EXISTS " +:+ quote +:+ table_name +:+ quote
                +:+ " AS SELECT * FROM " +:+ quote +:+ view_name +:+ quote in
              let '(state, db) := query lib create_sql db in
              let db := destroy_result lib db in
              let log := log ++ [duckdb_query create_sql; duckdb_destroy_result] in
              let drop_sql :=
                "DROP VIEW IF EXISTS " +:+ quote +:+ view_name +:+ quote in
              let '(_, db) := query lib drop_sql db in
              let db := destroy_result lib db in
              let log := log ++ [duckdb_query drop_sql; duckdb_destroy_result] in
              if stream_has_release lib db
              then (state, (release_stream lib db, log ++ [stream_release]))
              else (state, (db, log))
  | _, _, _ => (DuckDBError, st)
  end.

End WithLibraries.

Arguments Libraries : clear implicits.

(** A library in which every call succeeds, over a database that counts
    the statements it ran. *)
Definition counting_lib : Libraries nat :=
  mkLibraries (fun _ db => (0, db)) id (fun db => (0, db))
    (fun _ => true) id (fun _ db => (DuckDBSuccess, db))
    (fun _ => true) id (fun _ db => (DuckDBSuccess, S db)) id.

End Arrow.

(** ** Strings without NUL, runs of spaces *)

Module Text.

(** A string that holds no NUL byte: [c_str()] and [UTF8ToString] read
    it whole. *)
Definition no_NUL (s : string) : bool :=
  HeaderCodec.string_forall (fun c => negb (Ascii.eqb c Str.NUL)) s.

(** A string of ASCII bytes.  [UTF8ToString] decodes UTF-8; on ASCII
    bytes the JavaScript string has the same characters, byte for
    byte. *)
Definition is_ascii (s : string) : bool :=
  HeaderCodec.string_forall (fun c => (N_of_ascii c <? 128)%N) s.

(** Plain text: ASCII bytes, none of them NUL. *)
Definition plain (s : string) : bool := is_ascii s && no_NUL s.

Fixpoint spaces (n : nat) : string :=
  match n with
  | O => EmptyString
  | S n' => String " " (spaces n')
  end.

(** Whether a line holds a colon ([line.find(':') != npos]). *)
Definition has_colon (line : string) : bool :=
  bool_decide (is_Some (Str.find ":" line)).

End Text.

(** ** The synchronous path, as the browser sees it

    The request a dispatch hands to [xhr.send] in browser mode and the
    buffer the primitive makes of the outcome, in closed form; the
    facts below show that the code computes them. *)

Module Browser.
Import Mem Bridge HeaderCodec.
Local Open Scope Z_scope.

(** What a synchronous primitive returns for an outcome of [xhr.send]:
    null when it throws or when the status is 0 or at least 400, else
    the wire buffer of the response headers ([head]) or of the body. *)
Definition sync_reply (head : bool) (o : XhrOutcome) : option string :=
  match o with
  | XhrThrows => None
  | XhrDone status response responseHeaders =>
      if request_failed status then None
      else Some (Wire.encode_wire (if head then responseHeaders else response))
  end.

Definition is_head (v : Verb) : bool :=
  match v with HEAD => true | _ => false end.

(** The method each verb names. *)
Definition verb_method (v : Verb) : string :=
  match v with
  | GET => "GET"
  | HEAD => "HEAD"
  | POST => "POST"
  | PUT => "PUT"
  | DELETE => "DELETE"
  end.

(** The body that reaches [xhr.send]: the bridge copies [body_len]
    bytes when the pointer is non-null and the length positive, and the
    primitive sends [(int)body_len] bytes of the copy when that number
    is positive. *)
Definition sent_body (body_data : option string) (body_len : Z) : option string :=
  match body_data with
  | Some bytes =>
      if 0 <? body_len
      then
        if 0 <? Wire.to_int32 body_len
        then Some (Str.substr (Str.substr bytes 0 (Z.to_nat body_len)) 0
                     (Z.to_nat (Wire.to_int32 body_len)))
        else None
      else None
  | None => None
  end.

Definition verb_body (v : Verb) (info : RequestInfo) : option string :=
  match v with
  | POST | PUT => sent_body (buffer_in info) (buffer_in_len info)
  | _ => None
  end.

Definition browser_request (env : Env) (this : HTTPWasmClient) (v : Verb)
    (info : RequestInfo) : HostRequest :=
  mkHostRequest (verb_method v)
    (Str.c_str (NormalizeUrl (host_port this) (url info)))
    (Shape.accepted env (Shape.marshalled (info_headers info)))
    (verb_body v info).



(** The events of a dispatch up to the moment [xhr.send] is called:
    the header array and the strings, the copy of the body ([k] blocks),
    the headers installed. *)
Definition events_to_send (env : Env) (n : nat) (headers : HTTPHeaders)
    (k : nat) : list event :=
  (EvMalloc n :: map EvMalloc (seq (n + 1) (2 * length headers)))
    ++ map EvMalloc (seq (n + 1 + 2 * length headers) k)
    ++ Shape.header_events (Shape.accepted env (Shape.marshalled headers)).

(** The outcome of the [xhr.send] of a dispatch that starts in [w]. *)
Definition outcome (env : Env) (this : HTTPWasmClient) (v : Verb)
    (info : RequestInfo) (w : World) : XhrOutcome :=
  xhr_send env
    (trace w ++ events_to_send env (length (heap w)) (info_headers info)
                  (length (Shape.verb_cells v info)))
    (browser_request env this v info).


(** A browser whose XMLHttpRequest exists and whose answers do not
    depend on what happened before. *)
Definition steady_browser (accept : string -> string -> bool)
    (send : HostRequest -> XhrOutcome) : Env :=
  mkEnv (fun _ => 1) (fun _ => true) accept (fun _ => send) (fun _ _ => None).

(** An origin that echoes the request: the body is the method, a
    space, the url and the request body; the header text repeats the
    request headers. *)
Definition echo (r : HostRequest) : XhrOutcome :=
  XhrDone 200
    (hr_method r +:+ " " +:+ hr_url r +:+ " " +:+ default EmptyString (hr_body r))
    (encode_as_text (hr_headers r)).

(** An origin that answers every request with the same status. *)
Definition always (status : Z) (r : HostRequest) : XhrOutcome :=
  XhrDone status "page" "Server: origin".

End Browser.

(** ** The calls of the ingestion helper *)

Module ArrowLog.
Import Arrow.

(** The two statements the helper executes. *)
Definition create_table_sql (table_name : string) : string :=
  "CREATE TABLE IF NOT EXISTS " +:+ quote +:+ table_name +:+ quote
  +:+ " AS SELECT * FROM " +:+ quote +:+ view_name +:+ quote.
Definition drop_view_sql : string :=
  "DROP VIEW IF EXISTS " +:+ quote +:+ view_name +:+ quote.

(** The calls a run added to the log. *)
Definition new_calls {Db : Type} (st st' : @State Db) : list call :=
  drop (length st.2) st'.2.

Definition is_sql (c : call) : bool :=
  match c with duckdb_query _ | duckdb_destroy_result => true | _ => false end.
Definition is_cleanup (c : call) : bool :=
  match c with
  | ArrowBufferReset | input_release | stream_release => true
  | _ => false
  end.

(** The calls that execute a statement or destroy its result, and the
    calls that give a resource back. *)
Definition sql_calls (log : list call) : list call := List.filter is_sql log.
Definition cleanups (log : list call) : list call := List.filter is_cleanup log.

Definition call_eqb (a b : call) : bool :=
  match a, b with
  | ArrowBufferInit, ArrowBufferInit => true
  | ArrowIpcInputStreamInitBuffer d, ArrowIpcInputStreamInitBuffer e => String.eqb d e
  | ArrowBufferReset, ArrowBufferReset => true
  | ArrowIpcArrayStreamReaderInit, ArrowIpcArrayStreamReaderInit => true
  | input_release, input_release => true
  | duckdb_arrow_scan v, duckdb_arrow_scan u => String.eqb v u
  | stream_release, stream_release => true
  | duckdb_query s, duckdb_query t => String.eqb s t
  | duckdb_destroy_result, duckdb_destroy_result => true
  | _, _ => false
  end.

(** Whether [c] was called. *)
Definition called (c : call) (log : list call) : bool :=
  existsb (call_eqb c) log.

(** The shapes the calls of one run can take. *)
Inductive run_shape (table_name data : string) : duckdb_state -> list call -> Prop :=
| input_refused :
    run_shape table_name data DuckDBError
      [ArrowBufferInit; ArrowIpcInputStreamInitBuffer data; ArrowBufferReset]
| reader_refused released :
    released = [] \/ released = [input_release] ->
    run_shape table_name data DuckDBError
      ([ArrowBufferInit; ArrowIpcInputStreamInitBuffer data;
        ArrowIpcArrayStreamReaderInit] ++ released)
| scan_refused released :
    released = [] \/ released = [stream_release] ->
    run_shape table_name data DuckDBError
      ([ArrowBufferInit; ArrowIpcInputStreamInitBuffer data;
        ArrowIpcArrayStreamReaderInit; duckdb_arrow_scan view_name] ++ released)
| materialised state released :
    released = [] \/ released = [stream_release] ->
    run_shape table_name data state
      ([ArrowBufferInit; ArrowIpcInputStreamInitBuffer data;
        ArrowIpcArrayStreamReaderInit; duckdb_arrow_scan view_name;
        duckdb_query (create_table_sql table_name); duckdb_destroy_result;
        duckdb_query drop_view_sql; duckdb_destroy_result] ++ released).

(** A library whose decoder accepts every buffer and whose engine
    refuses every statement that starts with [DROP]. *)
Definition no_drop_lib : Libraries nat :=
  mkLibraries (fun _ db => (0%Z, db)) id (fun db => (0%Z, db))
    (fun _ => true) id (fun _ db => (DuckDBSuccess, db))
    (fun _ => true) id
    (fun sql db =>
       (if String.prefix "DROP" sql then DuckDBError else DuckDBSuccess, S db))
    id.

(** A library whose decoder accepts every buffer and whose scan
    fails. *)
Definition no_scan_lib : Libraries nat :=
  mkLibraries (fun _ db => (0%Z, db)) id (fun db => (0%Z, db))
    (fun _ => true) id (fun _ db => (DuckDBError, db))
    (fun _ => true) id (fun _ db => (DuckDBSuccess, S db)) id.

End ArrowLog.

(** ** Facts about strings *)

Module StrFacts.
Import Str.

Lemma app_cons a s t : String a s +:+ t = String a (s +:+ t).
Proof. reflexivity. Qed.

Lemma app_nil_l t : EmptyString +:+ t = t.
Proof. reflexivity. Qed.

Lemma app_assoc s t u : (s +:+ t) +:+ u = s +:+ (t +:+ u).
Proof. induction s as [|a s IH]; [done|]. rewrite !app_cons. by f_equal. Qed.

Lemma length_app s t :
  String.length (s +:+ t) = (String.length s + String.length t)%nat.
Proof. induction s as [|a s IH]; [done|]. rewrite app_cons. simpl. lia. Qed.

Lemma prefix_length p s :
  String.prefix p s = true -> (String.length p <= String.length s)%nat.
Proof.
  revert s. induction p as [|a p IH]; intros [|b s]; simpl; try lia; try done.
  destruct (ascii_dec a b); [|done]. intros H. apply IH in H. lia.
Qed.

Lemma rfind_0 s pat :
  bool_decide (rfind s pat 0 ≠ Some O) = negb (String.prefix pat s).
Proof.
  unfold rfind. destruct (String.length s <? String.length pat)%nat eqn:E.
  - apply Nat.ltb_lt in E.
    destruct (String.prefix pat s) eqn:P.
    + apply prefix_length in P. lia.
    + by apply bool_decide_eq_true.
  - simpl. destruct (String.prefix pat s).
    + apply bool_decide_eq_false. by intros [].
    + by apply bool_decide_eq_true.
Qed.

Lemma char_at_0_slash url :
  Ascii.eqb (char_at url 0) "/" = String.prefix "/" url.
Proof.
  destruct url as [|c url]; [done|].
  change (char_at (String c url) 0) with c.
  change (String.prefix "/" (String c url))
    with (if ascii_dec "/" c then String.prefix "" url else false).
  destruct (ascii_dec "/" c) as [<-|N].
  - by destruct url.
  - apply Ascii.eqb_neq. congruence.
Qed.

Lemma substring_all s : String.substring 0 (String.length s) s = s.
Proof. induction s as [|a s IH]; [done|]. simpl. by f_equal. Qed.

Lemma substring_app_l s t :
  String.substring 0 (String.length s) (s +:+ t) = s.
Proof. induction s as [|a s IH]; [by destruct t|]. rewrite app_cons. simpl. by f_equal. Qed.

Lemma drop_app_l s t : drop (String.length s) (s +:+ t) = t.
Proof. induction s as [|a s IH]; [done|]. rewrite app_cons. by simpl. Qed.

End StrFacts.

(** ** Facts about URL normalisation *)

Module UrlFacts.

Lemma prefix_nil s : String.prefix EmptyString s = true.
Proof. by destruct s. Qed.

Lemma prefix_cons a p s :
  String.prefix (String a p) s = true
  <-> exists s', s = String a s' /\ String.prefix p s' = true.
Proof.
  destruct s as [|b s]; simpl.
  - split; [done|]. by intros (s' & [=] & _).
  - destruct (ascii_dec a b) as [->|N].
    + split; [eauto|]. by intros (s' & [= ->] & H).
    + split; [done|]. intros (s' & [= E _] & _). congruence.
Qed.

Lemma prefix_app p t : String.prefix p (p +:+ t) = true.
Proof.
  induction p as [|a p IH]; [apply prefix_nil|].
  rewrite StrFacts.app_cons. apply prefix_cons. eauto.
Qed.

(** What [NormalizeUrl] computes, with the two tests read as prefix
    tests. *)
Lemma NormalizeUrl_unfold host_port url :
  NormalizeUrl host_port url
  = let rewritten := if String.prefix "/" url then host_port +:+ url else url in
    if String.prefix "http://" rewritten || String.prefix "https://" rewritten
    then rewritten else "https://" +:+ rewritten.
Proof.
  unfold NormalizeUrl. rewrite StrFacts.char_at_0_slash.
  destruct (String.prefix "/" url); simpl;
    rewrite !StrFacts.rfind_0;
    match goal with
    | |- context [String.prefix "http://" ?p] =>
        destruct (String.prefix "http://" p), (String.prefix "https://" p)
    end; reflexivity.
Qed.

Lemma scheme_not_slash s :
  String.prefix "http://" s || String.prefix "https://" s = true ->
  String.prefix "/" s = false.
Proof.
  intros H. apply orb_true_iff in H.
  destruct H as [H|H]; apply prefix_cons in H as (s' & -> & _); reflexivity.
Qed.

Lemma has_scheme host_port url :
  String.prefix "http://" (NormalizeUrl host_port url)
    || String.prefix "https://" (NormalizeUrl host_port url) = true.
Proof.
  rewrite NormalizeUrl_unfold. cbv zeta.
  set (rewritten := if String.prefix "/" url then _ else _).
  destruct (String.prefix "http://" rewritten || String.prefix "https://" rewritten)
    eqn:E; [done|].
  apply orb_true_iff. right. apply (prefix_app "https://").
Qed.

End UrlFacts.

(** C4.  [NormalizeUrl] prepends the origin to a url that begins with a
    slash, then prepends "https://" unless the result begins with
    "http://" or "https://"; it is a total function, and the three
    example urls of the spec normalise as stated. *)
Theorem NormalizeUrl_spec (host_port url : string) :
  let rewritten := if String.prefix "/" url then host_port +:+ url else url in
  NormalizeUrl host_port url =
    (if String.prefix "http://" rewritten || String.prefix "https://" rewritten
     then rewritten else "https://" +:+ rewritten)
  /\ NormalizeUrl "https://h" "/foo" = "https://h/foo"
  /\ NormalizeUrl "https://h" "h/foo" = "https://h/foo"
  /\ NormalizeUrl "https://h" "http://x/y" = "http://x/y".
Proof.
  split; [|by repeat split].
  unfold NormalizeUrl. rewrite StrFacts.char_at_0_slash.
  destruct (String.prefix "/" url); simpl;
    rewrite !StrFacts.rfind_0;
    match goal with
    | |- context [String.prefix "http://" ?p] =>
        destruct (String.prefix "http://" p), (String.prefix "https://" p)
    end; reflexivity.
Qed.

(** ** Facts about the wire format *)

Module WireFacts.
Import Wire.
Local Open Scope Z_scope.

Lemma Z_of_byte_of_Z v : Z_of_byte (byte_of_Z v) = v mod 256.
Proof.
  unfold Z_of_byte, byte_of_Z.
  pose proof (Z.mod_pos_bound v 256 eq_refl).
  rewrite N_ascii_embedding by lia. lia.
Qed.

Lemma to_int32_mod x : to_int32 x mod 2^32 = x mod 2^32.
Proof.
  unfold to_int32. change (2^32) with 4294967296. change (2^31) with 2147483648.
  Z.to_euclidean_division_equations. lia.
Qed.

Lemma to_int32_testbit x i :
  0 <= i < 32 -> Z.testbit (to_int32 x) i = Z.testbit x i.
Proof.
  intros Hi.
  rewrite <- (Z.mod_pow2_bits_low (to_int32 x) 32 i) by lia.
  rewrite <- (Z.mod_pow2_bits_low x 32 i) by lia.
  by rewrite to_int32_mod.
Qed.

Lemma to_uint32_to_int32 x : to_uint32 (to_int32 x) = x mod 2^32.
Proof. apply to_int32_mod. Qed.

(** Bit [j] of the byte the host stores for [x & 0xFF]. *)
Lemma host_byte_testbit x j :
  Z.testbit (Z_of_byte (byte_of_Z (js_and x 255))) j
  = (0 <=? j) && (j <? 8) && Z.testbit x j.
Proof.
  rewrite Z_of_byte_of_Z.
  destruct (Z.leb_spec 0 j) as [Hj|Hj]; [|by rewrite Z.testbit_neg_r].
  change 256 with (2^8). rewrite Z.testbit_mod_pow2 by lia.
  destruct (Z.ltb_spec j 8) as [Hj8|Hj8]; [|done]. simpl.
  unfold js_and. rewrite Z.land_spec.
  change (to_int32 255) with (Z.ones 8).
  rewrite Z.testbit_ones_nonneg by lia.
  replace (j <? 8) with true by (symmetry; apply Z.ltb_lt; lia).
  rewrite andb_true_r. apply to_int32_testbit. lia.
Qed.

Lemma js_shr_testbit len k j :
  0 <= k < 32 -> 0 <= j -> j + k < 32 ->
  Z.testbit (js_shr len k) j = Z.testbit len (j + k).
Proof.
  intros Hk Hj Hjk. unfold js_shr.
  rewrite Z.mod_small by lia. rewrite Z.shiftr_spec by lia.
  apply to_int32_testbit. lia.
Qed.

(** The byte the host stores for [x >> k] is digit [k / 8] of [x] in
    base 256. *)
Lemma host_byte_value x k :
  0 <= k -> k + 8 <= 32 ->
  Z_of_byte (byte_of_Z (js_and (js_shr x k) 255)) = (x / 2^k) mod 256.
Proof.
  intros Hk Hk'. apply Z.bits_inj'. intros j Hj.
  rewrite host_byte_testbit. change 256 with (2^8).
  rewrite Z.testbit_mod_pow2, <- Z.shiftr_div_pow2, Z.shiftr_spec by lia.
  replace (0 <=? j) with true by (symmetry; apply Z.leb_le; lia).
  destruct (Z.ltb_spec j 8); [|done]. simpl. by apply js_shr_testbit; lia.
Qed.

Lemma host_byte_value_0 x :
  Z_of_byte (byte_of_Z (js_and x 255)) = x mod 256.
Proof.
  apply Z.bits_inj'. intros j Hj.
  rewrite host_byte_testbit. change 256 with (2^8).
  rewrite Z.testbit_mod_pow2 by lia.
  by replace (0 <=? j) with true by (symmetry; apply Z.leb_le; lia).
Qed.

Lemma decoded_term_testbit b k i :
  0 <= i -> 0 <= k ->
  Z.testbit (to_uint32 (shl_int b k)) i = (i <? 32) && Z.testbit b (i - k).
Proof.
  intros Hi Hk. unfold shl_int. rewrite to_uint32_to_int32.
  rewrite Z.testbit_mod_pow2 by lia. by rewrite Z.shiftl_spec by lia.
Qed.

Lemma prefix_value_mod len : prefix_value len = len mod 2^32.
Proof.
  apply Z.bits_inj'. intros i Hi. unfold prefix_value, or_u32.
  rewrite !Z.lor_spec, !decoded_term_testbit by lia.
  rewrite Z.testbit_0_l. unfold to_uint32 at 1.
  rewrite !Z.testbit_mod_pow2 by lia.
  rewrite !host_byte_testbit.
  destruct (Z.ltb_spec i 32) as [H32|H32]; [|reflexivity]. simpl.
  destruct (Z.ltb_spec i 8), (Z.ltb_spec (i - 8) 8),
    (Z.ltb_spec (i - 16) 8), (Z.ltb_spec (i - 24) 8),
    (Z.leb_spec 0 i), (Z.leb_spec 0 (i - 8)), (Z.leb_spec 0 (i - 16)),
    (Z.leb_spec 0 (i - 24)); simpl; try lia;
    rewrite ?orb_false_r; try reflexivity;
    rewrite js_shr_testbit by lia; f_equal; lia.
Qed.

Lemma prefix_value_id len : 0 <= len < 2^32 -> prefix_value len = len.
Proof. intros Hlen. rewrite prefix_value_mod. by apply Z.mod_small. Qed.

Lemma read_length_prefix len rest :
  0 <= len < 2^32 ->
  read_length (length_prefix len +:+ rest) = Some len.
Proof.
  intros Hlen. rewrite <- (prefix_value_id len) at 2 by done.
  reflexivity.
Qed.

Lemma read_payload_prefix len payload :
  len = Z.of_nat (String.length payload) ->
  read_payload (length_prefix len +:+ payload) len = Some payload.
Proof.
  intros ->. unfold read_payload.
  rewrite StrFacts.length_app. change (String.length (length_prefix _)) with 4%nat.
  destruct (Z.ltb_spec (Z.of_nat (4 + String.length payload))
              (4 + Z.of_nat (String.length payload))) as [H|H]; [lia|].
  f_equal. rewrite Nat2Z.id. unfold Str.substr, length_prefix.
  rewrite !StrFacts.app_cons, StrFacts.app_nil_l.
  change (String.substring 0 (String.length payload) payload = payload).
  apply StrFacts.substring_all.
Qed.

(** Whatever its length, a buffer the host encodes can be decoded
    without leaving it. *)
Lemma wire_ok_encode payload : wire_ok (encode_wire payload) = true.
Proof.
  apply bool_decide_eq_true. unfold decode_wire, encode_wire.
  change (read_length (length_prefix ?l +:+ ?p)) with (Some (prefix_value l)).
  rewrite prefix_value_mod. simpl. unfold read_payload.
  rewrite StrFacts.length_app. change (String.length (length_prefix _)) with 4%nat.
  pose proof (Z.mod_le (Z.of_nat (String.length payload)) (2^32)).
  destruct (Z.ltb_spec (Z.of_nat (4 + String.length payload))
              (4 + Z.of_nat (String.length payload) mod 2^32)); [lia|eauto].
Qed.

End WireFacts.

(** C2.  Length-prefix round trip: the host writes the length of the
    payload least significant byte first, then the payload; for every
    payload of fewer than 2^32 bytes the bridge's decoder, which reads
    the first four bytes as the length and takes that many of the bytes
    after them, returns the payload. *)
Theorem decode_encode_wire (B : string) :
  (Z.of_nat (String.length B) < 2^32)%Z ->
  let L := Z.of_nat (String.length B) in
  Wire.prefix_bytes (Wire.encode_wire B)
    = [L mod 256; (L / 2^8) mod 256; (L / 2^16) mod 256; (L / 2^24) mod 256]%Z
  /\ Wire.read_length (Wire.encode_wire B) = Some L
  /\ Wire.decode_wire (Wire.encode_wire B) = Some B.
Proof.
  intros HL L. unfold Wire.decode_wire, Wire.encode_wire. fold L.
  rewrite WireFacts.read_length_prefix by lia. simpl.
  split; [|split; [done|by apply WireFacts.read_payload_prefix]].
  unfold Wire.prefix_bytes, Wire.length_prefix.
  rewrite !StrFacts.app_cons. cbn [list_ascii_of_string take map].
  by rewrite WireFacts.host_byte_value_0, !WireFacts.host_byte_value by lia.
Qed.

Lemma decode_encode_wire_witness :
  Wire.prefix_bytes (Wire.encode_wire "hello") = [5; 0; 0; 0]%Z
  /\ Wire.read_length (Wire.encode_wire "hello") = Some 5%Z
  /\ Wire.decode_wire (Wire.encode_wire "hello") = Some "hello".
Proof. apply (decode_encode_wire "hello"). reflexivity. Defined.

(** ** Facts about the header-block parser *)

Module HeaderFacts.
Import Str HeaderCodec.

Lemma string_forall_impl (P Q : ascii -> bool) s :
  (forall c, P c = true -> Q c = true) ->
  string_forall P s = true -> string_forall Q s = true.
Proof.
  intros HPQ. induction s as [|c s IH]; [done|]. simpl.
  intros [Hc Hs]%andb_true_iff. apply andb_true_iff. auto.
Qed.

Lemma string_forall_app P s t :
  string_forall P (s +:+ t) = string_forall P s && string_forall P t.
Proof.
  induction s as [|c s IH]; [done|]. rewrite StrFacts.app_cons. simpl.
  by rewrite IH, andb_assoc.
Qed.

Lemma find_no_colon s : no_colon s = true -> find ":" s = None.
Proof.
  induction s as [|c s IH]; [done|]. simpl.
  intros [Hc Hs]%andb_true_iff. apply negb_true_iff in Hc.
  by rewrite Hc, IH.
Qed.

Lemma find_first_colon name value :
  no_colon name = true ->
  find ":" (name +:+ ":" +:+ value) = Some (String.length name).
Proof.
  induction name as [|c s IH]; [done|]. rewrite StrFacts.app_cons. simpl.
  intros [Hc Hs]%andb_true_iff. apply negb_true_iff in Hc.
  by rewrite Hc, IH.
Qed.

(** A line is split at its first colon; the value loses its leading
    spaces. *)
Lemma parse_line_colon name value headers :
  no_colon name = true ->
  parse_line (name +:+ ":" +:+ value) headers
  = headers ++ [(name, trim_leading_spaces value)].
Proof.
  intros Hn. unfold parse_line, Insert. rewrite find_first_colon by done.
  unfold substr, substr_from. rewrite StrFacts.substring_app_l.
  replace (String.length name + 1)%nat
    with (String.length (name +:+ ":")) by apply StrFacts.length_app.
  rewrite <- (StrFacts.app_assoc name ":" value).
  by rewrite StrFacts.drop_app_l.
Qed.

(** A line without a colon is skipped. *)
Lemma parse_line_skip line headers :
  no_colon line = true -> parse_line line headers = headers.
Proof. intros H. unfold parse_line. by rewrite find_no_colon. Qed.

(** Empty pieces make no difference to the parser, so it does not
    matter whether the splitting utility keeps or drops them. *)
Lemma parse_lines_ignore_empty lines : forall headers,
  foldl (fun hs l => parse_line l hs) headers
    (List.filter (fun l => negb (String.eqb l EmptyString)) lines)
  = foldl (fun hs l => parse_line l hs) headers lines.
Proof.
  induction lines as [|l ls IH]; intros headers; [done|]. simpl.
  destruct (String.eqb_spec l EmptyString) as [->|Hl]; simpl; by rewrite IH.
Qed.

Lemma split_first_line line rest :
  no_CR line = true ->
  Split (line +:+ CRLF +:+ rest) CRLF = line :: Split rest CRLF.
Proof.
  unfold Split. induction line as [|c s IH]; [intros _; by destruct rest|].
  intros H.
  change (no_CR (String c s)) with (negb (Ascii.eqb c "013") && no_CR s) in H.
  apply andb_true_iff in H as [Hc Hs]. apply negb_true_iff in Hc.
  rewrite StrFacts.app_cons.
  change (split_go CRLF 0 (String c (s +:+ CRLF +:+ rest)))
    with (if String.prefix CRLF (String c (s +:+ CRLF +:+ rest))
          then EmptyString :: split_go CRLF (String.length CRLF - 1) (s +:+ CRLF +:+ rest)
          else match split_go CRLF 0 (s +:+ CRLF +:+ rest) with
               | p :: ps => String c p :: ps
               | [] => [String c EmptyString]
               end).
  replace (String.prefix CRLF (String c (s +:+ CRLF +:+ rest))) with false.
  - by rewrite IH.
  - unfold CRLF.
    change (String.prefix (String "013" (String "010" EmptyString))
              (String c (s +:+ String "013" (String "010" EmptyString) +:+ rest)))
      with (if ascii_dec "013" c
            then String.prefix (String "010" EmptyString)
                   (s +:+ String "013" (String "010" EmptyString) +:+ rest)
            else false).
    destruct (ascii_dec "013" c) as [<-|]; [|done].
    by rewrite Ascii.eqb_refl in Hc.
Qed.

Lemma well_formed_line h :
  well_formed h = true ->
  no_colon h.1 = true /\ no_CR (h.1 +:+ ": " +:+ h.2) = true.
Proof.
  unfold well_formed, no_colon, no_CR, is_CR_or_LF.
  intros [H1 H2]%andb_true_iff. split.
  - revert H1. apply string_forall_impl. by intros c [? ?]%andb_true_iff.
  - rewrite !string_forall_app.
    apply andb_true_iff; split; [|apply andb_true_iff; split; [reflexivity|]].
    + revert H1. apply string_forall_impl.
      intros c [_ H]%andb_true_iff. by destruct (Ascii.eqb c "013").
    + revert H2. apply string_forall_impl.
      intros c H. by destruct (Ascii.eqb c "013").
Qed.

Lemma parse_encoded H : forall acc,
  Forall (fun h => well_formed h = true) H ->
  foldl (fun headers line => parse_line line headers) acc
    (Split (encode_as_text H) CRLF)
  = acc ++ map (fun h => (h.1, trim_leading_spaces h.2)) H.
Proof.
  induction H as [|h H IH]; intros acc HH.
  - simpl. by rewrite app_nil_r.
  - inversion_clear HH as [|? ? Hh HH'].
    apply well_formed_line in Hh as [Hn Hl].
    replace (encode_as_text (h :: H))
      with ((h.1 +:+ ": " +:+ h.2) +:+ CRLF +:+ encode_as_text H)
      by (simpl; unfold render_line; by rewrite !StrFacts.app_assoc).
    rewrite split_first_line by done. simpl foldl.
    change (": " +:+ h.2) with (":" +:+ " " +:+ h.2).
    rewrite parse_line_colon by done.
    rewrite IH by done. simpl map. rewrite <- app_assoc. reflexivity.
Qed.

End HeaderFacts.

(** C5.  The inbound header decoder never fails: it is a total function
    that cuts the block at each CRLF, splits a line at its first colon,
    trims the leading spaces of the value and skips a line without a
    colon.  Hence a header set rendered as well-formed "Name: Value"
    lines is decoded to the same pairs, up to the leading spaces of the
    values. *)
Theorem header_block_round_trip :
  (forall line rest, HeaderCodec.no_CR line = true ->
     HeaderCodec.parse_header_block (line +:+ HeaderCodec.CRLF +:+ rest)
     = foldl (fun headers l => HeaderCodec.parse_line l headers)
         (HeaderCodec.parse_line line [])
         (HeaderCodec.Split rest HeaderCodec.CRLF))
  /\ (forall name value headers, HeaderCodec.no_colon name = true ->
        HeaderCodec.parse_line (name +:+ ":" +:+ value) headers
        = headers ++ [(name, HeaderCodec.trim_leading_spaces value)])
  /\ (forall line headers, HeaderCodec.no_colon line = true ->
        HeaderCodec.parse_line line headers = headers)
  /\ (forall H : HeaderCodec.HTTPHeaders,
        Forall (fun h => HeaderCodec.well_formed h = true) H ->
        HeaderCodec.parse_header_block (HeaderCodec.encode_as_text H)
        = map (fun h => (h.1, HeaderCodec.trim_leading_spaces h.2)) H).
Proof.
  split; [|split; [apply HeaderFacts.parse_line_colon|
                  split; [apply HeaderFacts.parse_line_skip|]]].
  - intros line rest Hline. unfold HeaderCodec.parse_header_block.
    by rewrite HeaderFacts.split_first_line.
  - intros H HH. unfold HeaderCodec.parse_header_block.
    by rewrite HeaderFacts.parse_encoded.
Qed.

Lemma header_block_round_trip_witness :
  HeaderCodec.parse_header_block
    (HeaderCodec.encode_as_text [("Content-Length", "42"); ("ETag", "  x")])
  = [("Content-Length", "42"); ("ETag", "x")].
Proof.
  apply (proj2 (proj2 (proj2 header_block_round_trip))
           [("Content-Length", "42"); ("ETag", "  x")]).
  repeat constructor.
Defined.

(** ** Running bridge code on a heap of known shape *)

Module MemFacts.
Import Mem.

Lemma bind_run {A B} (m : M A) (f : A -> M B) w :
  (m ≫= f) w = match m w with
               | (Some a, w') => f a w'
               | (None, w') => (None, w')
               end.
Proof. reflexivity. Qed.

Lemma ret_run {A} (a : A) w : (mret a : M A) w = (Some a, w).
Proof. reflexivity. Qed.

Lemma insert_middle {A} (l1 l2 : list A) x y :
  <[length l1 := y]> (l1 ++ x :: l2) = l1 ++ y :: l2.
Proof. rewrite <- (Nat.add_0_r (length l1)). by rewrite insert_app_r. Qed.

Lemma insert_two {A} (pre post : list A) p0 p1 a b :
  <[S (length pre) := b]> (<[length pre := a]> (pre ++ p0 :: p1 :: post))
  = (pre ++ [a; b]) ++ post.
Proof.
  rewrite insert_middle.
  replace (pre ++ a :: p1 :: post) with ((pre ++ [a]) ++ p1 :: post)
    by (by rewrite <- app_assoc).
  replace (S (length pre)) with (length (pre ++ [a]))
    by (rewrite length_app; simpl; lia).
  rewrite insert_middle. by rewrite <- !app_assoc.
Qed.

(** The heap [h0 ++ x :: tail]: [h0] is what was there before the
    dispatch, [x] is the slot of the pointer array, [tail] the slots
    allocated after it. *)
Lemma lookup_block_head h0 x tail T :
  lookup_block (mkWorld (h0 ++ x :: tail) T) (length h0) = x.
Proof. unfold lookup_block. simpl. by rewrite list_lookup_middle. Qed.

Lemma lookup_block_tail h0 x tail T k :
  lookup_block (mkWorld (h0 ++ x :: tail) T) (length h0 + 1 + k)
  = mjoin (tail !! k).
Proof.
  unfold lookup_block. simpl.
  rewrite lookup_app_r by lia.
  replace (length h0 + 1 + k - length h0) with (S k) by lia. reflexivity.
Qed.

Lemma malloc_run content h0 x tail T :
  malloc content (mkWorld (h0 ++ x :: tail) T)
  = (Some (Ptr (length h0 + 1 + length tail)),
     mkWorld (h0 ++ x :: (tail ++ [Some content]))
       (T ++ [EvMalloc (length h0 + 1 + length tail)])).
Proof.
  unfold malloc. simpl.
  replace (length (h0 ++ x :: tail)) with (length h0 + 1 + length tail)
    by (rewrite length_app; simpl; lia).
  by rewrite <- app_assoc.
Qed.

Lemma store_ptr_run h0 ps tail T i q :
  i < length ps ->
  store_ptr (Ptr (length h0)) i q (mkWorld (h0 ++ Some (Ptrs ps) :: tail) T)
  = (Some tt, mkWorld (h0 ++ Some (Ptrs (<[i := q]> ps)) :: tail) T).
Proof.
  intros Hi. unfold store_ptr. rewrite lookup_block_head.
  destruct (decide (i < length ps)); [|lia]. simpl.
  by rewrite insert_middle.
Qed.

Lemma load_ptr_run h0 ps tail T i q :
  ps !! i = Some q ->
  load_ptr (Ptr (length h0)) i (mkWorld (h0 ++ Some (Ptrs ps) :: tail) T)
  = (Some q, mkWorld (h0 ++ Some (Ptrs ps) :: tail) T).
Proof. intros Hq. unfold load_ptr. by rewrite lookup_block_head, Hq. Qed.

Lemma free_tail_run h0 x tail T k content :
  tail !! k = Some (Some content) ->
  free (Ptr (length h0 + 1 + k)) (mkWorld (h0 ++ x :: tail) T)
  = (Some tt, mkWorld (h0 ++ x :: <[k := None]> tail)
                (T ++ [EvFree (length h0 + 1 + k)])).
Proof.
  intros Hk. unfold free. rewrite lookup_block_tail, Hk. simpl.
  rewrite insert_app_r_alt by lia.
  replace (length h0 + 1 + k - length h0) with (S k) by lia. reflexivity.
Qed.

Lemma free_head_run h0 content tail T :
  free (Ptr (length h0)) (mkWorld (h0 ++ Some content :: tail) T)
  = (Some tt, mkWorld (h0 ++ None :: tail) (T ++ [EvFree (length h0)])).
Proof.
  unfold free. rewrite lookup_block_head. simpl.
  by rewrite insert_middle.
Qed.

Lemma load_bytes_tail_run h0 x tail T k s :
  tail !! k = Some (Some (Bytes s)) ->
  load_bytes (Ptr (length h0 + 1 + k)) (mkWorld (h0 ++ x :: tail) T)
  = (Some s, mkWorld (h0 ++ x :: tail) T).
Proof. intros Hk. unfold load_bytes. by rewrite lookup_block_tail, Hk. Qed.

Lemma new_events_app w h T :
  new_events w (mkWorld h (trace w ++ T)) = T.
Proof. unfold new_events. simpl. by rewrite drop_app_length. Qed.

End MemFacts.

Module BridgeFacts.
Import Mem Bridge HeaderCodec Shape MemFacts.

Lemma length_cstrings headers : length (cstrings headers) = 2 * length headers.
Proof. induction headers as [|h hs IH]; simpl; lia. Qed.

Lemma count_loop (headers : HTTPHeaders) n :
  foldl (fun count _ => S count) n headers = n + length headers.
Proof.
  revert n. induction headers as [|h hs IH]; intros n; simpl; [lia|].
  rewrite IH. lia.
Qed.

Lemma seq_two m k : seq m (2 * S k) = m :: (m + 1) :: seq (m + 2) (2 * k).
Proof.
  replace (2 * S k) with (S (S (2 * k))) by lia. simpl.
  by replace (m + 1) with (S m) by lia; replace (m + 2) with (S (S m)) by lia.
Qed.

Lemma fill_headers_run headers : forall i h0 pre post bufs T,
  length pre = i -> length post = 2 * length headers -> length bufs = i ->
  fill_headers (Ptr (length h0)) i headers
    (mkWorld (h0 ++ Some (Ptrs (pre ++ post)) :: bufs) T)
  = (Some tt,
     mkWorld (h0 ++ Some (Ptrs (pre ++ map Ptr (seq (length h0 + 1 + i)
                                                  (2 * length headers))))
                 :: (bufs ++ cstrings headers))
       (T ++ map EvMalloc (seq (length h0 + 1 + i) (2 * length headers)))).
Proof.
  induction headers as [|h hs IH]; intros i h0 pre post bufs T Hpre Hpost Hbufs.
  - destruct post; [|done]. simpl. by rewrite !app_nil_r.
  - destruct post as [|p0 [|p1 post]]; simpl in Hpost; try lia.
    cbn [fill_headers].
    rewrite bind_run, malloc_run, bind_run, store_ptr_run
      by (rewrite length_app; simpl; lia).
    rewrite bind_run, malloc_run, bind_run, store_ptr_run
      by (rewrite length_insert, length_app; simpl; lia).
    rewrite Hbufs, length_app, Hbufs. simpl length.
    replace (<[S i:=Ptr (length h0 + 1 + (i + 1))]>
               (<[i:=Ptr (length h0 + 1 + i)]> (pre ++ p0 :: p1 :: post)))
      with ((pre ++ [Ptr (length h0 + 1 + i); Ptr (length h0 + 1 + (i + 1))]) ++ post).
    2:{ rewrite <- Hpre. symmetry. apply insert_two. }
    rewrite (IH (S (S i)) h0 (pre ++ [Ptr (length h0 + 1 + i);
                                      Ptr (length h0 + 1 + (i + 1))]) post)
      by (rewrite ?length_app; simpl; lia).
    rewrite (seq_two (length h0 + 1 + i)). simpl map. simpl cstrings.
    replace (length h0 + 1 + S (S i)) with (length h0 + 1 + i + 2) by lia.
    replace (length h0 + 1 + (i + 1)) with (length h0 + 1 + i + 1) by lia.
    rewrite <- !app_assoc. reflexivity.
Qed.

Lemma PrepareHeaders_run headers h0 T :
  PrepareHeaders headers (mkWorld h0 T)
  = (Some (Ptr (length h0), length headers),
     mkWorld (h0 ++ Some (Ptrs (map Ptr (seq (length h0 + 1) (2 * length headers))))
                 :: cstrings headers)
       (T ++ EvMalloc (length h0)
          :: map EvMalloc (seq (length h0 + 1) (2 * length headers)))).
Proof.
  unfold PrepareHeaders. rewrite count_loop. simpl.
  rewrite bind_run. unfold malloc at 1. cbn [heap trace].
  rewrite bind_run.
  rewrite (fill_headers_run headers 0 h0 [] (replicate (length headers * 2) nullptr) []);
    [|done|rewrite length_replicate; lia|done].
  rewrite Nat.add_0_r. simpl. rewrite <- app_assoc. reflexivity.
Qed.

Lemma free_from_run cells : forall gone i h0 ps extra T,
  length gone = i ->
  Forall (fun c => is_Some c) cells ->
  (forall j, j < length cells -> ps !! (i + j) = Some (Ptr (length h0 + 1 + (i + j)))) ->
  free_from (Ptr (length h0)) i (length cells)
    (mkWorld (h0 ++ Some (Ptrs ps) :: gone ++ cells ++ extra) T)
  = (Some tt,
     mkWorld (h0 ++ Some (Ptrs ps) :: gone ++ replicate (length cells) None ++ extra)
       (T ++ map EvFree (seq (length h0 + 1 + i) (length cells)))).
Proof.
  induction cells as [|c cs IH]; intros gone i h0 ps extra T Hgone Hlive Hps.
  - simpl. by rewrite app_nil_r.
  - inversion_clear Hlive as [|? ? [content ->] Hlive']. subst i.
    cbn [free_from length].
    rewrite bind_run.
    rewrite (load_ptr_run h0 ps _ T (length gone) (Ptr (length h0 + 1 + length gone))).
    2:{ rewrite <- (Nat.add_0_r (length gone)) at 1 2. apply Hps. simpl. lia. }
    rewrite bind_run.
    rewrite (free_tail_run h0 _ _ T (length gone) content)
      by (by apply list_lookup_middle).
    rewrite <- app_comm_cons, insert_middle.
    replace (gone ++ None :: cs ++ extra) with ((gone ++ [None]) ++ cs ++ extra)
      by (by rewrite <- app_assoc).
    rewrite (IH (gone ++ [None]) (S (length gone))).
    + simpl. rewrite <- !app_assoc. simpl. do 3 f_equal.
      replace (length h0 + 1 + S (length gone))
        with (S (length h0 + 1 + length gone)) by lia.
      reflexivity.
    + rewrite length_app. simpl. lia.
    + done.
    + intros j Hj. replace (S (length gone) + j) with (length gone + S j) by lia.
      apply Hps. simpl. lia.
Qed.

Lemma lookup_header_array n count i :
  i < 2 * count ->
  map Ptr (seq (n + 1) (2 * count)) !! i = Some (Ptr (n + 1 + i)).
Proof.
  intros Hi. rewrite list_lookup_fmap, lookup_seq_lt by lia. reflexivity.
Qed.

Lemma cstrings_live headers : Forall (fun c => is_Some c) (cstrings headers).
Proof. induction headers as [|h hs IH]; simpl; repeat constructor; eauto. Qed.

(** [FreeHeaders] on the heap [PrepareHeaders] built, whatever was
    allocated after it. *)
Lemma FreeHeaders_run headers h0 extra T :
  FreeHeaders (Ptr (length h0)) (length headers)
    (mkWorld (h0 ++ Some (Ptrs (map Ptr (seq (length h0 + 1) (2 * length headers))))
                 :: cstrings headers ++ extra) T)
  = (Some tt,
     mkWorld (h0 ++ None :: replicate (2 * length headers) None ++ extra)
       (T ++ map EvFree (seq (length h0 + 1) (2 * length headers))
          ++ [EvFree (length h0)])).
Proof.
  unfold FreeHeaders. rewrite bind_run.
  replace (length headers * 2) with (length (cstrings headers))
    by (rewrite length_cstrings; lia).
  rewrite (free_from_run (cstrings headers) [] 0 h0 _ extra T);
    [|done|apply cstrings_live|].
  2:{ intros j Hj. rewrite length_cstrings in Hj. simpl.
      by apply lookup_header_array. }
  cbn [app]. rewrite free_head_run. rewrite length_cstrings, Nat.add_0_r.
  by rewrite <- app_assoc.
Qed.

(** *** The host primitives *)

Section Host.
Context (env : Env).

Lemma read_headers_heap w w' arr i n :
  heap w = heap w' -> read_headers w arr i n = read_headers w' arr i n.
Proof.
  intros Hh. revert i. induction n as [|n IH]; intros i; [done|]. simpl.
  rewrite IH. unfold UTF8ToString, HEAPU8, HEAP32, lookup_block.
  by rewrite Hh.
Qed.

Lemma install_headers_run arr n : forall i acc w,
  install_headers env arr i n acc w
  = (Some (acc ++ accepted env (read_headers w arr i n)),
     mkWorld (heap w)
       (trace w ++ header_events (accepted env (read_headers w arr i n)))).
Proof.
  induction n as [|n IH]; intros i acc w.
  - simpl. rewrite !app_nil_r. by destruct w.
  - cbn [install_headers read_headers]. rewrite bind_run.
    unfold get_world at 1. cbv beta iota.
    unfold accepted at 1 2. cbn [List.filter fst snd].
    fold (accepted env (read_headers w arr (i + 2) n)).
    destruct (header_accepted env _ _) eqn:Hacc.
    + rewrite bind_run, bind_run. unfold emit at 1. cbv beta iota.
      rewrite ret_run. cbv beta iota. rewrite IH. cbn [heap trace].
      rewrite (read_headers_heap _ w) by done.
      cbn [header_events map fst snd].
      by rewrite <- !app_assoc.
    + rewrite bind_run, ret_run. cbv beta iota. by rewrite IH.
Qed.

Lemma host_return_run p reply h T :
  host_return p reply (mkWorld h T)
  = (Some (reply_ptr (length h) reply),
     mkWorld (h ++ reply_cells reply) (T ++ reply_events (length h) p reply)).
Proof.
  destruct reply as [buffer|]; simpl.
  - rewrite bind_run. unfold malloc. cbn [heap trace].
    rewrite bind_run. unfold emit. cbn [heap trace]. rewrite ret_run.
    by rewrite <- app_assoc.
  - rewrite bind_run. unfold emit. cbn [heap trace]. rewrite ret_run.
    by rewrite app_nil_r.
Qed.

Lemma after_host_nothing h T p :
  mkWorld (h ++ reply_cells None) (T ++ reply_events (length h) p None)
  = after_host (mkWorld h T) [] p None.
Proof. unfold after_host. simpl. by rewrite !app_nil_r. Qed.

Lemma em_sync_request_run url method count arr body len w :
  host_shape env (em_sync_request env url method count arr body len w)
    w arr count SyncRequest.
Proof.
  unfold em_sync_request, host_shape. rewrite bind_run.
  unfold get_world at 1. cbv beta iota.
  destruct (xhr_defined env (trace w)); cbn [negb].
  - rewrite bind_run, install_headers_run. cbv beta iota.
    rewrite bind_run. unfold get_world at 1. cbv beta iota. cbn [trace app].
    match goal with
    | |- context [xhr_send env ?t ?r] => destruct (xhr_send env t r) as [|st rb rh]
    end; [|destruct (request_failed st)];
      rewrite host_return_run; eexists _, _;
      (split; [reflexivity|split; [by left|intros _; eauto]]).
  - destruct w as [h T]. rewrite host_return_run.
    exists [], None.
    split; [cbn [heap]; f_equal; apply after_host_nothing|split; [right|]; auto].
Qed.

Lemma em_sync_head_request_run url count arr w :
  host_shape env (em_sync_head_request env url count arr w) w arr count SyncHead.
Proof.
  unfold em_sync_head_request, host_shape. rewrite bind_run.
  unfold get_world at 1. cbv beta iota.
  destruct (xhr_defined env (trace w)); cbn [negb].
  - rewrite bind_run, install_headers_run. cbv beta iota.
    rewrite bind_run. unfold get_world at 1. cbv beta iota. cbn [trace app].
    match goal with
    | |- context [xhr_send env ?t ?r] => destruct (xhr_send env t r) as [|st rb rh]
    end; [|destruct (request_failed st)];
      rewrite host_return_run; eexists _, _;
      (split; [reflexivity|split; [by left|intros _; eauto]]).
  - destruct w as [h T]. rewrite host_return_run.
    exists [], None.
    split; [cbn [heap]; f_equal; apply after_host_nothing|split; [right|]; auto].
Qed.

Lemma em_async_request_run url method count arr body len w :
  host_shape env (em_async_request env url method count arr body len w)
    w arr count AsyncRequest.
Proof.
  unfold em_async_request, host_shape.
  rewrite bind_run, install_headers_run. cbv beta iota.
  rewrite bind_run. unfold get_world at 1. cbv beta iota. cbn [trace app].
  rewrite host_return_run. eexists _, _.
  split; [reflexivity|split; [by left|by intros [|]]].
Qed.

Lemma em_async_head_request_run url count arr w :
  host_shape env (em_async_head_request env url count arr w) w arr count AsyncHead.
Proof.
  unfold em_async_head_request, host_shape.
  rewrite bind_run, install_headers_run. cbv beta iota.
  rewrite bind_run. unfold get_world at 1. cbv beta iota. cbn [trace app].
  rewrite host_return_run. eexists _, _.
  split; [reflexivity|split; [by left|by intros [|]]].
Qed.

End Host.

(** *** The marshalled headers, as the host reads them *)

Lemma c_str_NUL s : Str.c_str (s +:+ NUL_string) = Str.c_str s.
Proof.
  induction s as [|c s IH]; [done|]. rewrite StrFacts.app_cons. simpl.
  by rewrite IH.
Qed.

Lemma cstrings_app a b : cstrings (a ++ b) = cstrings a ++ cstrings b.
Proof. unfold cstrings. apply flat_map_app. Qed.

Lemma cstrings_lookup_name gone h rest extra :
  (cstrings (gone ++ h :: rest) ++ extra) !! (2 * length gone)
  = Some (Some (Bytes (h.1 +:+ NUL_string))).
Proof.
  rewrite cstrings_app, <- app_assoc.
  rewrite lookup_app_r by (rewrite length_cstrings; lia).
  rewrite length_cstrings, Nat.sub_diag. reflexivity.
Qed.

Lemma cstrings_lookup_value gone h rest extra :
  (cstrings (gone ++ h :: rest) ++ extra) !! (2 * length gone + 1)
  = Some (Some (Bytes (h.2 +:+ NUL_string))).
Proof.
  rewrite cstrings_app, <- app_assoc.
  rewrite lookup_app_r by (rewrite length_cstrings; lia).
  rewrite length_cstrings.
  replace (2 * length gone + 1 - 2 * length gone) with 1 by lia. reflexivity.
Qed.

Lemma HEAP32_head h0 ps tail T i q :
  ps !! i = Some q ->
  HEAP32 (mkWorld (h0 ++ Some (Ptrs ps) :: tail) T) (Ptr (length h0)) i = q.
Proof. intros Hq. unfold HEAP32. by rewrite lookup_block_head, Hq. Qed.

Lemma UTF8ToString_tail h0 x tail T k s :
  tail !! k = Some (Some (Bytes s)) ->
  UTF8ToString (mkWorld (h0 ++ x :: tail) T) (Ptr (length h0 + 1 + k)) = Str.c_str s.
Proof.
  intros Hk. unfold UTF8ToString, HEAPU8. by rewrite lookup_block_tail, Hk.
Qed.

Lemma read_marshalled_from rest : forall gone headers h0 extra T,
  headers = gone ++ rest ->
  read_headers
    (mkWorld (h0 ++ Some (Ptrs (map Ptr (seq (length h0 + 1) (2 * length headers))))
                 :: cstrings headers ++ extra) T)
    (Ptr (length h0)) (2 * length gone) (length rest)
  = marshalled rest.
Proof.
  induction rest as [|h rest IH]; intros gone headers h0 extra T ->; [done|].
  cbn [read_headers length marshalled map].
  assert (Hlen : length (gone ++ h :: rest) = length gone + S (length rest))
    by (rewrite length_app; simpl; lia).
  rewrite !(HEAP32_head _ _ _ _ _ (Ptr (length h0 + 1 + _)))
    by (apply lookup_header_array; lia).
  rewrite (UTF8ToString_tail _ _ _ _ _ _ (cstrings_lookup_name _ _ _ _)).
  rewrite (UTF8ToString_tail _ _ _ _ _ _ (cstrings_lookup_value _ _ _ _)).
  rewrite !c_str_NUL. f_equal.
  replace (2 * length gone + 2) with (2 * length (gone ++ [h]))
    by (rewrite length_app; simpl; lia).
  replace (gone ++ h :: rest) with ((gone ++ [h]) ++ rest)
    by (by rewrite <- app_assoc).
  by apply IH.
Qed.

Lemma read_marshalled headers h0 extra T :
  read_headers
    (mkWorld (h0 ++ Some (Ptrs (map Ptr (seq (length h0 + 1) (2 * length headers))))
                 :: cstrings headers ++ extra) T)
    (Ptr (length h0)) 0 (length headers)
  = marshalled headers.
Proof. by apply (read_marshalled_from headers []). Qed.

(** *** One dispatch, in closed form *)

Section Dispatch.
Context (env : Env).

Lemma payload_cells_cases body_data body_len :
  payload_cells body_data body_len = []
  \/ exists b, payload_cells body_data body_len = [Some (Bytes b)].
Proof.
  unfold payload_cells. destruct body_data; [|by left].
  destruct (0 <? body_len)%Z; eauto.
Qed.

Lemma payload_run body_data body_len h0 x tail T :
  match body_data with
  | Some bytes =>
      if (0 <? body_len)%Z
      then malloc (Bytes (Str.substr bytes 0 (Z.to_nat body_len)))
      else mret nullptr
  | None => mret nullptr
  end (mkWorld (h0 ++ x :: tail) T)
  = (Some (payload_ptr (length h0 + 1 + length tail)
             (payload_cells body_data body_len)),
     mkWorld (h0 ++ x :: tail ++ payload_cells body_data body_len)
       (T ++ map EvMalloc (seq (length h0 + 1 + length tail)
                             (length (payload_cells body_data body_len))))).
Proof.
  unfold payload_cells.
  destruct body_data as [bytes|]; [destruct (0 <? body_len)%Z|];
    rewrite ?malloc_run, ?ret_run; simpl; by rewrite ?app_nil_r.
Qed.

(** After the host call: the arguments are freed, whatever the reply. *)
Lemma free_arguments_run {A} (k : M A) headers h0 pc rc T :
  pc = [] \/ (exists b, pc = [Some (Bytes b)]) ->
  (FreeHeaders (Ptr (length h0)) (length headers);;
   (match payload_ptr (length h0 + 1 + length (cstrings headers)) pc with
    | nullptr => mret tt
    | Ptr _ => free (payload_ptr (length h0 + 1 + length (cstrings headers)) pc)
    end);; k)
    (mkWorld (h0 ++ Some (Ptrs (map Ptr (seq (length h0 + 1) (2 * length headers))))
                 :: cstrings headers ++ pc ++ rc) T)
  = k (mkWorld (h0 ++ None :: replicate (2 * length headers) None
                   ++ replicate (length pc) None ++ rc)
         (T ++ (map EvFree (seq (length h0 + 1) (2 * length headers))
                  ++ [EvFree (length h0)])
            ++ map EvFree (seq (length h0 + 1 + 2 * length headers) (length pc)))).
Proof.
  intros Hpc. rewrite bind_run, FreeHeaders_run. cbv beta iota.
  rewrite bind_run, length_cstrings.
  destruct Hpc as [->|[b ->]]; cbn [payload_ptr length replicate seq map app].
  - rewrite ret_run. by rewrite !app_nil_r.
  - rewrite (free_tail_run h0 None _ _ (2 * length headers) (Bytes b)).
    2:{ rewrite lookup_app_r by (rewrite length_replicate; lia).
        by rewrite length_replicate, Nat.sub_diag. }
    f_equal. f_equal; [|by rewrite <- !app_assoc].
    rewrite <- (length_replicate (2 * length headers) (@None block)) at 1.
    by rewrite insert_middle.
Qed.

Lemma request_tail_run (handler : bool) reply h0 x tail T :
  match reply_ptr (length h0 + 1 + length tail) reply return M HTTPResponse with
  | nullptr =>
      mret (set_reason (make_response NotFound_404)
              "Request failed - check console for errors")
  | Ptr _ =>
      payload ← read_result (reply_ptr (length h0 + 1 + length tail) reply);
      (if handler then emit (EvContent payload) else mret tt);;
      free (reply_ptr (length h0 + 1 + length tail) reply);;
      mret (set_body (make_response OK_200) payload)
  end (mkWorld (h0 ++ x :: tail ++ reply_cells reply) T)
  = (request_response reply,
     mkWorld (h0 ++ x :: tail ++ decode_cells reply)
       (T ++ decode_events handler (length h0 + 1 + length tail) reply)).
Proof.
  destruct reply as [buffer|];
    cbn [reply_ptr reply_cells request_response decode_cells decode_events].
  2:{ rewrite ret_run. by rewrite !app_nil_r. }
  assert (Hl : (tail ++ [Some (Bytes buffer)]) !! length tail
               = Some (Some (Bytes buffer))) by (by apply list_lookup_middle).
  rewrite bind_run. unfold read_result. rewrite bind_run.
  rewrite (load_bytes_tail_run _ _ _ _ _ _ Hl).
  destruct (Wire.decode_wire buffer) as [payload|]; [|by rewrite app_nil_r].
  rewrite ret_run, bind_run.
  destruct handler.
  - unfold emit at 1. cbn [heap trace]. rewrite bind_run.
    rewrite (free_tail_run _ _ _ _ _ _ Hl), ret_run, insert_middle.
    by rewrite <- !app_assoc.
  - rewrite ret_run, bind_run.
    rewrite (free_tail_run _ _ _ _ _ _ Hl), ret_run, insert_middle.
    reflexivity.
Qed.

Lemma DoRequest_run this method url headers body_data body_len handler h0 T :
  exists installed reply,
    DoRequest env this method url headers body_data body_len handler (mkWorld h0 T)
    = (request_response reply,
       mkWorld (dispatch_heap h0 (length headers)
                  (payload_cells body_data body_len) reply)
         (T ++ dispatch_events (length h0) (length headers)
                 (payload_cells body_data body_len) installed
                 (if use_sync_xhr this then SyncRequest else AsyncRequest)
                 reply handler))
    /\ installs_ok env (use_sync_xhr this) headers installed reply.
Proof.
  unfold DoRequest. rewrite bind_run, PrepareHeaders_run. cbv beta iota zeta.
  rewrite bind_run, payload_run. rewrite bind_run.
  set (pc := payload_cells body_data body_len).
  set (W1 := mkWorld _ _).
  assert (Hshape : host_shape env
            (if use_sync_xhr this
             then em_sync_request env (NormalizeUrl (host_port this) url) method
                    (length headers) (Ptr (length h0))
                    (payload_ptr (length h0 + 1 + length (cstrings headers)) pc)
                    (Wire.to_int32 body_len) W1
             else em_async_request env (NormalizeUrl (host_port this) url) method
                    (length headers) (Ptr (length h0))
                    (payload_ptr (length h0 + 1 + length (cstrings headers)) pc)
                    (Wire.to_int32 body_len) W1)
            W1 (Ptr (length h0)) (length headers)
            (if use_sync_xhr this then SyncRequest else AsyncRequest)).
  { destruct (use_sync_xhr this);
      [apply em_sync_request_run | apply em_async_request_run]. }
  destruct Hshape as (installed & reply & Hrun & Hinst & Hsync).
  exists installed, reply. split.
  - replace ((if use_sync_xhr this
              then em_sync_request env (NormalizeUrl (host_port this) url) method
                     (length headers) (Ptr (length h0))
                     (payload_ptr (length h0 + 1 + length (cstrings headers)) pc)
                     (Wire.to_int32 body_len)
              else em_async_request env (NormalizeUrl (host_port this) url) method
                     (length headers) (Ptr (length h0))
                     (payload_ptr (length h0 + 1 + length (cstrings headers)) pc)
                     (Wire.to_int32 body_len)) W1)
      with (Some (reply_ptr (length (heap W1)) reply),
            after_host W1 installed
              (if use_sync_xhr this then SyncRequest else AsyncRequest) reply)
      by (by destruct (use_sync_xhr this)).
    cbv beta iota. unfold after_host, W1. cbn [heap trace].
    rewrite <- (app_assoc h0), <- app_comm_cons, <- (app_assoc (cstrings headers)).
    rewrite (free_arguments_run _ headers h0 pc (reply_cells reply))
      by apply payload_cells_cases.
    replace (length (h0 ++ Some (Ptrs (map Ptr (seq (length h0 + 1) (2 * length headers))))
                        :: cstrings headers ++ pc))
      with (length h0 + 1 + length (replicate (2 * length headers) (@None block)
                                      ++ replicate (length pc) None))
      by (rewrite !length_app; simpl; rewrite !length_app, !length_replicate,
            length_cstrings; lia).
    rewrite (app_assoc (replicate (2 * length headers) None)).
    rewrite request_tail_run. f_equal. unfold dispatch_heap, dispatch_events.
    rewrite !length_app, !length_replicate, length_cstrings.
    f_equal.
    + by rewrite <- !app_assoc.
    + rewrite <- !app_assoc. cbn [app].
      replace (length h0 + 1 + (2 * length headers + length pc))
        with (length h0 + 1 + 2 * length headers + length pc) by lia.
      reflexivity.
  - split.
    + destruct Hinst as [->|(-> & -> & Hp)].
      * left. unfold W1. f_equal. apply read_marshalled.
      * right. repeat split. by destruct (use_sync_xhr this), Hp.
    + intros Hs. apply Hsync. rewrite Hs. by right.
Qed.

Lemma head_tail_run reply h0 x tail T :
  match reply_ptr (length h0 + 1 + length tail) reply return M HTTPResponse with
  | nullptr => mret (set_reason (make_response NotFound_404) "HEAD request failed")
  | Ptr _ =>
      headers_str ← read_result (reply_ptr (length h0 + 1 + length tail) reply);
      free (reply_ptr (length h0 + 1 + length tail) reply);;
      mret (foldl (fun res line => update_headers res (parse_line line))
              (make_response OK_200) (Split headers_str CRLF))
  end (mkWorld (h0 ++ x :: tail ++ reply_cells reply) T)
  = (head_response reply,
     mkWorld (h0 ++ x :: tail ++ decode_cells reply)
       (T ++ decode_events false (length h0 + 1 + length tail) reply)).
Proof.
  destruct reply as [buffer|];
    cbn [reply_ptr reply_cells head_response decode_cells decode_events].
  2:{ rewrite ret_run. by rewrite !app_nil_r. }
  assert (Hl : (tail ++ [Some (Bytes buffer)]) !! length tail
               = Some (Some (Bytes buffer))) by (by apply list_lookup_middle).
  rewrite bind_run. unfold read_result. rewrite bind_run.
  rewrite (load_bytes_tail_run _ _ _ _ _ _ Hl).
  destruct (Wire.decode_wire buffer) as [payload|]; [|by rewrite app_nil_r].
  rewrite ret_run, bind_run.
  rewrite (free_tail_run _ _ _ _ _ _ Hl), ret_run, insert_middle.
  reflexivity.
Qed.

Lemma DoHeadRequest_run this url headers h0 T :
  exists installed reply,
    DoHeadRequest env this url headers (mkWorld h0 T)
    = (head_response reply,
       mkWorld (dispatch_heap h0 (length headers) [] reply)
         (T ++ dispatch_events (length h0) (length headers) [] installed
                 (if use_sync_xhr this then SyncHead else AsyncHead)
                 reply false))
    /\ installs_ok env (use_sync_xhr this) headers installed reply.
Proof.
  unfold DoHeadRequest. rewrite bind_run, PrepareHeaders_run. cbv beta iota zeta.
  rewrite bind_run.
  set (W1 := mkWorld _ _).
  assert (Hshape : host_shape env
            (if use_sync_xhr this
             then em_sync_head_request env (NormalizeUrl (host_port this) url)
                    (length headers) (Ptr (length h0)) W1
             else em_async_head_request env (NormalizeUrl (host_port this) url)
                    (length headers) (Ptr (length h0)) W1)
            W1 (Ptr (length h0)) (length headers)
            (if use_sync_xhr this then SyncHead else AsyncHead)).
  { destruct (use_sync_xhr this);
      [apply em_sync_head_request_run | apply em_async_head_request_run]. }
  destruct Hshape as (installed & reply & Hrun & Hinst & Hsync).
  exists installed, reply. split.
  - replace ((if use_sync_xhr this
              then em_sync_head_request env (NormalizeUrl (host_port this) url)
                     (length headers) (Ptr (length h0))
              else em_async_head_request env (NormalizeUrl (host_port this) url)
                     (length headers) (Ptr (length h0))) W1)
      with (Some (reply_ptr (length (heap W1)) reply),
            after_host W1 installed
              (if use_sync_xhr this then SyncHead else AsyncHead) reply)
      by (by destruct (use_sync_xhr this)).
    cbv beta iota. unfold after_host, W1. cbn [heap trace].
    rewrite <- (app_assoc h0), <- app_comm_cons.
    rewrite bind_run, FreeHeaders_run. cbv beta iota.
    replace (length (h0 ++ Some (Ptrs (map Ptr (seq (length h0 + 1) (2 * length headers))))
                        :: cstrings headers))
      with (length h0 + 1 + length (replicate (2 * length headers) (@None block)))
      by (rewrite !length_app; simpl; rewrite !length_replicate,
            length_cstrings; lia).
    rewrite head_tail_run. f_equal. unfold dispatch_heap, dispatch_events.
    rewrite !length_replicate. cbn [length replicate seq map app].
    rewrite Nat.add_0_r. f_equal. by rewrite <- !app_assoc.
  - split.
    + destruct Hinst as [->|(-> & -> & Hp)].
      * left. unfold W1. f_equal.
        rewrite <- (app_nil_r (cstrings headers)). apply read_marshalled.
      * right. repeat split. by destruct (use_sync_xhr this), Hp.
    + intros Hs. apply Hsync. rewrite Hs. by left.
Qed.

Lemma dispatch_run this v info h0 T :
  exists installed reply,
    dispatch env this v info (mkWorld h0 T)
    = ((fun r => (r, verb_info v info r)) <$> verb_response v reply,
       mkWorld (dispatch_heap h0 (length (info_headers info)) (verb_cells v info) reply)
         (T ++ dispatch_events (length h0) (length (info_headers info))
                 (verb_cells v info) installed
                 (primitive_for (use_sync_xhr this) v) reply
                 (verb_handler v info)))
    /\ installs_ok env (use_sync_xhr this) (info_headers info) installed reply.
Proof.
  destruct v; cbn [dispatch verb_cells verb_handler verb_response verb_info];
    unfold Get, Head, Post, Put, Delete; rewrite bind_run.
  all:
    match goal with
    | |- context [DoRequest env ?c ?m ?u ?h ?b ?l ?ch (mkWorld ?h1 ?T1)] =>
        destruct (DoRequest_run c m u h b l ch h1 T1)
          as (installed & reply & -> & Hinst)
    | |- context [DoHeadRequest env ?c ?u ?h (mkWorld ?h1 ?T1)] =>
        destruct (DoHeadRequest_run c u h h1 T1)
          as (installed & reply & -> & Hinst)
    end.
  all: exists installed, reply; split; [|done].
  all: destruct (use_sync_xhr this); cbn [primitive_for payload_cells].
  all: match goal with
       | |- context [request_response ?r] => destruct (request_response r)
       | |- context [head_response ?r] => destruct (head_response r)
       end; reflexivity.
Qed.

(** *** Reading the events of a dispatch *)

Lemma omap_map_none {A B C} (f : B -> option C) (g : A -> B) (l : list A) :
  (forall x, f (g x) = None) -> omap f (map g l) = [].
Proof. intros H. induction l as [|x l IH]; [done|]. simpl. by rewrite H. Qed.

Lemma omap_map_some {A B} (f : B -> option A) (g : A -> B) (l : list A) :
  (forall x, f (g x) = Some x) -> omap f (map g l) = l.
Proof.
  intros H. induction l as [|x l IH]; [done|].
  change (omap f (map g (x :: l)))
    with (match f (g x) with
          | Some y => y :: omap f (map g l)
          | None => omap f (map g l)
          end).
  by rewrite H, IH.
Qed.

Lemma In_host_calls p reply evs :
  In (EvHost p reply) evs <-> In (p, reply) (host_calls evs).
Proof.
  unfold host_calls. rewrite <- !list_elem_of_In, list_elem_of_omap. split.
  - intros H. by exists (EvHost p reply).
  - intros (e & He & Hf). destruct e; simplify_eq. done.
Qed.

Ltac project_events :=
  unfold dispatch_events, header_events, probes, host_calls, contents,
    installed_headers, mallocs, frees;
  rewrite ?omap_app;
  repeat match goal with
         | |- context [EvMalloc ?a :: map EvMalloc ?l] =>
             change (EvMalloc a :: map EvMalloc l) with (map EvMalloc (a :: l))
         | |- context [[EvFree ?a]] => change [EvFree a] with (map EvFree [a])
         end;
  rewrite ?(omap_map_none _ EvMalloc), ?(omap_map_none _ EvFree),
    ?(omap_map_none _ (fun nv : string * string => EvSetHeader nv.1 nv.2)),
    ?(omap_map_some _ EvMalloc), ?(omap_map_some _ EvFree),
    ?(omap_map_some _ (fun nv : string * string => EvSetHeader nv.1 nv.2))
    by (done || by intros []);
  unfold reply_events, decode_events.

Lemma probes_dispatch n count pc installed p reply handler :
  probes (dispatch_events n count pc installed p reply handler) = [].
Proof.
  project_events. destruct reply as [buffer|]; [|done].
  by destruct (Wire.decode_wire buffer), handler.
Qed.

Lemma host_calls_dispatch n count pc installed p reply handler :
  host_calls (dispatch_events n count pc installed p reply handler) = [(p, reply)].
Proof.
  project_events. destruct reply as [buffer|]; [|done].
  by destruct (Wire.decode_wire buffer), handler.
Qed.

Lemma installed_dispatch n count pc installed p reply handler :
  installed_headers (dispatch_events n count pc installed p reply handler)
  = installed.
Proof.
  project_events. destruct reply as [buffer|]; simpl; rewrite ?app_nil_r; [|done].
  destruct (Wire.decode_wire buffer), handler; simpl; by rewrite ?app_nil_r.
Qed.

Lemma contents_dispatch n count pc installed p reply handler :
  contents (dispatch_events n count pc installed p reply handler)
  = match reply ≫= Wire.decode_wire with
    | Some payload => if handler then [payload] else []
    | None => []
    end.
Proof.
  project_events. destruct reply as [buffer|]; [|done]. simpl.
  by destruct (Wire.decode_wire buffer), handler.
Qed.

(** A dispatch from any world: its events, its heap, its result. *)
Lemma dispatch_cases this v info w :
  exists installed reply,
    new_events w (dispatch env this v info w).2
    = dispatch_events (length (heap w)) (length (info_headers info))
        (verb_cells v info) installed (primitive_for (use_sync_xhr this) v) reply
        (verb_handler v info)
    /\ trace (dispatch env this v info w).2
       = trace w ++ new_events w (dispatch env this v info w).2
    /\ heap (dispatch env this v info w).2
       = dispatch_heap (heap w) (length (info_headers info)) (verb_cells v info) reply
    /\ (dispatch env this v info w).1
       = (fun r => (r, verb_info v info r)) <$> verb_response v reply
    /\ installs_ok env (use_sync_xhr this) (info_headers info) installed reply.
Proof.
  destruct w as [h0 T].
  destruct (dispatch_run this v info h0 T) as (installed & reply & -> & Hinst).
  exists installed, reply. cbn [fst snd heap trace].
  by rewrite (new_events_app (mkWorld h0 T)).
Qed.

(** A reply that is null or well formed is turned into a response. *)
Lemma verb_response_Some v reply :
  (forall buffer, reply = Some buffer -> Wire.wire_ok buffer = true) ->
  is_Some (verb_response v reply).
Proof.
  intros Hok. destruct reply as [buffer|]; [|by destruct v; eexists].
  specialize (Hok buffer eq_refl). apply bool_decide_eq_true in Hok.
  destruct Hok as [payload Hp].
  destruct v; cbn [verb_response request_response head_response]; rewrite Hp; eauto.
Qed.

Lemma fold_update_headers lines : forall res,
  let res' := foldl (fun res line => update_headers res (parse_line line)) res lines in
  status res' = status res /\ reason res' = reason res /\ body res' = body res
  /\ headers res' = foldl (fun hs line => parse_line line hs) (headers res) lines.
Proof.
  induction lines as [|l ls IH]; intros res; [done|]. simpl.
  destruct (IH (update_headers res (parse_line l))) as (? & ? & ? & ?).
  by repeat split.
Qed.

Lemma verb_response_status v reply r :
  verb_response v reply = Some r ->
  match reply with
  | None => status r = NotFound_404 /\ reason r <> EmptyString
            /\ body r = EmptyString /\ headers r = []
  | Some buffer =>
      status r = OK_200
      /\ exists payload, Wire.decode_wire buffer = Some payload
           /\ (v <> HEAD -> body r = payload /\ headers r = [])
           /\ (v = HEAD -> body r = EmptyString
                           /\ headers r = parse_header_block payload)
  end.
Proof.
  destruct reply as [buffer|].
  - assert (Hcases : v = HEAD \/ v <> HEAD) by (destruct v; auto).
    destruct Hcases as [->|Hv].
    + cbn [verb_response head_response].
      destruct (Wire.decode_wire buffer) as [payload|]; intros [= <-].
      destruct (fold_update_headers (Split payload CRLF) (make_response OK_200))
        as (Hs & _ & Hb & Hh).
      split; [done|]. exists payload. by repeat split.
    + replace (verb_response v (Some buffer)) with (request_response (Some buffer))
        by (by destruct v).
      cbn [request_response].
      destruct (Wire.decode_wire buffer) as [payload|]; intros [= <-].
      split; [done|]. exists payload. by repeat split.
  - destruct v; intros [= <-]; by repeat split.
Qed.

(** *** Allocations and releases of a dispatch *)

Lemma dispatch_events_split n count pc installed p reply handler :
  dispatch_events n count pc installed p reply handler
  = events_before n count pc installed reply
      ++ EvHost p reply :: events_after n count pc reply handler.
Proof.
  unfold dispatch_events, events_before, events_after, reply_events.
  rewrite <- !app_assoc. reflexivity.
Qed.

Lemma mallocs_before n count pc installed reply :
  mallocs (events_before n count pc installed reply)
  = seq n (1 + 2 * count + length pc)
      ++ reply_slot (n + 1 + 2 * count + length pc) reply.
Proof.
  unfold events_before. project_events.
  replace (1 + 2 * count + length pc) with (S (2 * count) + length pc) by lia.
  rewrite seq_app. cbn [seq]. rewrite !app_nil_l.
  replace (n + 1) with (S n) by lia.
  replace (n + S (2 * count)) with (S n + 2 * count) by lia.
  rewrite <- app_assoc. by destruct reply.
Qed.

Lemma frees_before n count pc installed reply :
  frees (events_before n count pc installed reply) = [].
Proof. unfold events_before. project_events. by destruct reply. Qed.

Lemma mallocs_after n count pc reply handler :
  mallocs (events_after n count pc reply handler) = [].
Proof.
  unfold events_after. project_events. destruct reply as [buffer|]; [|done].
  by destruct (Wire.decode_wire buffer), handler.
Qed.

Lemma frees_after n count pc reply handler :
  (forall buffer, reply = Some buffer -> Wire.wire_ok buffer = true) ->
  frees (events_after n count pc reply handler)
  = seq (n + 1) (2 * count) ++ n :: seq (n + 1 + 2 * count) (length pc)
      ++ reply_slot (n + 1 + 2 * count + length pc) reply.
Proof.
  intros Hok. unfold events_after. project_events.
  rewrite <- !app_assoc. cbn [app]. do 3 f_equal.
  destruct reply as [buffer|]; [|done].
  specialize (Hok buffer eq_refl). apply bool_decide_eq_true in Hok as [? ->].
  by destruct handler.
Qed.

Lemma last_after n count pc buffer handler :
  Wire.wire_ok buffer = true ->
  last (events_after n count pc (Some buffer) handler)
  = Some (EvFree (n + 1 + 2 * count + length pc)).
Proof.
  intros Hok. apply bool_decide_eq_true in Hok as [payload Hp].
  unfold events_after, decode_events. rewrite Hp, !app_assoc.
  apply last_snoc.
Qed.

Lemma dispatch_heap_freed h0 count pc reply :
  (forall buffer, reply = Some buffer -> Wire.wire_ok buffer = true) ->
  dispatch_heap h0 count pc reply
  = h0 ++ replicate (length (seq (length h0) (1 + 2 * count + length pc)
                               ++ reply_slot (length h0 + 1 + 2 * count + length pc)
                                    reply)) None.
Proof.
  intros Hok. unfold dispatch_heap. f_equal.
  rewrite length_app, length_seq.
  replace (1 + 2 * count + length pc + length (reply_slot _ reply))
    with (S (2 * count + (length pc + length (reply_slot 0 reply))))
    by (destruct reply; simpl; lia).
  rewrite replicate_S, !replicate_add. do 3 f_equal.
  destruct reply as [buffer|]; [|done].
  specialize (Hok buffer eq_refl). apply bool_decide_eq_true in Hok as [? Hp].
  unfold decode_cells. by rewrite Hp.
Qed.


(** *** A sequence of dispatches *)

Lemma session_run this calls : forall w,
  exists evs,
    trace (session env this calls w).2 = trace w ++ evs
    /\ probes evs = []
    /\ Forall (fun pr => exists v, pr.1 = primitive_for (use_sync_xhr this) v)
         (host_calls evs)
    /\ ((forall p buffer, In (EvHost p (Some buffer)) evs ->
           Wire.wire_ok buffer = true) ->
        exists rs,
          (session env this calls w).1 = Some rs
          /\ length rs = length calls
          /\ map fst (host_calls evs)
             = map (fun c => primitive_for (use_sync_xhr this) c.1) calls).
Proof.
  induction calls as [|[v info] calls IH]; intros w.
  - exists []. simpl. rewrite app_nil_r. repeat split; eauto.
  - cbn [session]. rewrite bind_run.
    destruct (dispatch_cases this v info w)
      as (installed & reply & Hevs & Htr & _ & Hres & _).
    destruct (dispatch env this v info w) as [o w1]. cbn [fst snd] in *.
    rewrite Hevs in Htr. clear Hevs. subst o.
    set (devs := dispatch_events _ _ _ _ _ _ _) in *.
    assert (Hcalls : host_calls devs = [(primitive_for (use_sync_xhr this) v, reply)])
      by apply host_calls_dispatch.
    assert (Hprobes : probes devs = []) by apply probes_dispatch.
    destruct (verb_response v reply) as [r|] eqn:Hr; cbn [fmap option_fmap option_map].
    + rewrite bind_run. destruct (IH w1) as (evs' & Htr' & Hp' & Hf' & Hok').
      destruct (session env this calls w1) as [o' w2]. cbn [fst snd] in *.
      exists (devs ++ evs').
      assert (Hw2 : (match o' with
                     | Some rs => (mret (r :: rs) : M (list HTTPResponse)) w2
                     | None => (None, w2)
                     end).2 = w2) by (by destruct o').
      split; [|split; [|split]].
      * rewrite Hw2. by rewrite Htr', Htr, app_assoc.
      * unfold probes in *. by rewrite omap_app, Hprobes, Hp'.
      * unfold host_calls in *. rewrite omap_app, Hcalls.
        apply Forall_app. split; [|done]. repeat constructor. by exists v.
      * intros Hok. destruct Hok' as (rs & -> & Hlen & Hmap).
        { intros p buffer Hin. apply (Hok p). apply in_or_app. by right. }
        exists (r :: rs). split; [done|]. split; [simpl; lia|].
        unfold host_calls in *. rewrite omap_app, Hcalls, map_app, Hmap.
        reflexivity.
    + exists devs. split; [done|]. split; [done|]. split.
      * rewrite Hcalls. repeat constructor. by exists v.
      * intros Hok. destruct (verb_response_Some v reply) as [r Hr']; [|congruence].
        intros buffer ->. apply (Hok (primitive_for (use_sync_xhr this) v)).
        apply In_host_calls. rewrite Hcalls. by left.
Qed.

Lemma lifetime_run proto_host_port calls w :
  let this := mkClient proto_host_port (has_xhr env (trace w) =? 1)%Z in
  let w1 := mkWorld (heap w) (trace w ++ [EvProbe (has_xhr env (trace w))]) in
  lifetime env proto_host_port calls w
  = ((fun rs => (this, rs)) <$> (session env this calls w1).1,
     (session env this calls w1).2).
Proof.
  intros this w1. unfold lifetime, construct. rewrite bind_run.
  unfold get_world at 1. cbv beta iota. rewrite !bind_run.
  unfold emit at 1. cbv beta iota. rewrite ret_run. cbv beta iota.
  fold this w1. rewrite bind_run.
  by destruct (session env this calls w1) as [[rs|] w2].
Qed.

End Dispatch.

(** *** The layout [PrepareHeaders] leaves on the heap *)




End BridgeFacts.

(** ** The primitives and one dispatch, in explicit form *)

Module SyncFacts.
Import Mem Bridge HeaderCodec Shape MemFacts BridgeFacts Browser.

Section Sync.
Context (env : Env).

Lemma body_data_heap w w' p len :
  heap w = heap w' -> body_data w p len = body_data w' p len.
Proof.
  intros Hh. unfold body_data, HEAPU8, lookup_block. by rewrite Hh.
Qed.

(** The synchronous primitives when XMLHttpRequest exists: the reply
    is made of the outcome of [xhr.send]. *)
Lemma em_sync_request_browser url method count arr body len w :
  xhr_defined env (trace w) = true ->
  let installed := accepted env (read_headers w arr 0 count) in
  let reply :=
    sync_reply false
      (xhr_send env (trace w ++ header_events installed)
         (mkHostRequest (Str.c_str method) (Str.c_str url) installed
            (body_data w body len))) in
  em_sync_request env url method count arr body len w
  = (Some (reply_ptr (length (heap w)) reply),
     after_host w installed SyncRequest reply).
Proof.
  intros Hdef installed reply. unfold em_sync_request. rewrite bind_run.
  unfold get_world at 1. cbv beta iota. rewrite Hdef. cbn [negb].
  rewrite bind_run, install_headers_run. cbv beta iota.
  rewrite bind_run. unfold get_world at 1. cbv beta iota. cbn [trace app].
  rewrite (body_data_heap _ w) by done. fold installed.
  subst reply. unfold sync_reply.
  destruct (xhr_send env _ _) as [|st rb rh]; [|destruct (request_failed st)];
    by rewrite host_return_run.
Qed.

Lemma em_sync_head_request_browser url count arr w :
  xhr_defined env (trace w) = true ->
  let installed := accepted env (read_headers w arr 0 count) in
  let reply :=
    sync_reply true
      (xhr_send env (trace w ++ header_events installed)
         (mkHostRequest "HEAD" (Str.c_str url) installed None)) in
  em_sync_head_request env url count arr w
  = (Some (reply_ptr (length (heap w)) reply),
     after_host w installed SyncHead reply).
Proof.
  intros Hdef installed reply. unfold em_sync_head_request. rewrite bind_run.
  unfold get_world at 1. cbv beta iota. rewrite Hdef. cbn [negb].
  rewrite bind_run, install_headers_run. cbv beta iota.
  rewrite bind_run. unfold get_world at 1. cbv beta iota. cbn [trace app].
  fold installed. subst reply. unfold sync_reply.
  destruct (xhr_send env _ _) as [|st rb rh]; [|destruct (request_failed st)];
    by rewrite host_return_run.
Qed.

(** The synchronous primitives when XMLHttpRequest is missing: null,
    and nothing is installed. *)
Lemma em_sync_request_missing url method count arr body len w :
  xhr_defined env (trace w) = false ->
  em_sync_request env url method count arr body len w
  = (Some nullptr, after_host w [] SyncRequest None).
Proof.
  intros Hdef. unfold em_sync_request. rewrite bind_run.
  unfold get_world at 1. cbv beta iota. rewrite Hdef. cbn [negb].
  destruct w as [h T]. rewrite host_return_run. cbn [heap reply_ptr].
  f_equal. apply after_host_nothing.
Qed.

Lemma em_sync_head_request_missing url count arr w :
  xhr_defined env (trace w) = false ->
  em_sync_head_request env url count arr w
  = (Some nullptr, after_host w [] SyncHead None).
Proof.
  intros Hdef. unfold em_sync_head_request. rewrite bind_run.
  unfold get_world at 1. cbv beta iota. rewrite Hdef. cbn [negb].
  destruct w as [h T]. rewrite host_return_run. cbn [heap reply_ptr].
  f_equal. apply after_host_nothing.
Qed.

Lemma body_sent body_data body_len h0 x tail T :
  Bridge.body_data
    (mkWorld (h0 ++ x :: tail ++ payload_cells body_data body_len) T)
    (payload_ptr (length h0 + 1 + length tail) (payload_cells body_data body_len))
    (Wire.to_int32 body_len)
  = sent_body body_data body_len.
Proof.
  unfold payload_cells, sent_body.
  destruct body_data as [bytes|]; [|done].
  destruct (0 <? body_len)%Z; [|done].
  cbn [payload_ptr]. unfold Bridge.body_data, HEAPU8.
  rewrite lookup_block_tail, list_lookup_middle by done. reflexivity.
Qed.

(** A request, given what the primitive did. *)
Lemma DoRequest_host this method url headers body_data body_len handler h0 T
    installed reply :
  (if use_sync_xhr this
   then em_sync_request env (NormalizeUrl (host_port this) url) method
          (length headers) (Ptr (length h0))
          (payload_ptr (length h0 + 1 + length (cstrings headers))
             (payload_cells body_data body_len))
          (Wire.to_int32 body_len)
   else em_async_request env (NormalizeUrl (host_port this) url) method
          (length headers) (Ptr (length h0))
          (payload_ptr (length h0 + 1 + length (cstrings headers))
             (payload_cells body_data body_len))
          (Wire.to_int32 body_len))
    (mkWorld
       (h0 ++ Some (Ptrs (map Ptr (seq (length h0 + 1) (2 * length headers))))
           :: cstrings headers ++ payload_cells body_data body_len)
       ((T ++ EvMalloc (length h0)
              :: map EvMalloc (seq (length h0 + 1) (2 * length headers)))
          ++ map EvMalloc (seq (length h0 + 1 + length (cstrings headers))
                             (length (payload_cells body_data body_len)))))
  = (Some (reply_ptr
             (length (h0 ++ Some (Ptrs (map Ptr (seq (length h0 + 1)
                                                   (2 * length headers))))
                         :: cstrings headers ++ payload_cells body_data body_len))
             reply),
     after_host
       (mkWorld
          (h0 ++ Some (Ptrs (map Ptr (seq (length h0 + 1) (2 * length headers))))
              :: cstrings headers ++ payload_cells body_data body_len)
          ((T ++ EvMalloc (length h0)
                 :: map EvMalloc (seq (length h0 + 1) (2 * length headers)))
             ++ map EvMalloc (seq (length h0 + 1 + length (cstrings headers))
                                (length (payload_cells body_data body_len)))))
       installed (if use_sync_xhr this then SyncRequest else AsyncRequest) reply) ->
  DoRequest env this method url headers body_data body_len handler (mkWorld h0 T)
  = (request_response reply,
     mkWorld (dispatch_heap h0 (length headers)
                (payload_cells body_data body_len) reply)
       (T ++ dispatch_events (length h0) (length headers)
               (payload_cells body_data body_len) installed
               (if use_sync_xhr this then SyncRequest else AsyncRequest)
               reply handler)).
Proof.
  intros Hrun.
  unfold DoRequest. rewrite bind_run, PrepareHeaders_run. cbv beta iota zeta.
  rewrite bind_run, payload_run. rewrite bind_run.
  rewrite Hrun. clear Hrun.
  set (pc := payload_cells body_data body_len).
  cbv beta iota. unfold after_host. cbn [heap trace].
  rewrite <- (app_assoc h0), <- app_comm_cons, <- (app_assoc (cstrings headers)).
  rewrite (free_arguments_run _ headers h0 pc (reply_cells reply))
    by apply payload_cells_cases.
  replace (length (h0 ++ Some (Ptrs (map Ptr (seq (length h0 + 1) (2 * length headers))))
                      :: cstrings headers ++ pc))
    with (length h0 + 1 + length (replicate (2 * length headers) (@None block)
                                    ++ replicate (length pc) None))
    by (rewrite !length_app; simpl; rewrite !length_app, !length_replicate,
          length_cstrings; lia).
  rewrite (app_assoc (replicate (2 * length headers) None)).
  rewrite request_tail_run. f_equal. unfold dispatch_heap, dispatch_events.
  rewrite !length_app, !length_replicate, length_cstrings.
  f_equal.
  - by rewrite <- !app_assoc.
  - rewrite <- !app_assoc. cbn [app].
    replace (length h0 + 1 + (2 * length headers + length pc))
      with (length h0 + 1 + 2 * length headers + length pc) by lia.
    reflexivity.
Qed.

Lemma DoHeadRequest_host this url headers h0 T installed reply :
  (if use_sync_xhr this
   then em_sync_head_request env (NormalizeUrl (host_port this) url)
          (length headers) (Ptr (length h0))
   else em_async_head_request env (NormalizeUrl (host_port this) url)
          (length headers) (Ptr (length h0)))
    (mkWorld
       (h0 ++ Some (Ptrs (map Ptr (seq (length h0 + 1) (2 * length headers))))
           :: cstrings headers)
       (T ++ EvMalloc (length h0)
             :: map EvMalloc (seq (length h0 + 1) (2 * length headers))))
  = (Some (reply_ptr
             (length (h0 ++ Some (Ptrs (map Ptr (seq (length h0 + 1)
                                                   (2 * length headers))))
                         :: cstrings headers))
             reply),
     after_host
       (mkWorld
          (h0 ++ Some (Ptrs (map Ptr (seq (length h0 + 1) (2 * length headers))))
              :: cstrings headers)
          (T ++ EvMalloc (length h0)
                :: map EvMalloc (seq (length h0 + 1) (2 * length headers))))
       installed (if use_sync_xhr this then SyncHead else AsyncHead) reply) ->
  DoHeadRequest env this url headers (mkWorld h0 T)
  = (head_response reply,
     mkWorld (dispatch_heap h0 (length headers) [] reply)
       (T ++ dispatch_events (length h0) (length headers) [] installed
               (if use_sync_xhr this then SyncHead else AsyncHead)
               reply false)).
Proof.
  intros Hrun.
  unfold DoHeadRequest. rewrite bind_run, PrepareHeaders_run. cbv beta iota zeta.
  rewrite bind_run. rewrite Hrun. clear Hrun.
  cbv beta iota. unfold after_host. cbn [heap trace].
  rewrite <- (app_assoc h0), <- app_comm_cons.
  rewrite bind_run, FreeHeaders_run. cbv beta iota.
  replace (length (h0 ++ Some (Ptrs (map Ptr (seq (length h0 + 1) (2 * length headers))))
                      :: cstrings headers))
    with (length h0 + 1 + length (replicate (2 * length headers) (@None block)))
    by (rewrite !length_app; simpl; rewrite !length_replicate,
          length_cstrings; lia).
  rewrite head_tail_run. f_equal. unfold dispatch_heap, dispatch_events.
  rewrite !length_replicate. cbn [length replicate seq map app].
  rewrite Nat.add_0_r. f_equal. by rewrite <- !app_assoc.
Qed.

Lemma read_marshalled_nil headers h0 T :
  read_headers
    (mkWorld (h0 ++ Some (Ptrs (map Ptr (seq (length h0 + 1) (2 * length headers))))
                 :: cstrings headers) T)
    (Ptr (length h0)) 0 (length headers)
  = marshalled headers.
Proof.
  rewrite <- (app_nil_r (cstrings headers)). apply read_marshalled.
Qed.

(** A request in browser mode, with XMLHttpRequest in place. *)
Lemma DoRequest_sync this method url headers body_data body_len handler h0 T :
  use_sync_xhr this = true ->
  (forall T', xhr_defined env T' = true) ->
  let pc := payload_cells body_data body_len in
  let reply :=
    sync_reply false
      (xhr_send env (T ++ events_to_send env (length h0) headers (length pc))
         (mkHostRequest (Str.c_str method)
            (Str.c_str (NormalizeUrl (host_port this) url))
            (accepted env (marshalled headers))
            (sent_body body_data body_len))) in
  DoRequest env this method url headers body_data body_len handler (mkWorld h0 T)
  = (request_response reply,
     mkWorld (dispatch_heap h0 (length headers) pc reply)
       (T ++ dispatch_events (length h0) (length headers) pc
               (accepted env (marshalled headers)) SyncRequest reply handler)).
Proof.
  intros Hsync Hdef pc reply.
  pose proof (DoRequest_host this method url headers body_data body_len handler
                h0 T) as Hhost.
  rewrite Hsync in Hhost. apply Hhost. clear Hhost.
  rewrite em_sync_request_browser by apply Hdef.
  cbv zeta. cbn [heap trace].
  rewrite read_marshalled, body_sent, length_cstrings.
  subst reply pc. unfold events_to_send. rewrite <- !app_assoc. reflexivity.
Qed.

Lemma DoHeadRequest_sync this url headers h0 T :
  use_sync_xhr this = true ->
  (forall T', xhr_defined env T' = true) ->
  let reply :=
    sync_reply true
      (xhr_send env (T ++ events_to_send env (length h0) headers 0)
         (mkHostRequest "HEAD"
            (Str.c_str (NormalizeUrl (host_port this) url))
            (accepted env (marshalled headers)) None)) in
  DoHeadRequest env this url headers (mkWorld h0 T)
  = (head_response reply,
     mkWorld (dispatch_heap h0 (length headers) [] reply)
       (T ++ dispatch_events (length h0) (length headers) []
               (accepted env (marshalled headers)) SyncHead reply false)).
Proof.
  intros Hsync Hdef reply.
  pose proof (DoHeadRequest_host this url headers h0 T) as Hhost.
  rewrite Hsync in Hhost. apply Hhost. clear Hhost.
  rewrite em_sync_head_request_browser by apply Hdef.
  cbv zeta. cbn [heap trace].
  rewrite read_marshalled_nil.
  subst reply. unfold events_to_send. cbn [seq map]. rewrite app_nil_l.
  rewrite <- !app_assoc. reflexivity.
Qed.

(** One dispatch in browser mode, with XMLHttpRequest in place. *)
Lemma dispatch_sync this v info h0 T :
  use_sync_xhr this = true ->
  (forall T', xhr_defined env T' = true) ->
  let reply := sync_reply (is_head v) (outcome env this v info (mkWorld h0 T)) in
  dispatch env this v info (mkWorld h0 T)
  = ((fun r => (r, verb_info v info r)) <$> verb_response v reply,
     mkWorld (dispatch_heap h0 (length (info_headers info)) (verb_cells v info) reply)
       (T ++ dispatch_events (length h0) (length (info_headers info))
               (verb_cells v info)
               (accepted env (marshalled (info_headers info)))
               (primitive_for true v) reply (verb_handler v info))).
Proof.
  intros Hsync Hdef reply.
  subst reply. unfold outcome, browser_request.
  cbn [heap trace].
  destruct v; cbn [dispatch verb_cells verb_handler verb_response verb_info
                     is_head verb_method verb_body primitive_for];
    unfold Get, Head, Post, Put, Delete; rewrite bind_run;
    rewrite ?DoRequest_sync, ?DoHeadRequest_sync by done;
    cbv zeta; cbn [payload_cells length sent_body];
    try change (Str.c_str "GET") with "GET";
    try change (Str.c_str "POST") with "POST";
    try change (Str.c_str "PUT") with "PUT";
    try change (Str.c_str "DELETE") with "DELETE";
    match goal with
    | |- context [request_response ?r] => destruct (request_response r)
    | |- context [head_response ?r] => destruct (head_response r)
    end; reflexivity.
Qed.






(** One dispatch in browser mode when XMLHttpRequest is missing. *)
Lemma dispatch_missing this v info h0 T :
  use_sync_xhr this = true ->
  (forall T', xhr_defined env T' = false) ->
  dispatch env this v info (mkWorld h0 T)
  = ((fun r => (r, verb_info v info r)) <$> verb_response v None,
     mkWorld (dispatch_heap h0 (length (info_headers info)) (verb_cells v info) None)
       (T ++ dispatch_events (length h0) (length (info_headers info))
               (verb_cells v info) [] (primitive_for true v) None
               (verb_handler v info))).
Proof.
  intros Hsync Hdef.
  assert (Hreq : forall method body_data body_len handler,
    DoRequest env this method (url info) (info_headers info) body_data body_len
      handler (mkWorld h0 T)
    = (request_response None,
       mkWorld (dispatch_heap h0 (length (info_headers info))
                  (payload_cells body_data body_len) None)
         (T ++ dispatch_events (length h0) (length (info_headers info))
                 (payload_cells body_data body_len) [] SyncRequest None handler))).
  { intros method body_data body_len handler.
    pose proof (DoRequest_host this method (url info) (info_headers info)
                  body_data body_len handler h0 T [] None) as Hhost.
    rewrite Hsync in Hhost. apply Hhost.
    by rewrite em_sync_request_missing by apply Hdef. }
  assert (Hhead :
    DoHeadRequest env this (url info) (info_headers info) (mkWorld h0 T)
    = (head_response None,
       mkWorld (dispatch_heap h0 (length (info_headers info)) [] None)
         (T ++ dispatch_events (length h0) (length (info_headers info)) []
                 [] SyncHead None false))).
  { pose proof (DoHeadRequest_host this (url info) (info_headers info) h0 T
                  [] None) as Hhost.
    rewrite Hsync in Hhost. apply Hhost.
    by rewrite em_sync_head_request_missing by apply Hdef. }
  destruct v; cbn [dispatch verb_cells verb_handler verb_response verb_info
                     primitive_for];
    unfold Get, Head, Post, Put, Delete; rewrite bind_run;
    rewrite ?Hreq, ?Hhead; reflexivity.
Qed.

End Sync.

Lemma plain_no_NUL s : Text.plain s = true -> Text.no_NUL s = true.
Proof. unfold Text.plain. by intros [_ H]%andb_true_iff. Qed.

Lemma c_str_no_NUL s : Text.no_NUL s = true -> Str.c_str s = s.
Proof.
  induction s as [|c s IH]; [done|]. unfold Text.no_NUL. cbn [string_forall].
  intros [Hc Hs]%andb_true_iff. cbn [Str.c_str].
  apply negb_true_iff in Hc. rewrite Hc. f_equal. by apply IH.
Qed.

Lemma no_NUL_app s t :
  Text.no_NUL s = true -> Text.no_NUL t = true -> Text.no_NUL (s +:+ t) = true.
Proof.
  unfold Text.no_NUL. intros Hs Ht.
  rewrite HeaderFacts.string_forall_app. by rewrite Hs, Ht.
Qed.

Lemma no_NUL_NormalizeUrl host_port url :
  Text.no_NUL host_port = true -> Text.no_NUL url = true ->
  Text.no_NUL (NormalizeUrl host_port url) = true.
Proof.
  intros Hh Hu. rewrite UrlFacts.NormalizeUrl_unfold. cbv zeta.
  assert (Hr : Text.no_NUL (if String.prefix "/" url
                            then host_port +:+ url else url) = true).
  { destruct (String.prefix "/" url); [by apply no_NUL_app|done]. }
  destruct (_ || _); [done|]. by apply (no_NUL_app "https://").
Qed.

Lemma marshalled_no_NUL headers :
  Forall (fun h => Text.no_NUL h.1 = true /\ Text.no_NUL h.2 = true) headers ->
  marshalled headers = map (fun h => (rename_reserved h.1, h.2)) headers.
Proof.
  unfold marshalled. induction 1 as [|h headers [H1 H2] _ IH]; [done|].
  cbn [map]. by rewrite IH, !c_str_no_NUL.
Qed.

Lemma sent_body_small bytes :
  (Z.of_nat (String.length bytes) < 2^31)%Z ->
  sent_body (Some bytes) (Z.of_nat (String.length bytes))
  = if String.eqb bytes EmptyString then None else Some bytes.
Proof.
  intros Hlen. unfold sent_body.
  destruct bytes as [|c bytes]; [done|].
  set (s := String c bytes) in *. cbn [String.eqb].
  assert (0 < Z.of_nat (String.length s))%Z by (subst s; simpl; lia).
  assert (Hi : Wire.to_int32 (Z.of_nat (String.length s))
               = Z.of_nat (String.length s)).
  { unfold Wire.to_int32. rewrite Z.mod_small; lia. }
  rewrite Hi. destruct (Z.ltb_spec 0 (Z.of_nat (String.length s))); [|lia].
  rewrite Nat2Z.id. unfold Str.substr. by rewrite !StrFacts.substring_all.
Qed.

(** The request of a dispatch whose strings hold no NUL and whose
    body is shorter than 2^31 bytes. *)
Lemma request_plain env this v info :
  Text.no_NUL (host_port this) = true ->
  Text.no_NUL (url info) = true ->
  Forall (fun h => Text.no_NUL h.1 = true /\ Text.no_NUL h.2 = true)
    (info_headers info) ->
  (buffer_in_len info < 2^31)%Z ->
  browser_request env this v info
  = mkHostRequest (verb_method v)
      (NormalizeUrl (host_port this) (url info))
      (List.filter (fun nv => header_accepted env nv.1 nv.2)
         (map (fun h => (rename_reserved h.1, h.2)) (info_headers info)))
      (match v with
       | POST | PUT =>
           match buffer_in info with
           | Some bytes =>
               if String.eqb bytes EmptyString then None else Some bytes
           | None => None
           end
       | _ => None
       end).
Proof.
  intros Hh Hu Hhs Hlen. unfold browser_request.
  rewrite c_str_no_NUL by (by apply no_NUL_NormalizeUrl).
  rewrite marshalled_no_NUL by done.
  f_equal. unfold verb_body, buffer_in_len in *.
  destruct v; try done; destruct (buffer_in info) as [bytes|]; try done;
    by apply sent_body_small.
Qed.

End SyncFacts.

(** C9.  The ingestion helper rejects a null connection, a null table
    name, a null buffer and a zero length at once: it returns the
    failure status, calls nothing and leaves the state as it was. *)
Theorem insert_arrow_ipc_rejects_invalid {Db Conn : Type}
    (lib : Arrow.Libraries Db) (connection : option Conn)
    (table_name ipc_buffer : option string) (buffer_length : Z)
    (st : Arrow.State) :
  connection = None \/ table_name = None \/ ipc_buffer = None
    \/ buffer_length = 0%Z ->
  Arrow.duckdb_wasm_insert_arrow_ipc lib connection table_name ipc_buffer
    buffer_length st = (Arrow.DuckDBError, st).
Proof.
  intros H. unfold Arrow.duckdb_wasm_insert_arrow_ipc.
  destruct connection, table_name, ipc_buffer; try reflexivity.
  destruct H as [H|[H|[H| ->]]]; try discriminate. reflexivity.
Qed.

Lemma insert_arrow_ipc_rejects_invalid_witness :
  Arrow.duckdb_wasm_insert_arrow_ipc Arrow.counting_lib (Some tt) (Some "t")
    (Some "ARROW1") 0 (O, []) = (Arrow.DuckDBError, (O, [])).
Proof.
  apply (insert_arrow_ipc_rejects_invalid Arrow.counting_lib (Some tt) (Some "t")
           (Some "ARROW1") 0 (O, [])).
  right; right; right; reflexivity.
Defined.


(** ** The dispatcher *)

Import Mem Bridge.

Ltac solve_In := simpl; repeat (first [left; reflexivity | right]).

(** Two runs, evaluated: a Post served by a browser, and the life of a
    client whose host would answer a second probe differently. *)
Example post_served_by_browser :
  (Post (browser_serving "hello" "") (mkClient "https://h" true) example_info
     empty_world).1
  = Some (mkResponse OK_200 "" "hello" [],
          mkInfo "/data.parquet" [("Host", "example.com"); ("User-Agent", "x")]
            (Some "payload") "outhello" true).
Proof. vm_compute. reflexivity. Qed.

Example life_of_a_client :
  trace (lifetime fickle_browser "https://h" [(HEAD, example_info)] empty_world).2
  = [EvProbe 1; EvMalloc 0; EvMalloc 1; EvMalloc 2; EvMalloc 3; EvMalloc 4;
     EvSetHeader "X-Host-Override" "example.com"; EvSetHeader "X-User-Agent" "x";
     EvMalloc 5; EvHost SyncHead (Some (Wire.encode_wire "ETag: x"));
     EvFree 1; EvFree 2; EvFree 3; EvFree 4; EvFree 0; EvFree 5].
Proof. vm_compute. reflexivity. Qed.

(** C1, as stated, fails: the bridge reads the length it finds in the
    first four bytes without checking it against anything.  On a reply
    whose prefix announces nine bytes and which carries five, no verb
    returns a response. *)
Lemma dispatch_unchecked_reply_counterexample :
  let short := String "009" (String "000" (String "000" (String "000" "hello"))) in
  let run v := dispatch (worker_returning short) (mkClient "https://h" false) v
                 example_info empty_world in
  host_calls (new_events empty_world (run HEAD).2) = [(AsyncHead, Some short)]
  /\ Wire.read_length short = Some 9%Z
  /\ (run GET).1 = None /\ (run HEAD).1 = None /\ (run POST).1 = None
  /\ (run PUT).1 = None /\ (run DELETE).1 = None
  /\ ~ (forall v, exists r info', (run v).1 = Some (r, info')).
Proof.
  cbv zeta.
  split; [vm_compute; reflexivity|]. split; [vm_compute; reflexivity|].
  split; [vm_compute; reflexivity|]. split; [vm_compute; reflexivity|].
  split; [vm_compute; reflexivity|]. split; [vm_compute; reflexivity|].
  split; [vm_compute; reflexivity|].
  intros H. destruct (H HEAD) as (r & info' & Hr). vm_compute in Hr.
  discriminate Hr.
Qed.

(** C1, amended.  Whenever the primitive of a dispatch returned null or
    a wire buffer the decoder can read, the dispatch returns a
    response, for every verb: on a null reply the response has the
    not-found status, a non-empty reason, no headers and no body (for
    Head and for the other verbs alike), on a buffer it has the success
    status.  A response that is returned has the success or the
    not-found status and no other. *)
Theorem dispatch_returns_response (env : Env) (this : HTTPWasmClient)
    (v : Verb) (info : RequestInfo) (w : World) :
  let run := dispatch env this v info w in
  let evs := new_events w run.2 in
  (forall p reply, In (EvHost p reply) evs ->
     (forall buffer, reply = Some buffer -> Wire.wire_ok buffer = true) ->
     exists r info',
       run.1 = Some (r, info')
       /\ match reply with
          | None => status r = NotFound_404 /\ reason r <> EmptyString
                    /\ headers r = [] /\ body r = EmptyString
          | Some _ => status r = OK_200
          end)
  /\ (forall r info', run.1 = Some (r, info') ->
        status r = OK_200 \/ status r = NotFound_404).
Proof.
  intros run evs. subst run evs.
  destruct (BridgeFacts.dispatch_cases env this v info w)
    as (installed & reply & -> & _ & _ & -> & _).
  assert (Hret : forall r info',
    (fun r => (r, Shape.verb_info v info r)) <$> Shape.verb_response v reply
      = Some (r, info') -> Shape.verb_response v reply = Some r).
  { intros r info'. destruct (Shape.verb_response v reply); by intros [= -> _]. }
  split.
  - intros p x Hx%BridgeFacts.In_host_calls Hok.
    rewrite BridgeFacts.host_calls_dispatch in Hx.
    destruct Hx as [[= _ <-]|[]].
    destruct (BridgeFacts.verb_response_Some v reply Hok) as [r Hr].
    exists r, (Shape.verb_info v info r). rewrite Hr. split; [done|].
    apply BridgeFacts.verb_response_status in Hr.
    destruct reply; [by destruct Hr|].
    destruct Hr as (Hst & Hre & Hb & Hh). by repeat split.
  - intros r info' Hr%Hret%BridgeFacts.verb_response_status.
    destruct reply; destruct Hr as [Hst _]; auto.
Qed.

Lemma dispatch_returns_response_witness :
  (exists r info',
     (dispatch offline_worker (mkClient "https://h" false) HEAD example_info
        empty_world).1 = Some (r, info')
     /\ status r = NotFound_404 /\ reason r <> EmptyString /\ headers r = []
     /\ body r = EmptyString)
  /\ (exists r info',
        (dispatch (worker_returning Wire.hello_little_endian)
           (mkClient "https://h" false) PUT example_info empty_world).1
        = Some (r, info')
        /\ status r = OK_200).
Proof.
  split.
  - apply (proj1 (dispatch_returns_response offline_worker
             (mkClient "https://h" false) HEAD example_info empty_world)
             AsyncHead None).
    + vm_compute. solve_In.
    + intros buffer H. discriminate H.
  - apply (proj1 (dispatch_returns_response
             (worker_returning Wire.hello_little_endian)
             (mkClient "https://h" false) PUT example_info empty_world)
             AsyncRequest (Some Wire.hello_little_endian)).
    + vm_compute. solve_In.
    + intros buffer H. injection H as <-. reflexivity.
Defined.

(** C3, as stated, fails: on the buffer [0,0,0,5] ++ "hello" the bridge
    reads the little-endian length 5 * 2^24, so the read of the payload
    runs past the nine bytes of the buffer; no response with body
    "hello" is produced and the content handler is not invoked. *)
Lemma get_big_endian_prefix_counterexample :
  let run := Get (worker_returning Wire.hello_big_endian)
               (mkClient "https://h" false) example_info empty_world in
  host_calls (new_events empty_world run.2)
    = [(AsyncRequest, Some Wire.hello_big_endian)]
  /\ Wire.read_length Wire.hello_big_endian = Some 83886080%Z
  /\ ~ (exists r info', run.1 = Some (r, info') /\ status r = OK_200
                        /\ body r = "hello")
  /\ contents (new_events empty_world run.2) = [].
Proof.
  vm_compute. repeat split. by intros (r & info' & [=] & _).
Qed.

(** C3, amended.  A Get whose host primitive returns [5,0,0,0] ++
    "hello" yields a success response with body "hello"; a supplied
    content handler is invoked exactly once, with "hello", and nothing
    is passed to a handler that was not supplied. *)
Theorem get_little_endian_hello (env : Env) (this : HTTPWasmClient)
    (info : RequestInfo) (w : World) :
  let run := Get env this info w in
  let evs := new_events w run.2 in
  (exists p, In (EvHost p (Some Wire.hello_little_endian)) evs) ->
  exists r, run.1 = Some (r, info) /\ status r = OK_200 /\ body r = "hello"
    /\ contents evs = if content_handler info then ["hello"] else [].
Proof.
  intros run evs [p Hp]. subst run evs.
  change (Get env this info) with (dispatch env this GET info) in *.
  destruct (BridgeFacts.dispatch_cases env this GET info w)
    as (installed & reply & Hevs & _ & _ & -> & _).
  rewrite Hevs in *. apply BridgeFacts.In_host_calls in Hp.
  rewrite BridgeFacts.host_calls_dispatch in Hp. destruct Hp as [[= _ ->]|[]].
  rewrite BridgeFacts.contents_dispatch.
  eexists. split; [reflexivity|]. by repeat split.
Qed.

Lemma get_little_endian_hello_witness :
  exists r,
    (Get (worker_returning Wire.hello_little_endian) (mkClient "https://h" false)
       example_info empty_world).1 = Some (r, example_info)
    /\ status r = OK_200 /\ body r = "hello"
    /\ contents (new_events empty_world
         (Get (worker_returning Wire.hello_little_endian)
            (mkClient "https://h" false) example_info empty_world).2)
       = if content_handler example_info then ["hello"] else [].
Proof.
  apply (get_little_endian_hello (worker_returning Wire.hello_little_endian)
           (mkClient "https://h" false) example_info empty_world).
  exists AsyncRequest. vm_compute. solve_In.
Defined.

(** C10.  Post appends the body of a success response to the caller's
    output buffer and changes nothing else; when the host call fails the
    response is not-found and the request descriptor, output buffer
    included, is returned as it was; Put and Delete always return the
    descriptor as it was. *)
Theorem post_appends_on_success (env : Env) (this : HTTPWasmClient)
    (info : RequestInfo) (w : World) :
  (forall r info', (Post env this info w).1 = Some (r, info') ->
     (status r = OK_200 ->
        info' = mkInfo (url info) (info_headers info) (buffer_in info)
                  (buffer_out info +:+ body r) (content_handler info))
     /\ (status r <> OK_200 -> info' = info))
  /\ (forall p, In (EvHost p None) (new_events w (Post env this info w).2) ->
        exists r, (Post env this info w).1 = Some (r, info)
                  /\ status r = NotFound_404)
  /\ (forall r info', (Put env this info w).1 = Some (r, info') -> info' = info)
  /\ (forall r info', (Delete env this info w).1 = Some (r, info') -> info' = info).
Proof.
  change (Post env this info) with (dispatch env this POST info).
  change (Put env this info) with (dispatch env this PUT info).
  change (Delete env this info) with (dispatch env this DELETE info).
  destruct (BridgeFacts.dispatch_cases env this POST info w)
    as (i1 & reply1 & Hevs & _ & _ & -> & _).
  destruct (BridgeFacts.dispatch_cases env this PUT info w)
    as (i2 & reply2 & _ & _ & _ & -> & _).
  destruct (BridgeFacts.dispatch_cases env this DELETE info w)
    as (i3 & reply3 & _ & _ & _ & -> & _).
  split; [|split; [|split]].
  - intros r info'.
    destruct (Shape.verb_response POST reply1) as [r0|]; simpl; intros [= <- <-].
    cbn [Shape.verb_info]. split; [by intros ->|by destruct (status r0)].
  - intros p Hp. rewrite Hevs in Hp. apply BridgeFacts.In_host_calls in Hp.
    rewrite BridgeFacts.host_calls_dispatch in Hp. destruct Hp as [[= _ ->]|[]].
    eexists. split; reflexivity.
  - intros r info'.
    destruct (Shape.verb_response PUT reply2); simpl; by intros [= _ <-].
  - intros r info'.
    destruct (Shape.verb_response DELETE reply3); simpl; by intros [= _ <-].
Qed.

Lemma post_appends_on_success_witness :
  exists r, (Post offline_worker (mkClient "https://h" false) example_info
               empty_world).1 = Some (r, example_info)
            /\ status r = NotFound_404.
Proof.
  apply (proj1 (proj2 (post_appends_on_success offline_worker
      (mkClient "https://h" false) example_info empty_world)) AsyncRequest).
  vm_compute. solve_In.
Defined.

(** ** Headers, allocations and the transport mode *)





(** C7.  Over the life of a client (construction, then any sequence of
    dispatches) the probe runs exactly once, as the first thing that
    happens; the client's mode is synchronous exactly when the probe
    answered 1; every host call of every later dispatch goes to a
    primitive of that mode, whatever the host would answer to a later
    probe; and when the replies are null or well formed, the life runs
    to its end with one host call per dispatch, each to the primitive
    of the cached mode. *)
Theorem probe_once_mode_cached (env : Env) (proto_host_port : string)
    (calls : list (Verb * RequestInfo)) (w : World) :
  let run := lifetime env proto_host_port calls w in
  let evs := new_events w run.2 in
  let probed := has_xhr env (trace w) in
  (exists rest, evs = EvProbe probed :: rest /\ probes rest = [])
  /\ Forall (fun pr => exists v, pr.1 = primitive_for (probed =? 1)%Z v)
       (host_calls evs)
  /\ (forall this rs, run.1 = Some (this, rs) ->
        use_sync_xhr this = (probed =? 1)%Z)
  /\ ((forall p buffer, In (EvHost p (Some buffer)) evs ->
         Wire.wire_ok buffer = true) ->
      exists this rs,
        run.1 = Some (this, rs)
        /\ length rs = length calls
        /\ map fst (host_calls evs)
           = map (fun c => primitive_for (probed =? 1)%Z c.1) calls).
Proof.
  intros run evs probed. subst run evs.
  rewrite BridgeFacts.lifetime_run. cbn [fst snd]. fold probed.
  set (this := mkClient proto_host_port (probed =? 1)%Z).
  set (w1 := mkWorld (heap w) (trace w ++ [EvProbe probed])).
  destruct (BridgeFacts.session_run env this calls w1)
    as (sevs & Htr & Hprobes & Hmode & Hok).
  assert (Hevs : new_events w (session env this calls w1).2 = EvProbe probed :: sevs).
  { unfold new_events. rewrite Htr. subst w1. cbn [trace].
    by rewrite <- app_assoc, drop_app_length. }
  rewrite Hevs. split; [by exists sevs|]. split; [exact Hmode|]. split.
  - intros this' rs. by destruct (session env this calls w1).1; intros [= <- _].
  - intros Hwire. destruct Hok as (rs & Hrs & Hlen & Hmap).
    { intros p buffer Hin. apply (Hwire p). by right. }
    exists this, rs. rewrite Hrs. by repeat split.
Qed.

Lemma probe_once_mode_cached_witness :
  exists this rs,
    (lifetime fickle_browser "https://h"
       [(GET, example_info); (HEAD, example_info); (POST, example_info)]
       empty_world).1 = Some (this, rs)
    /\ length rs = 3%nat
    /\ map fst (host_calls (new_events empty_world
         (lifetime fickle_browser "https://h"
            [(GET, example_info); (HEAD, example_info); (POST, example_info)]
            empty_world).2))
       = [SyncRequest; SyncHead; SyncRequest].
Proof.
  apply (proj2 (proj2 (proj2 (probe_once_mode_cached fickle_browser "https://h"
           [(GET, example_info); (HEAD, example_info); (POST, example_info)]
           empty_world)))).
  intros p buffer Hin. vm_compute in Hin.
  repeat (destruct Hin as [Hin|Hin];
          [try discriminate Hin; try (injection Hin as _ <-; reflexivity)|]).
  done.
Defined.

(** * Further properties of the code *)

(** ** URL normalisation *)

(** X1.  Whatever the origin and the url, the empty ones included, the
    url [NormalizeUrl] returns begins with "http://" or with
    "https://". *)
Theorem NormalizeUrl_has_scheme (host_port url : string) :
  String.prefix "http://" (NormalizeUrl host_port url)
    || String.prefix "https://" (NormalizeUrl host_port url) = true.
Proof. apply UrlFacts.has_scheme. Qed.

(** X2.  Normalising is idempotent: a url that [NormalizeUrl] returned
    is returned unchanged by a second pass, under any origin. *)
Theorem NormalizeUrl_idempotent (host_port host_port' url : string) :
  NormalizeUrl host_port' (NormalizeUrl host_port url)
  = NormalizeUrl host_port url.
Proof.
  pose proof (UrlFacts.has_scheme host_port url) as H.
  rewrite (UrlFacts.NormalizeUrl_unfold host_port'). cbv zeta.
  rewrite (UrlFacts.scheme_not_slash _ H). by rewrite H.
Qed.

(** ** The wire format, past the round trip *)

Module WireMore.
Import Wire.
Local Open Scope Z_scope.

Lemma Z_of_byte_range c : 0 <= Z_of_byte c < 256.
Proof.
  unfold Z_of_byte. pose proof (N_ascii_bounded c). lia.
Qed.

Lemma lor_disjoint a b k :
  0 <= k -> 0 <= a < 2^k -> Z.lor a (b * 2^k) = a + b * 2^k.
Proof.
  intros Hk Ha. rewrite <- Z.add_lor_land.
  replace (Z.land a (b * 2^k)) with 0; [lia|].
  symmetry. apply Z.bits_inj'. intros i Hi.
  rewrite Z.land_spec, Z.testbit_0_l.
  destruct (Z.lt_ge_cases i k) as [H|H].
  - by rewrite Z.mul_pow2_bits_low, andb_false_r by lia.
  - rewrite <- (Z.mod_small a (2^k)) by lia.
    by rewrite Z.mod_pow2_bits_high by lia.
Qed.

Lemma shifted_byte b k :
  0 <= b < 256 -> 0 <= k <= 24 -> to_uint32 (shl_int b k) = b * 2^k.
Proof.
  intros Hb Hk. unfold shl_int. rewrite WireFacts.to_uint32_to_int32.
  rewrite Z.shiftl_mul_pow2 by lia. apply Z.mod_small.
  assert (2^k <= 2^24) by (apply Z.pow_le_mono_r; lia). nia.
Qed.

Lemma read_length_bytes c0 c1 c2 c3 rest :
  read_length (String c0 (String c1 (String c2 (String c3 rest))))
  = Some (Z_of_byte c0 + 2^8 * Z_of_byte c1 + 2^16 * Z_of_byte c2
          + 2^24 * Z_of_byte c3).
Proof.
  pose proof (Z_of_byte_range c0). pose proof (Z_of_byte_range c1).
  pose proof (Z_of_byte_range c2). pose proof (Z_of_byte_range c3).
  unfold read_length. cbn [String.get mbind option_bind]. f_equal.
  unfold or_u32 at 4. rewrite Z.lor_0_l.
  unfold or_u32. rewrite !shifted_byte by lia.
  unfold to_uint32. rewrite (Z.mod_small (Z_of_byte c0)) by lia.
  rewrite (lor_disjoint (Z_of_byte c0) _ 8) by lia.
  rewrite (lor_disjoint _ _ 16) by lia.
  rewrite (lor_disjoint _ _ 24) by lia. lia.
Qed.

Lemma four_bytes result :
  (4 <= String.length result)%nat ->
  exists c0 c1 c2 c3 rest,
    result = String c0 (String c1 (String c2 (String c3 rest))).
Proof.
  destruct result as [|c0 [|c1 [|c2 [|c3 rest]]]]; simpl; try lia. eauto 6.
Qed.

Lemma read_length_short result :
  (String.length result < 4)%nat -> read_length result = None.
Proof.
  destruct result as [|c0 [|c1 [|c2 [|c3 rest]]]]; simpl; try lia; done.
Qed.

Lemma read_length_range result len :
  read_length result = Some len ->
  (4 <= String.length result)%nat /\ 0 <= len < 2^32.
Proof.
  intros H.
  destruct (Nat.lt_ge_cases (String.length result) 4) as [Hs|Hs];
    [by rewrite read_length_short in H|].
  split; [done|].
  destruct (four_bytes result Hs) as (c0 & c1 & c2 & c3 & rest & ->).
  rewrite read_length_bytes in H. injection H as <-.
  pose proof (Z_of_byte_range c0). pose proof (Z_of_byte_range c1).
  pose proof (Z_of_byte_range c2). pose proof (Z_of_byte_range c3). lia.
Qed.

Lemma substring_split s : forall n m,
  (n + m <= String.length s)%nat ->
  exists pre rest,
    s = pre +:+ String.substring n m s +:+ rest
    /\ String.length pre = n
    /\ String.length (String.substring n m s) = m.
Proof.
  induction s as [|c s IH]; intros n m H.
  - simpl in H. assert (n = O) as -> by lia. assert (m = O) as -> by lia.
    by exists EmptyString, EmptyString.
  - destruct n as [|n].
    + destruct m as [|m].
      * by exists EmptyString, (String c s).
      * destruct (IH O m) as (pre & rest & Hs & Hpre & Hlen); [simpl in *; lia|].
        destruct pre; [|done]. exists EmptyString, rest.
        cbn [String.substring]. rewrite StrFacts.app_nil_l in *.
        rewrite StrFacts.app_cons. split; [by f_equal|]. split; [done|].
        simpl. by f_equal.
    + destruct (IH n m) as (pre & rest & Hs & Hpre & Hlen); [simpl in *; lia|].
      exists (String c pre), rest. cbn [String.substring].
      rewrite StrFacts.app_cons. split; [by f_equal|]. split; [|done].
      simpl. by f_equal.
Qed.

Lemma substring_middle pre p rest :
  String.substring (String.length pre) (String.length p) (pre +:+ p +:+ rest) = p.
Proof.
  induction pre as [|c pre IH]; [exact (StrFacts.substring_app_l p rest)|].
  by rewrite StrFacts.app_cons.
Qed.

End WireMore.

(** X3.  The bridge reads the first four bytes of a buffer as an
    unsigned number, least significant byte first: bytes b0 b1 b2 b3
    give b0 + 2^8 b1 + 2^16 b2 + 2^24 b3, whatever follows them. *)
Theorem read_length_little_endian (c0 c1 c2 c3 : ascii) (rest : string) :
  Wire.read_length (String c0 (String c1 (String c2 (String c3 rest))))
  = Some (Wire.Z_of_byte c0 + 2^8 * Wire.Z_of_byte c1
          + 2^16 * Wire.Z_of_byte c2 + 2^24 * Wire.Z_of_byte c3)%Z.
Proof. apply WireMore.read_length_bytes. Qed.

(** X5.  The decoder succeeds exactly on a buffer made of four bytes,
    the payload and any further bytes, whose first four bytes read as
    the length of the payload; what follows the payload is ignored,
    and a buffer shorter than that has no decoding. *)
Theorem decode_wire_iff (result payload : string) :
  Wire.decode_wire result = Some payload
  <-> exists pre rest,
        result = pre +:+ payload +:+ rest
        /\ String.length pre = 4%nat
        /\ Wire.read_length result = Some (Z.of_nat (String.length payload)).
Proof.
  unfold Wire.decode_wire. split.
  - destruct (Wire.read_length result) as [len|] eqn:Hlen; [|done].
    cbn [mbind option_bind]. unfold Wire.read_payload.
    destruct (WireMore.read_length_range _ _ Hlen) as [_ Hr].
    destruct (Z.ltb_spec (Z.of_nat (String.length result)) (4 + len)); [done|].
    intros [= <-].
    destruct (WireMore.substring_split result 4 (Z.to_nat len))
      as (pre & rest & Hs & Hpre & Hl); [lia|].
    exists pre, rest. unfold Str.substr. split; [done|]. split; [done|].
    rewrite Hl. f_equal. lia.
  - intros (pre & rest & -> & Hpre & ->). cbn [mbind option_bind].
    unfold Wire.read_payload. rewrite !StrFacts.length_app, Hpre.
    destruct (Z.ltb_spec
                (Z.of_nat (4 + (String.length payload + String.length rest)))
                (4 + Z.of_nat (String.length payload))); [lia|].
    f_equal. rewrite Nat2Z.id, <- Hpre. apply WireMore.substring_middle.
Qed.

(** ** The header parser and the renaming, line by line *)

Module ParserFacts.
Import Str HeaderCodec.

Lemma trim_spaces value :
  exists n, value = Text.spaces n +:+ trim_leading_spaces value.
Proof.
  induction value as [|c value [n IH]]; [by exists O|].
  cbn [trim_leading_spaces]. destruct (Ascii.eqb_spec c " ") as [->|N].
  - exists (S n). cbn [Text.spaces]. rewrite StrFacts.app_cons. by f_equal.
  - by exists O.
Qed.

Lemma trim_no_space value : char_at (trim_leading_spaces value) 0 <> " "%char.
Proof.
  induction value as [|c value IH]; [done|].
  cbn [trim_leading_spaces]. destruct (Ascii.eqb_spec c " ") as [->|N]; done.
Qed.

Lemma trim_fixed value :
  char_at value 0 <> " "%char -> trim_leading_spaces value = value.
Proof.
  destruct value as [|c value]; [done|]. intros H.
  cbn [trim_leading_spaces]. by destruct (Ascii.eqb_spec c " ") as [->|N].
Qed.

Lemma name_no_colon line : forall pos,
  find ":" line = Some pos -> no_colon (String.substring 0 pos line) = true.
Proof.
  induction line as [|c line IH]; intros pos; [done|].
  cbn [find]. destruct (Ascii.eqb_spec c ":") as [->|N].
  - by intros [= <-].
  - destruct (find ":" line) as [p|]; [|done]. intros [= <-].
    cbn [String.substring]. unfold no_colon. cbn [string_forall].
    apply andb_true_iff. split; [|by apply IH].
    apply negb_true_iff. by apply Ascii.eqb_neq.
Qed.

Lemma parse_line_app line acc : parse_line line acc = acc ++ parse_line line [].
Proof.
  unfold parse_line, Insert. destruct (find ":" line); [done|].
  by rewrite app_nil_r.
Qed.

Lemma parse_lines_app lines : forall acc,
  foldl (fun headers line => parse_line line headers) acc lines
  = acc ++ foldl (fun headers line => parse_line line headers) [] lines.
Proof.
  induction lines as [|line lines IH]; intros acc; [by rewrite app_nil_r|].
  cbn [foldl]. rewrite IH, (IH (parse_line line [])), parse_line_app.
  by rewrite <- app_assoc.
Qed.

End ParserFacts.

(** X6.  The loop that trims a header value removes the run of spaces
    at its front and nothing else: the value is that run followed by
    the result, the result does not begin with a space, and trimming
    it again changes nothing. *)
Theorem trim_leading_spaces_spec (value : string) :
  exists n,
    value = Text.spaces n +:+ HeaderCodec.trim_leading_spaces value
    /\ Str.char_at (HeaderCodec.trim_leading_spaces value) 0 <> " "%char
    /\ HeaderCodec.trim_leading_spaces (HeaderCodec.trim_leading_spaces value)
       = HeaderCodec.trim_leading_spaces value.
Proof.
  destruct (ParserFacts.trim_spaces value) as [n Hn]. exists n.
  split; [done|]. split; [apply ParserFacts.trim_no_space|].
  apply ParserFacts.trim_fixed, ParserFacts.trim_no_space.
Qed.

(** X7.  Whatever lines the header block splits into, the parsing loop
    of [DoHeadRequest] inserts one header for each line that holds a
    colon and none for the others; no parsed name holds a colon and no
    parsed value begins with a space. *)
Theorem parsed_headers_invariant (lines : list string) :
  let parsed :=
    foldl (fun headers line => HeaderCodec.parse_line line headers) [] lines in
  Forall (fun h => HeaderCodec.no_colon h.1 = true
                   /\ Str.char_at h.2 0 <> " "%char) parsed
  /\ length parsed = length (List.filter Text.has_colon lines).
Proof.
  induction lines as [|line lines [IHf IHl]]; [by split|].
  cbn [foldl List.filter]. rewrite ParserFacts.parse_lines_app.
  unfold HeaderCodec.parse_line at 1 3, Text.has_colon at 1.
  destruct (Str.find ":" line) as [pos|] eqn:Hpos.
  - rewrite bool_decide_eq_true_2 by eauto.
    unfold HeaderCodec.Insert. cbn [app length]. split; [|by f_equal].
    constructor; [|done]. cbn [fst snd]. split.
    + by apply ParserFacts.name_no_colon.
    + apply ParserFacts.trim_no_space.
  - rewrite bool_decide_eq_false_2 by (by intros [? ?]). by split.
Qed.

(** X8.  The renaming of the reserved header names is idempotent and
    leaves exactly the other names as they are; the comparison is
    exact, so a name that differs from "Host" or "User-Agent" in case
    only is not renamed. *)
Theorem rename_reserved_idempotent (name : string) :
  Bridge.rename_reserved (Bridge.rename_reserved name)
  = Bridge.rename_reserved name
  /\ (Bridge.rename_reserved name = name
      <-> name <> "Host" /\ name <> "User-Agent")
  /\ Bridge.rename_reserved "host" = "host"
  /\ Bridge.rename_reserved "user-agent" = "user-agent".
Proof.
  unfold Bridge.rename_reserved.
  destruct (String.eqb_spec name "Host") as [->|N1]; [by repeat split; intros []|].
  destruct (String.eqb_spec name "User-Agent") as [->|N2].
  - split; [done|]. split; [|done]. split; [done|by intros []].
  - rewrite (proj2 (String.eqb_neq _ _) N1), (proj2 (String.eqb_neq _ _) N2).
    by repeat split.
Qed.

(** ** The ingestion helper, past the guard *)

Module ArrowFacts.
Import Arrow ArrowLog.
Local Open Scope Z_scope.

Lemma run_cases {Db Conn : Type} (lib : Libraries Db) (connection : Conn)
    (table_name ipc_buffer : string) (buffer_length : Z) (st : State) :
  buffer_length <> 0 ->
  exists calls,
    (duckdb_wasm_insert_arrow_ipc lib (Some connection) (Some table_name)
       (Some ipc_buffer) buffer_length st).2.2 = st.2 ++ calls
    /\ run_shape table_name (Str.substr ipc_buffer 0 (Z.to_nat buffer_length))
         (duckdb_wasm_insert_arrow_ipc lib (Some connection) (Some table_name)
            (Some ipc_buffer) buffer_length st).1 calls.
Proof.
  intros Hlen. unfold duckdb_wasm_insert_arrow_ipc.
  apply Z.eqb_neq in Hlen. rewrite Hlen. destruct st as [db log].
  destruct (input_stream_init lib _ db) as [rc db1].
  destruct (negb (rc =? 0)).
  { eexists. cbn [fst snd]. rewrite <- !app_assoc. split; [reflexivity|].
    apply input_refused. }
  destruct (reader_init lib db1) as [rc2 db2].
  destruct (negb (rc2 =? 0)).
  { destruct (input_has_release lib db2); eexists; cbn [fst snd];
      rewrite <- !app_assoc; (split; [reflexivity|]).
    - apply (reader_refused _ _ [input_release]). by right.
    - apply (reader_refused _ _ []). by left. }
  destruct (arrow_scan lib view_name db2) as [state db3].
  destruct (negb (is_success state)).
  { destruct (stream_has_release lib db3); eexists; cbn [fst snd];
      rewrite <- !app_assoc; (split; [reflexivity|]).
    - apply (scan_refused _ _ [stream_release]). by right.
    - apply (scan_refused _ _ []). by left. }
  destruct (query lib _ db3) as [state' db4].
  destruct (query lib _ (destroy_result lib db4)) as [state'' db5].
  destruct (stream_has_release lib _); eexists; cbn [fst snd];
    rewrite <- !app_assoc; (split; [reflexivity|]).
  - apply (materialised _ _ _ [stream_release]). by right.
  - apply (materialised _ _ _ []). by left.
Qed.

Lemma new_calls_app {Db : Type} (st st' : @State Db) calls :
  st'.2 = st.2 ++ calls -> new_calls st st' = calls.
Proof. unfold new_calls. intros ->. by rewrite drop_app_length. Qed.

End ArrowFacts.

(** X9.  With a connection, a table name, a buffer and a non-zero
    length the helper always starts: it initialises the buffer and
    hands exactly the first [buffer_length] bytes of the caller's
    buffer to the decoder, before anything else; the calls made
    earlier stay in the log. *)
Theorem insert_arrow_ipc_wraps_buffer {Db Conn : Type}
    (lib : Arrow.Libraries Db) (connection : Conn)
    (table_name ipc_buffer : string) (buffer_length : Z) (st : Arrow.State) :
  buffer_length <> 0%Z ->
  exists rest,
    (Arrow.duckdb_wasm_insert_arrow_ipc lib (Some connection) (Some table_name)
       (Some ipc_buffer) buffer_length st).2.2
    = st.2 ++ Arrow.ArrowBufferInit
         :: Arrow.ArrowIpcInputStreamInitBuffer
              (Str.substr ipc_buffer 0 (Z.to_nat buffer_length))
         :: rest.
Proof.
  intros Hlen.
  destruct (ArrowFacts.run_cases lib connection table_name ipc_buffer
              buffer_length st Hlen) as (calls & -> & Hshape).
  destruct Hshape; eexists; reflexivity.
Qed.

Lemma insert_arrow_ipc_wraps_buffer_witness :
  exists rest,
    (Arrow.duckdb_wasm_insert_arrow_ipc Arrow.counting_lib (Some tt) (Some "t")
       (Some "ARROW1tail") 6 (O, [Arrow.duckdb_destroy_result])).2.2
    = [Arrow.duckdb_destroy_result]
        ++ Arrow.ArrowBufferInit
             :: Arrow.ArrowIpcInputStreamInitBuffer "ARROW1" :: rest.
Proof.
  apply (insert_arrow_ipc_wraps_buffer Arrow.counting_lib tt "t" "ARROW1tail" 6
           (O, [Arrow.duckdb_destroy_result])).
  lia.
Defined.

(** X10.  The helper executes SQL only right after its one call of
    the scan: either no statement is executed and the helper fails, or
    the calls are the decoder calls, the scan, the CREATE TABLE over
    the temporary view, the destruction of its result, the DROP VIEW,
    the destruction of its result, and then at most the release; no
    statement comes before the scan or after the DROP VIEW. *)
Theorem insert_arrow_ipc_sql_discipline {Db Conn : Type}
    (lib : Arrow.Libraries Db) (connection : option Conn)
    (table_name ipc_buffer : string) (buffer_length : Z) (st : Arrow.State) :
  let run :=
    Arrow.duckdb_wasm_insert_arrow_ipc lib connection (Some table_name)
      (Some ipc_buffer) buffer_length st in
  let calls := ArrowLog.new_calls st run.2 in
  (ArrowLog.sql_calls calls = [] /\ run.1 = Arrow.DuckDBError)
  \/ (exists before after,
        calls = before
                  ++ [Arrow.duckdb_arrow_scan Arrow.view_name;
                      Arrow.duckdb_query (ArrowLog.create_table_sql table_name);
                      Arrow.duckdb_destroy_result;
                      Arrow.duckdb_query ArrowLog.drop_view_sql;
                      Arrow.duckdb_destroy_result]
                  ++ after
        /\ ArrowLog.sql_calls before = []
        /\ ArrowLog.called (Arrow.duckdb_arrow_scan Arrow.view_name) before = false
        /\ ArrowLog.sql_calls after = []
        /\ ArrowLog.called (Arrow.duckdb_arrow_scan Arrow.view_name) after = false).
Proof.
  intros run calls. subst run calls.
  destruct connection as [connection|].
  2:{ left. unfold ArrowLog.new_calls. simpl. by rewrite drop_ge. }
  destruct (Z.eq_dec buffer_length 0%Z) as [->|Hlen].
  { left. unfold ArrowLog.new_calls. simpl. by rewrite drop_ge. }
  destruct (ArrowFacts.run_cases lib connection table_name ipc_buffer
              buffer_length st Hlen) as (calls & Hlog & Hshape).
  rewrite (ArrowFacts.new_calls_app _ _ _ Hlog).
  destruct Hshape as [|released Hrel|released Hrel|state released Hrel];
    [by left|by destruct Hrel as [->| ->]; left
    |by destruct Hrel as [->| ->]; left|].
  right.
  exists [Arrow.ArrowBufferInit;
          Arrow.ArrowIpcInputStreamInitBuffer
            (Str.substr ipc_buffer 0 (Z.to_nat buffer_length));
          Arrow.ArrowIpcArrayStreamReaderInit], released.
  split; [reflexivity|]. by destruct Hrel as [->| ->].
Qed.

(** X11.  Every run gives back at most one resource, as its last
    call: the buffer is reset only when the reader was never
    initialised, the input stream is released only when the scan was
    never attempted, and the array stream is released only after the
    scan was attempted. *)
Theorem insert_arrow_ipc_cleanup_discipline {Db Conn : Type}
    (lib : Arrow.Libraries Db) (connection : option Conn)
    (table_name ipc_buffer : string) (buffer_length : Z) (st : Arrow.State) :
  let run :=
    Arrow.duckdb_wasm_insert_arrow_ipc lib connection (Some table_name)
      (Some ipc_buffer) buffer_length st in
  let calls := ArrowLog.new_calls st run.2 in
  ArrowLog.cleanups calls = []
  \/ exists c,
       ArrowLog.cleanups calls = [c] /\ last calls = Some c
       /\ ArrowLog.called Arrow.ArrowIpcArrayStreamReaderInit calls
          = negb (ArrowLog.call_eqb c Arrow.ArrowBufferReset)
       /\ ArrowLog.called (Arrow.duckdb_arrow_scan Arrow.view_name) calls
          = ArrowLog.call_eqb c Arrow.stream_release.
Proof.
  intros run calls. subst run calls.
  destruct connection as [connection|].
  2:{ left. unfold ArrowLog.new_calls. simpl. by rewrite drop_ge. }
  destruct (Z.eq_dec buffer_length 0%Z) as [->|Hlen].
  { left. unfold ArrowLog.new_calls. simpl. by rewrite drop_ge. }
  destruct (ArrowFacts.run_cases lib connection table_name ipc_buffer
              buffer_length st Hlen) as (calls & Hlog & Hshape).
  rewrite (ArrowFacts.new_calls_app _ _ _ Hlog).
  destruct Hshape as [|released [->| ->]|released [->| ->]|state released [->| ->]];
    first [by left | right; eexists; by repeat split].
Qed.

(** X12.  When the decoder and the scan succeed, the status the helper
    returns is the status of the CREATE TABLE statement: the status of
    the DROP VIEW is not looked at, so a DROP that fails does not turn
    the result into a failure. *)
Theorem insert_arrow_ipc_status_is_create {Db Conn : Type}
    (lib : Arrow.Libraries Db) (verdict : string -> Arrow.duckdb_state)
    (connection : Conn) (table_name ipc_buffer : string) (buffer_length : Z)
    (st : Arrow.State) :
  buffer_length <> 0%Z ->
  (forall data db, (Arrow.input_stream_init lib data db).1 = 0%Z) ->
  (forall db, (Arrow.reader_init lib db).1 = 0%Z) ->
  (forall view db, (Arrow.arrow_scan lib view db).1 = Arrow.DuckDBSuccess) ->
  (forall sql db, (Arrow.query lib sql db).1 = verdict sql) ->
  (Arrow.duckdb_wasm_insert_arrow_ipc lib (Some connection) (Some table_name)
     (Some ipc_buffer) buffer_length st).1
  = verdict (ArrowLog.create_table_sql table_name).
Proof.
  intros Hlen Hinput Hreader Hscan Hquery.
  unfold Arrow.duckdb_wasm_insert_arrow_ipc.
  apply Z.eqb_neq in Hlen. rewrite Hlen. destruct st as [db log].
  specialize (Hinput (Str.substr ipc_buffer 0 (Z.to_nat buffer_length)) db).
  destruct (Arrow.input_stream_init lib _ db) as [rc db1].
  cbn [fst] in Hinput. subst rc. cbn [Z.eqb negb].
  specialize (Hreader db1).
  destruct (Arrow.reader_init lib db1) as [rc2 db2].
  cbn [fst] in Hreader. subst rc2. cbn [Z.eqb negb].
  specialize (Hscan Arrow.view_name db2).
  destruct (Arrow.arrow_scan lib Arrow.view_name db2) as [state db3].
  cbn [fst] in Hscan. subst state. cbn [Arrow.is_success negb].
  pose proof (Hquery (ArrowLog.create_table_sql table_name) db3) as Hc.
  fold (ArrowLog.create_table_sql table_name).
  destruct (Arrow.query lib (ArrowLog.create_table_sql table_name) db3)
    as [state' db4].
  cbn [fst] in Hc. subst state'.
  destruct (Arrow.query lib _ (Arrow.destroy_result lib db4)) as [state'' db5].
  by destruct (Arrow.stream_has_release lib _).
Qed.

Lemma insert_arrow_ipc_status_is_create_witness :
  (Arrow.duckdb_wasm_insert_arrow_ipc ArrowLog.no_drop_lib (Some tt) (Some "t")
     (Some "ARROW1") 6 (O, [])).1
  = Arrow.DuckDBSuccess.
Proof.
  apply (insert_arrow_ipc_status_is_create ArrowLog.no_drop_lib
           (fun sql => if String.prefix "DROP" sql
                       then Arrow.DuckDBError else Arrow.DuckDBSuccess)
           tt "t" "ARROW1" 6 (O, [])); [lia|reflexivity..].
Defined.

(** X23.  A scan that fails stops the helper: with a library whose
    scan never succeeds, whatever the decoder does, the helper returns
    the failure status and executes no statement, neither the CREATE
    TABLE nor the DROP VIEW. *)
Theorem insert_arrow_ipc_scan_failure {Db Conn : Type}
    (lib : Arrow.Libraries Db) (connection : option Conn)
    (table_name ipc_buffer : option string) (buffer_length : Z)
    (st : Arrow.State) :
  (forall view db, (Arrow.arrow_scan lib view db).1 = Arrow.DuckDBError) ->
  let run :=
    Arrow.duckdb_wasm_insert_arrow_ipc lib connection table_name ipc_buffer
      buffer_length st in
  run.1 = Arrow.DuckDBError
  /\ ArrowLog.sql_calls (ArrowLog.new_calls st run.2) = [].
Proof.
  intros Hscan run. subst run.
  unfold Arrow.duckdb_wasm_insert_arrow_ipc, ArrowLog.new_calls.
  destruct connection, table_name, ipc_buffer;
    try (split; [reflexivity|cbn [snd]; by rewrite drop_ge]).
  destruct (buffer_length =? 0)%Z;
    [split; [reflexivity|cbn [snd]; by rewrite drop_ge]|].
  destruct st as [db log].
  destruct (Arrow.input_stream_init lib _ db) as [rc db1].
  destruct (negb (rc =? 0)%Z).
  { split; [done|]. cbn [snd]. rewrite <- !app_assoc.
    by rewrite drop_app_length. }
  destruct (Arrow.reader_init lib db1) as [rc2 db2].
  destruct (negb (rc2 =? 0)%Z).
  { destruct (Arrow.input_has_release lib db2); (split; [done|]); cbn [snd];
      rewrite <- !app_assoc; by rewrite drop_app_length. }
  specialize (Hscan Arrow.view_name db2).
  destruct (Arrow.arrow_scan lib Arrow.view_name db2) as [state db3].
  cbn [fst] in Hscan. subst state. cbn [Arrow.is_success negb].
  destruct (Arrow.stream_has_release lib db3); (split; [done|]); cbn [snd];
    rewrite <- !app_assoc; by rewrite drop_app_length.
Qed.

Lemma insert_arrow_ipc_scan_failure_witness :
  (Arrow.duckdb_wasm_insert_arrow_ipc ArrowLog.no_scan_lib (Some tt) (Some "t")
     (Some "ARROW1") 6 (O, [])).1 = Arrow.DuckDBError
  /\ ArrowLog.sql_calls
       (ArrowLog.new_calls (O, [])
          (Arrow.duckdb_wasm_insert_arrow_ipc ArrowLog.no_scan_lib (Some tt)
             (Some "t") (Some "ARROW1") 6 (O, [])).2) = [].
Proof.
  apply (insert_arrow_ipc_scan_failure ArrowLog.no_scan_lib (Some tt)
           (Some "t") (Some "ARROW1") 6 (O, [])).
  reflexivity.
Defined.

(** ** Browser mode, end to end *)

(** X14.  In browser mode with XMLHttpRequest in place, when the
    origin, the url, the header names and the header values are plain
    text (ASCII, no NUL) and the body is shorter than 2^31 bytes, a
    primitive that returned was asked the plain request: the headers
    installed are the accepted pairs in order, each under its name (the
    two reserved names renamed) with its value, and the reply is made
    of the outcome of [xhr.send] for the verb's method, the normalised
    url, those headers and, for a Post or a Put, the caller's body
    bytes, or no body when they are empty; a Get, a Head and a Delete
    send no body. *)
Theorem browser_request_plain (env : Env) (this : HTTPWasmClient) (v : Verb)
    (info : RequestInfo) (w : World) (p : primitive) (reply : option string) :
  use_sync_xhr this = true ->
  (forall T, xhr_defined env T = true) ->
  Text.plain (host_port this) = true ->
  Text.plain (url info) = true ->
  Forall (fun h => Text.plain h.1 = true /\ Text.plain h.2 = true)
    (info_headers info) ->
  (buffer_in_len info < 2^31)%Z ->
  let evs := new_events w (dispatch env this v info w).2 in
  let sent :=
    List.filter (fun nv => header_accepted env nv.1 nv.2)
      (map (fun h => (rename_reserved h.1, h.2)) (info_headers info)) in
  let request :=
    mkHostRequest (Browser.verb_method v)
      (NormalizeUrl (host_port this) (url info)) sent
      (match v with
       | POST | PUT =>
           match buffer_in info with
           | Some bytes =>
               if String.eqb bytes EmptyString then None else Some bytes
           | None => None
           end
       | _ => None
       end) in
  let asked :=
    Browser.events_to_send env (length (heap w)) (info_headers info)
      (length (Shape.verb_cells v info)) in
  In (EvHost p reply) evs ->
  installed_headers evs = sent
  /\ reply = Browser.sync_reply (Browser.is_head v)
               (xhr_send env (trace w ++ asked) request).
Proof.
  intros Hsync Hdef Hh Hu Hhs Hlen evs sent request asked. subst evs asked.
  apply SyncFacts.plain_no_NUL in Hh, Hu.
  assert (Hhs' : Forall (fun h => Text.no_NUL h.1 = true /\ Text.no_NUL h.2 = true)
                   (info_headers info)).
  { eapply Forall_impl; [exact Hhs|]. intros h [H1 H2].
    split; by apply SyncFacts.plain_no_NUL. }
  destruct w as [h0 T].
  rewrite (SyncFacts.dispatch_sync env this v info h0 T Hsync Hdef).
  cbv zeta. cbn [snd]. rewrite MemFacts.new_events_app.
  intros Hin%BridgeFacts.In_host_calls.
  rewrite BridgeFacts.host_calls_dispatch in Hin.
  destruct Hin as [[= _ <-]|[]].
  rewrite BridgeFacts.installed_dispatch.
  unfold Browser.outcome.
  rewrite (SyncFacts.request_plain env this v info Hh Hu Hhs' Hlen).
  fold sent request. split; [|done].
  unfold Shape.accepted. by rewrite SyncFacts.marshalled_no_NUL.
Qed.

Lemma browser_request_plain_witness :
  installed_headers
    (new_events empty_world
       (dispatch (Browser.steady_browser (fun _ _ => true) Browser.echo)
          (mkClient "https://h" true) PUT example_info empty_world).2)
  = [("X-Host-Override", "example.com"); ("X-User-Agent", "x")]
  /\ Some (Wire.encode_wire "PUT https://h/data.parquet payload")
     = Browser.sync_reply false
         (Browser.echo
            (mkHostRequest "PUT" "https://h/data.parquet"
               [("X-Host-Override", "example.com"); ("X-User-Agent", "x")]
               (Some "payload"))).
Proof.
  apply (browser_request_plain
           (Browser.steady_browser (fun _ _ => true) Browser.echo)
           (mkClient "https://h" true) PUT example_info empty_world
           SyncRequest
           (Some (Wire.encode_wire "PUT https://h/data.parquet payload"))
           eq_refl (fun _ => eq_refl) eq_refl eq_refl
           ltac:(repeat constructor) eq_refl).
  vm_compute. solve_In.
Defined.

(** X15.  In browser mode with XMLHttpRequest in place, when the
    [xhr.send] of a dispatch throws, or completes with status 0 or with
    a status of 400 or more, the primitive returns null: the response
    is NotFound_404 with the fixed reason and nothing else, the request
    descriptor is left as it was and no content handler is called. *)
Theorem browser_status_mapping (env : Env) (this : HTTPWasmClient) (v : Verb)
    (info : RequestInfo) (w : World) :
  use_sync_xhr this = true ->
  (forall T, xhr_defined env T = true) ->
  Browser.outcome env this v info w = XhrThrows
  \/ (exists st response hdrs,
        Browser.outcome env this v info w = XhrDone st response hdrs
        /\ (st = 0 \/ 400 <= st)%Z) ->
  let run := dispatch env this v info w in
  let evs := new_events w run.2 in
  run.1 = Some (set_reason (make_response NotFound_404)
                  (if Browser.is_head v then "HEAD request failed"
                   else "Request failed - check console for errors"),
                info)
  /\ host_calls evs = [(primitive_for true v, None)]
  /\ contents evs = [].
Proof.
  intros Hsync Hdef Hout run evs. subst evs run. destruct w as [h0 T].
  rewrite (SyncFacts.dispatch_sync env this v info h0 T Hsync Hdef).
  cbv zeta. cbn [fst snd]. rewrite MemFacts.new_events_app.
  rewrite BridgeFacts.host_calls_dispatch, BridgeFacts.contents_dispatch.
  assert (Hnone : Browser.sync_reply (Browser.is_head v)
                    (Browser.outcome env this v info (mkWorld h0 T)) = None).
  { destruct Hout as [->|(st & response & hdrs & -> & Hst)]; [done|].
    unfold Browser.sync_reply, request_failed.
    destruct Hst as [->|Hst]; [done|].
    destruct (Z.leb_spec 400 st); [|lia]. by rewrite orb_true_r. }
  rewrite Hnone. split; [by destruct v|]. by split.
Qed.

Lemma browser_status_mapping_witness :
  (dispatch (Browser.steady_browser (fun _ _ => true) (Browser.always 503))
     (mkClient "https://h" true) GET example_info empty_world).1
  = Some (set_reason (make_response NotFound_404)
            "Request failed - check console for errors", example_info).
Proof.
  destruct (browser_status_mapping
              (Browser.steady_browser (fun _ _ => true) (Browser.always 503))
              (mkClient "https://h" true) GET example_info empty_world
              eq_refl (fun _ => eq_refl)) as [H _].
  - right. exists 503%Z, "page", "Server: origin".
    split; [reflexivity|right; lia].
  - exact H.
Defined.

(** X16.  In browser mode a request other than Head that completes
    with a status that is neither 0 nor 400 or more, and with a body of
    fewer than 2^32 bytes, returns OK_200 with exactly the bytes of the
    response, no headers and no reason; a Get hands the same bytes to
    its content handler once, and a Post appends them to the caller's
    output buffer. *)
Theorem browser_body_round_trip (env : Env) (this : HTTPWasmClient) (v : Verb)
    (info : RequestInfo) (w : World) (st : Z) (response hdrs : string) :
  use_sync_xhr this = true ->
  (forall T, xhr_defined env T = true) ->
  v <> HEAD ->
  Browser.outcome env this v info w = XhrDone st response hdrs ->
  request_failed st = false ->
  (Z.of_nat (String.length response) < 2^32)%Z ->
  let run := dispatch env this v info w in
  let r := set_body (make_response OK_200) response in
  run.1 = Some (r, Shape.verb_info v info r)
  /\ contents (new_events w run.2)
     = (if Shape.verb_handler v info then [response] else [])
  /\ buffer_out (Shape.verb_info v info r)
     = match v with
       | POST => buffer_out info +:+ response
       | _ => buffer_out info
       end.
Proof.
  intros Hsync Hdef Hv Hout Hst Hlen run r. subst run. destruct w as [h0 T].
  rewrite (SyncFacts.dispatch_sync env this v info h0 T Hsync Hdef).
  cbv zeta. rewrite Hout. unfold Browser.sync_reply. rewrite Hst.
  replace (Browser.is_head v) with false by (by destruct v).
  cbn [fst snd]. rewrite MemFacts.new_events_app.
  rewrite BridgeFacts.contents_dispatch.
  replace (Shape.verb_response v (Some (Wire.encode_wire response)))
    with (Shape.request_response (Some (Wire.encode_wire response)))
    by (by destruct v).
  unfold Shape.request_response.
  assert (Hdec : Wire.decode_wire (Wire.encode_wire response) = Some response).
  { unfold Wire.decode_wire, Wire.encode_wire.
    rewrite WireFacts.read_length_prefix by lia.
    by apply WireFacts.read_payload_prefix. }
  rewrite Hdec. split; [done|]. split.
  - cbn [mbind option_bind]. by rewrite Hdec.
  - by destruct v.
Qed.

Lemma browser_body_round_trip_witness :
  (dispatch (Browser.steady_browser (fun _ _ => true) Browser.echo)
     (mkClient "https://h" true) POST example_info empty_world).1
  = Some (set_body (make_response OK_200) "POST https://h/data.parquet payload",
          mkInfo "/data.parquet" [("Host", "example.com"); ("User-Agent", "x")]
            (Some "payload") "outPOST https://h/data.parquet payload" true).
Proof.
  apply (proj1 (browser_body_round_trip
                  (Browser.steady_browser (fun _ _ => true) Browser.echo)
                  (mkClient "https://h" true) POST example_info empty_world
                  200 "POST https://h/data.parquet payload"
                  (HeaderCodec.encode_as_text
                     [("X-Host-Override", "example.com"); ("X-User-Agent", "x")])
                  eq_refl (fun _ => eq_refl) ltac:(discriminate) eq_refl eq_refl
                  eq_refl)).
Defined.

(** X17.  In browser mode a Head that completes with a status that is
    neither 0 nor 400 or more returns OK_200 with an empty body and the
    headers parsed from the text of [getAllResponseHeaders] (fewer than
    2^32 bytes); the response body of the host is not looked at and no
    content handler is called. *)
Theorem browser_head_headers (env : Env) (this : HTTPWasmClient)
    (info : RequestInfo) (w : World) (st : Z) (response hdrs : string) :
  use_sync_xhr this = true ->
  (forall T, xhr_defined env T = true) ->
  Browser.outcome env this HEAD info w = XhrDone st response hdrs ->
  request_failed st = false ->
  (Z.of_nat (String.length hdrs) < 2^32)%Z ->
  let run := dispatch env this HEAD info w in
  run.1 = Some (mkResponse OK_200 EmptyString EmptyString
                  (HeaderCodec.parse_header_block hdrs), info)
  /\ contents (new_events w run.2) = [].
Proof.
  intros Hsync Hdef Hout Hst Hlen run. subst run. destruct w as [h0 T].
  rewrite (SyncFacts.dispatch_sync env this HEAD info h0 T Hsync Hdef).
  cbv zeta. rewrite Hout. unfold Browser.sync_reply. rewrite Hst.
  cbn [Browser.is_head fst snd]. rewrite MemFacts.new_events_app.
  rewrite BridgeFacts.contents_dispatch.
  assert (Hdec : Wire.decode_wire (Wire.encode_wire hdrs) = Some hdrs).
  { unfold Wire.decode_wire, Wire.encode_wire.
    rewrite WireFacts.read_length_prefix by lia.
    by apply WireFacts.read_payload_prefix. }
  cbn [Shape.verb_response Shape.head_response Shape.verb_handler
         Shape.verb_info mbind option_bind].
  rewrite Hdec. split; [|done]. cbn [fmap option_fmap option_map].
  do 2 f_equal.
  destruct (BridgeFacts.fold_update_headers
              (HeaderCodec.Split hdrs HeaderCodec.CRLF) (make_response OK_200))
    as (Hs & Hr & Hb & Hh).
  cbv zeta in Hs, Hr, Hb, Hh.
  destruct (foldl _ (make_response OK_200) _) as [s r b h].
  cbn [status reason body headers make_response] in Hs, Hr, Hb, Hh.
  by subst.
Qed.

Lemma browser_head_headers_witness :
  (dispatch (Browser.steady_browser (fun _ _ => true) Browser.echo)
     (mkClient "https://h" true) HEAD example_info empty_world).1
  = Some (mkResponse OK_200 EmptyString EmptyString
            [("X-Host-Override", "example.com"); ("X-User-Agent", "x")],
          example_info).
Proof.
  apply (proj1 (browser_head_headers
                  (Browser.steady_browser (fun _ _ => true) Browser.echo)
                  (mkClient "https://h" true) example_info empty_world
                  200 "HEAD https://h/data.parquet "
                  (HeaderCodec.encode_as_text
                     [("X-Host-Override", "example.com"); ("X-User-Agent", "x")])
                  eq_refl (fun _ => eq_refl) eq_refl eq_refl eq_refl)).
Defined.

(** X18.  A client in browser mode that finds no XMLHttpRequest when
    it dispatches (the mode was cached at construction) fails every
    request the same way: the primitive returns null before it creates
    a request, so no header is installed and no content handler runs,
    the response is NotFound_404 with the fixed reason, the request
    descriptor is left as it was, and the blocks marshalled for the call
    are all released. *)
Theorem browser_without_xhr (env : Env) (this : HTTPWasmClient) (v : Verb)
    (info : RequestInfo) (w : World) :
  use_sync_xhr this = true ->
  (forall T, xhr_defined env T = false) ->
  let run := dispatch env this v info w in
  let evs := new_events w run.2 in
  run.1 = Some (set_reason (make_response NotFound_404)
                  (if Browser.is_head v then "HEAD request failed"
                   else "Request failed - check console for errors"),
                info)
  /\ host_calls evs = [(primitive_for true v, None)]
  /\ installed_headers evs = []
  /\ contents evs = []
  /\ heap run.2
     = heap w ++ replicate (1 + 2 * length (info_headers info)
                            + length (Shape.verb_cells v info)) None.
Proof.
  intros Hsync Hdef run evs. subst evs run. destruct w as [h0 T].
  rewrite (SyncFacts.dispatch_missing env this v info h0 T Hsync Hdef).
  cbn [fst snd heap]. rewrite MemFacts.new_events_app.
  rewrite BridgeFacts.host_calls_dispatch, BridgeFacts.installed_dispatch,
    BridgeFacts.contents_dispatch.
  split; [by destruct v|]. split; [done|]. split; [done|]. split; [done|].
  rewrite BridgeFacts.dispatch_heap_freed by done.
  cbn [Shape.reply_slot]. by rewrite app_nil_r, length_seq.
Qed.

Lemma browser_without_xhr_witness :
  (dispatch offline_worker (mkClient "https://h" true) PUT example_info
     empty_world).1
  = Some (set_reason (make_response NotFound_404)
            "Request failed - check console for errors", example_info).
Proof.
  apply (proj1 (browser_without_xhr offline_worker (mkClient "https://h" true)
                  PUT example_info empty_world eq_refl (fun _ => eq_refl))).
Defined.


(** ** What is left behind *)

Module LifeFacts.
Import Mem Bridge HeaderCodec Shape MemFacts BridgeFacts.

Lemma mallocs_split a p r b :
  mallocs (a ++ EvHost p r :: b) = mallocs a ++ mallocs b.
Proof. unfold mallocs. by rewrite omap_app. Qed.

Lemma frees_split a p r b :
  frees (a ++ EvHost p r :: b) = frees a ++ frees b.
Proof. unfold frees. by rewrite omap_app. Qed.

Lemma seq_reply_slot n args reply :
  seq n args ++ reply_slot (n + args) reply
  = seq n (args + length (reply_slot 0 reply)).
Proof.
  destruct reply; cbn [reply_slot length].
  - by rewrite Nat.add_1_r, seq_S.
  - by rewrite app_nil_r, Nat.add_0_r.
Qed.

Lemma dispatch_balance n count pc installed p reply handler :
  (forall buffer, reply = Some buffer -> Wire.wire_ok buffer = true) ->
  let m := 1 + 2 * count + length pc + length (reply_slot 0 reply) in
  mallocs (dispatch_events n count pc installed p reply handler) = seq n m
  /\ Permutation (frees (dispatch_events n count pc installed p reply handler))
       (seq n m).
Proof.
  intros Hok m. rewrite dispatch_events_split.
  rewrite mallocs_split, frees_split.
  rewrite mallocs_before, frees_before, mallocs_after, (frees_after _ _ _ _ _ Hok).
  rewrite app_nil_r, app_nil_l.
  replace (n + 1 + 2 * count + length pc) with (n + (1 + 2 * count + length pc))
    by lia.
  rewrite seq_reply_slot. split; [done|].
  subst m. rewrite <- seq_reply_slot.
  replace (1 + 2 * count + length pc) with (S (2 * count) + length pc) by lia.
  rewrite seq_app. cbn [seq].
  replace (n + 1) with (S n) by lia.
  replace (n + S (2 * count)) with (S n + 2 * count) by lia.
  replace (n + (S (2 * count) + length pc)) with (S n + 2 * count + length pc)
    by lia.
  rewrite <- !app_assoc. cbn [app]. symmetry. apply Permutation_middle.
Qed.

Lemma session_balance env this calls : forall w,
  exists evs,
    trace (session env this calls w).2 = trace w ++ evs
    /\ ((forall p buffer, In (EvHost p (Some buffer)) evs ->
           Wire.wire_ok buffer = true) ->
        exists k,
          mallocs evs = seq (length (heap w)) k
          /\ Permutation (frees evs) (seq (length (heap w)) k)
          /\ heap (session env this calls w).2 = heap w ++ replicate k None).
Proof.
  induction calls as [|[v info] calls IH]; intros w.
  - exists []. simpl. rewrite app_nil_r. split; [done|]. intros _.
    exists O. simpl. by rewrite app_nil_r.
  - cbn [session]. rewrite bind_run.
    destruct (dispatch_cases env this v info w)
      as (installed & reply & Hevs & Htr & Hheap & Hres & _).
    destruct (dispatch env this v info w) as [o w1]. cbn [fst snd] in *.
    rewrite Hevs in Htr. clear Hevs. subst o.
    set (devs := dispatch_events _ _ _ _ _ _ _) in *.
    assert (Hcalls : host_calls devs = [(primitive_for (use_sync_xhr this) v, reply)])
      by apply host_calls_dispatch.
    assert (Hreadable :
      (forall p buffer, In (EvHost p (Some buffer)) devs ->
         Wire.wire_ok buffer = true) ->
      forall buffer, reply = Some buffer -> Wire.wire_ok buffer = true).
    { intros Hok buffer ->. apply (Hok (primitive_for (use_sync_xhr this) v)).
      apply In_host_calls. rewrite Hcalls. by left. }
    destruct (verb_response v reply) as [r|] eqn:Hr; cbn [fmap option_fmap option_map].
    + rewrite bind_run. destruct (IH w1) as (evs' & Htr' & Hok').
      destruct (session env this calls w1) as [o' w2]. cbn [fst snd] in *.
      exists (devs ++ evs').
      assert (Hw2 : (match o' with
                     | Some rs => (mret (r :: rs) : M (list HTTPResponse)) w2
                     | None => (None, w2)
                     end).2 = w2) by (by destruct o').
      rewrite Hw2. split; [by rewrite Htr', Htr, app_assoc|].
      intros Hok.
      assert (Hreply : forall buffer, reply = Some buffer ->
                Wire.wire_ok buffer = true).
      { apply Hreadable. intros p buffer Hin. apply (Hok p).
        apply in_or_app. by left. }
      destruct Hok' as (k' & Hm' & Hf' & Hh').
      { intros p buffer Hin. apply (Hok p). apply in_or_app. by right. }
      destruct (dispatch_balance (length (heap w)) (length (info_headers info))
                  (verb_cells v info) installed
                  (primitive_for (use_sync_xhr this) v) reply
                  (verb_handler v info) Hreply) as [Hm Hf].
      fold devs in Hm, Hf.
      set (m := 1 + 2 * length (info_headers info) + length (verb_cells v info)
                + length (reply_slot 0 reply)) in *.
      assert (Hh1 : heap w1 = heap w ++ replicate m None).
      { rewrite Hheap, (dispatch_heap_freed _ _ _ _ Hreply).
        replace (length (heap w) + 1 + 2 * length (info_headers info)
                 + length (verb_cells v info))
          with (length (heap w) + (1 + 2 * length (info_headers info)
                                   + length (verb_cells v info))) by lia.
        by rewrite seq_reply_slot, length_seq. }
      assert (Hlen : length (heap w1) = length (heap w) + m)
        by (by rewrite Hh1, length_app, length_replicate).
      rewrite Hlen in Hm', Hf'.
      exists (m + k'). unfold mallocs, frees in *. rewrite !omap_app.
      rewrite Hm, Hm', seq_app. split; [done|]. split.
      * by apply Permutation_app.
      * by rewrite Hh', Hh1, <- app_assoc, replicate_add.
    + exists devs. split; [done|]. intros Hok.
      destruct (verb_response_Some v reply) as [r Hr']; [by apply Hreadable|].
      congruence.
Qed.

End LifeFacts.

(** X20.  Over the whole life of a client, construction and any
    sequence of dispatches, provided every reply is null or a buffer
    the decoder can read: the blocks allocated are consecutive fresh
    slots, each is freed exactly once, and at the end every one of them
    is released while the blocks that were live before are untouched. *)
Theorem lifetime_frees_everything (env : Env) (proto_host_port : string)
    (calls : list (Verb * RequestInfo)) (w : World) :
  let run := lifetime env proto_host_port calls w in
  let evs := new_events w run.2 in
  (forall p buffer, In (EvHost p (Some buffer)) evs -> Wire.wire_ok buffer = true) ->
  exists k,
    mallocs evs = seq (length (heap w)) k
    /\ Permutation (frees evs) (mallocs evs)
    /\ heap run.2 = heap w ++ replicate k None.
Proof.
  intros run evs Hok. subst evs run.
  rewrite BridgeFacts.lifetime_run in *. cbv zeta in *. cbn [snd] in *.
  set (this := mkClient _ _) in *. set (w1 := mkWorld _ _) in *.
  destruct (LifeFacts.session_balance env this calls w1) as (evs & Htr & Hbal).
  assert (Hevs : new_events w (session env this calls w1).2
                 = EvProbe (has_xhr env (trace w)) :: evs).
  { unfold new_events. rewrite Htr. subst w1. cbn [trace].
    rewrite <- app_assoc. by rewrite drop_app_length. }
  rewrite Hevs in *.
  destruct Hbal as (k & Hm & Hf & Hh).
  { intros p buffer Hin. apply (Hok p). by right. }
  exists k. subst w1. cbn [heap] in *.
  split; [exact Hm|]. split; [|exact Hh].
  change (Permutation (frees evs) (mallocs evs)). by rewrite Hm.
Qed.

Lemma lifetime_frees_everything_witness :
  exists k,
    heap (lifetime (browser_serving "hello" "ETag: x") "https://h"
            [(GET, example_info); (HEAD, example_info); (POST, example_info)]
            empty_world).2
    = replicate k None.
Proof.
  destruct (lifetime_frees_everything (browser_serving "hello" "ETag: x")
              "https://h"
              [(GET, example_info); (HEAD, example_info); (POST, example_info)]
              empty_world) as (k & _ & _ & Hh).
  - intros p buffer Hin. vm_compute in Hin.
    repeat (destruct Hin as [Hin|Hin];
            [try discriminate Hin; try (injection Hin as _ <-; reflexivity)|]).
    done.
  - exists k. exact Hh.
Defined.

Module PostFacts.
Import Mem Bridge Shape.

Lemma app_nil_r s : s +:+ EmptyString = s.
Proof. induction s as [|c s IH]; [done|]. rewrite StrFacts.app_cons. by f_equal. Qed.

(** What a Post leaves in the request descriptor. *)
Lemma Post_info env this info w r info' w' :
  Post env this info w = (Some (r, info'), w') ->
  url info' = url info /\ info_headers info' = info_headers info
  /\ buffer_in info' = buffer_in info /\ content_handler info' = content_handler info
  /\ buffer_out info'
     = buffer_out info +:+ (if is_OK (status r) then body r else EmptyString).
Proof.
  intros H.
  destruct (BridgeFacts.dispatch_cases env this POST info w)
    as (installed & reply & _ & _ & _ & Hres & _).
  change (dispatch env this POST info w) with (Post env this info w) in Hres.
  rewrite H in Hres. cbn [fst] in Hres.
  destruct (verb_response POST reply) as [r0|]; [|done].
  injection Hres as -> ->. cbn [verb_info].
  destruct (is_OK (status r0)); [done|]. by rewrite app_nil_r.
Qed.

End PostFacts.

(** X21.  Posts accumulate: after two Posts through the same request
    descriptor the caller's output buffer holds what it held before,
    then the body of the first response if that was OK_200, then the
    body of the second if that was OK_200; a failed Post adds nothing,
    and no Post changes the url, the headers or the request body. *)
Theorem posts_accumulate (env : Env) (this : HTTPWasmClient)
    (info info1 info2 : RequestInfo) (w w1 w2 : World) (r1 r2 : HTTPResponse) :
  Post env this info w = (Some (r1, info1), w1) ->
  Post env this info1 w1 = (Some (r2, info2), w2) ->
  buffer_out info2
  = buffer_out info
      +:+ (if is_OK (status r1) then body r1 else EmptyString)
      +:+ (if is_OK (status r2) then body r2 else EmptyString)
  /\ url info2 = url info
  /\ info_headers info2 = info_headers info
  /\ buffer_in info2 = buffer_in info.
Proof.
  intros H1 H2.
  destruct (PostFacts.Post_info _ _ _ _ _ _ _ H1) as (Hu1 & Hh1 & Hb1 & _ & Ho1).
  destruct (PostFacts.Post_info _ _ _ _ _ _ _ H2) as (Hu2 & Hh2 & Hb2 & _ & Ho2).
  rewrite Ho2, Ho1, StrFacts.app_assoc. repeat split; congruence.
Qed.

Lemma posts_accumulate_witness :
  exists info2,
    (Post (browser_serving "hello" "") (mkClient "https://h" true) example_info
       empty_world).1 = Some (set_body (make_response OK_200) "hello",
                              mkInfo "/data.parquet"
                                [("Host", "example.com"); ("User-Agent", "x")]
                                (Some "payload") "outhello" true)
    /\ buffer_out info2 = "outhellohello".
Proof.
  pose (run1 := Post (browser_serving "hello" "") (mkClient "https://h" true)
                  example_info empty_world).
  pose (info1 := mkInfo "/data.parquet"
                   [("Host", "example.com"); ("User-Agent", "x")]
                   (Some "payload") "outhello" true).
  pose (run2 := Post (browser_serving "hello" "") (mkClient "https://h" true)
                  info1 run1.2).
  pose (info2 := mkInfo "/data.parquet"
                   [("Host", "example.com"); ("User-Agent", "x")]
                   (Some "payload") "outhellohello" true).
  exists info2. split; [reflexivity|].
  apply (proj1 (posts_accumulate (browser_serving "hello" "")
                  (mkClient "https://h" true) example_info info1 info2
                  empty_world run1.2 run2.2
                  (set_body (make_response OK_200) "hello")
                  (set_body (make_response OK_200) "hello")
                  eq_refl eq_refl)).
Defined.

(** X22.  [FreeHeaders] undoes [PrepareHeaders]: called with the array
    and the count that [PrepareHeaders] returned, it succeeds for every
    header set, the empty one included, and frees the strings in the
    order they were allocated and the array last; the 1 + 2 * count
    blocks are fresh slots, all released at the end, and the blocks
    that were live before are untouched. *)
Theorem FreeHeaders_undoes_PrepareHeaders (headers : HeaderCodec.HTTPHeaders)
    (w : World) :
  let run :=
    (prepared ← PrepareHeaders headers; FreeHeaders prepared.1 prepared.2) w in
  let evs := new_events w run.2 in
  let n := length (heap w) in
  run.1 = Some tt
  /\ mallocs evs = seq n (1 + 2 * length headers)
  /\ frees evs = seq (n + 1) (2 * length headers) ++ [n]
  /\ heap run.2 = heap w ++ replicate (1 + 2 * length headers) None.
Proof.
  intros run evs n. subst evs run n. destruct w as [h0 T]. cbn [heap].
  rewrite MemFacts.bind_run, BridgeFacts.PrepareHeaders_run. cbv beta iota.
  cbn [fst snd].
  rewrite <- (app_nil_r (Shape.cstrings headers)).
  rewrite BridgeFacts.FreeHeaders_run. cbn [fst snd heap].
  rewrite <- app_assoc, MemFacts.new_events_app, app_nil_r.
  split; [done|]. unfold mallocs, frees. rewrite !omap_app.
  change (EvMalloc (length h0) :: map EvMalloc ?l)
    with (map EvMalloc (length h0 :: l)).
  change [EvFree (length h0)] with (map EvFree [length h0]).
  rewrite !BridgeFacts.omap_map_some by done.
  rewrite !BridgeFacts.omap_map_none by done.
  rewrite !BridgeFacts.omap_map_some by done.
  rewrite app_nil_r, app_nil_l.
  split; [by replace (length h0 + 1) with (S (length h0)) by lia|].
  split; [done|]. reflexivity.
Qed.
